(** * Provider pool manager: a shallow embedding of
      [src/provider-pool-manager.js] and its verification.

    The manager keeps, per provider family, an ordered list of provider
    configurations with health and usage counters, selects among them in
    round-robin order, probes their health through a service adapter and
    persists the counters to one JSON document.

    Modelling conventions.
    - A provider configuration is a JavaScript object.  The ten fields the
      manager itself maintains are record fields with the type the manager
      gives them (booleans, integer counters, strings or [null]); every
      other key of the object (uuid, credentials, [checkModelName],
      [_comment], ...) is kept as raw JSON in [rest].
    - The pool is built from the parsed pool document, and every timestamp
      the manager writes is the string [new Date().toISOString()]: no
      field holds a [Date] object, so the [instanceof Date] branches of
      the source are never taken and are left out.
    - The counters that the manager itself maintains ([usageCount],
      [errorCount]) are integers and are modelled by [Z].  The usage
      numbers of the quota analysis come from outside: they are IEEE
      binary64 values ([spec_float] of [SpecFloat], in canonical form),
      and the analysis adds, subtracts, divides and compares them in
      binary64 as the source does.
    - JavaScript objects used as dictionaries are [gmap string _]; the
      objects of the pool are shared and mutated in place, so a reference
      to a pool entry is its position in the family's list.
    - [new Date()] is an argument of the operation that reads the clock.
    - Calls to the service adapter act on an abstract [World]; every call
      is recorded in a trace.  Logging and the duration of the save timer
      are not modelled. *)

From Stdlib Require Import ZArith List Lia SpecFloat.
From stdpp Require Import gmap strings list fin_maps pretty.

Local Set Warnings "-register-all".
Local Open Scope Z_scope.

(** ** JSON values and JavaScript truthiness *)

Inductive JSON : Type :=
  | JNull
  | JBool (b : bool)
  | JNum (n : Z)
  | JStr (s : string)
  | JArr (l : list JSON)
  | JObj (l : list (string * JSON)).

(** [!!v] for a JSON value. *)
Definition truthy (v : JSON) : bool :=
  match v with
  | JNull => false
  | JBool b => b
  | JNum n => negb (Z.eqb n 0)
  | JStr s => negb (String.eqb s "")
  | JArr _ | JObj _ => true
  end.

(** [!!s] for a value that is a string, [null] or [undefined]. *)
Definition truthy_str (o : option string) : bool :=
  match o with
  | Some s => negb (String.eqb s "")
  | None => false
  end.

(** [s || null] for such a value. *)
Definition or_null (o : option string) : option string :=
  if truthy_str o then o else None.

(** ** A reading of the clock: the [Date] returned by [new Date()] *)

Record Date := { getTime : Z; toISOString : string }.

(** ** The quota snapshot cached on an entry *)

Record UsageInfo := {
  used : spec_float;
  limit : spec_float;
  remaining : spec_float;
  usagePercent : spec_float;
  nextReset : option JSON;
  daysUntilReset : option JSON;
  subscription : option string;
  email : option string
}.

(** ** Provider configurations *)

(** The in-memory configuration object after [initializeProviderStatus]. *)
Record Config := {
  isHealthy : bool;
  isDisabled : bool;
  lastUsed : option string;
  usageCount : Z;
  errorCount : Z;
  lastErrorTime : option string;
  lastHealthCheckTime : option string;
  lastHealthCheckModel : option string;
  lastErrorMessage : option string;
  usageInfo : option UsageInfo;
  rest : gmap string JSON
}.

Definition set_isHealthy (v : bool) (c : Config) : Config :=
  {| isHealthy := v; isDisabled := isDisabled c; lastUsed := lastUsed c;
     usageCount := usageCount c; errorCount := errorCount c;
     lastErrorTime := lastErrorTime c;
     lastHealthCheckTime := lastHealthCheckTime c;
     lastHealthCheckModel := lastHealthCheckModel c;
     lastErrorMessage := lastErrorMessage c; usageInfo := usageInfo c;
     rest := rest c |}.

Definition set_isDisabled (v : bool) (c : Config) : Config :=
  {| isHealthy := isHealthy c; isDisabled := v; lastUsed := lastUsed c;
     usageCount := usageCount c; errorCount := errorCount c;
     lastErrorTime := lastErrorTime c;
     lastHealthCheckTime := lastHealthCheckTime c;
     lastHealthCheckModel := lastHealthCheckModel c;
     lastErrorMessage := lastErrorMessage c; usageInfo := usageInfo c;
     rest := rest c |}.

Definition set_lastUsed (v : option string) (c : Config) : Config :=
  {| isHealthy := isHealthy c; isDisabled := isDisabled c; lastUsed := v;
     usageCount := usageCount c; errorCount := errorCount c;
     lastErrorTime := lastErrorTime c;
     lastHealthCheckTime := lastHealthCheckTime c;
     lastHealthCheckModel := lastHealthCheckModel c;
     lastErrorMessage := lastErrorMessage c; usageInfo := usageInfo c;
     rest := rest c |}.

Definition set_usageCount (v : Z) (c : Config) : Config :=
  {| isHealthy := isHealthy c; isDisabled := isDisabled c;
     lastUsed := lastUsed c; usageCount := v; errorCount := errorCount c;
     lastErrorTime := lastErrorTime c;
     lastHealthCheckTime := lastHealthCheckTime c;
     lastHealthCheckModel := lastHealthCheckModel c;
     lastErrorMessage := lastErrorMessage c; usageInfo := usageInfo c;
     rest := rest c |}.

Definition set_errorCount (v : Z) (c : Config) : Config :=
  {| isHealthy := isHealthy c; isDisabled := isDisabled c;
     lastUsed := lastUsed c; usageCount := usageCount c; errorCount := v;
     lastErrorTime := lastErrorTime c;
     lastHealthCheckTime := lastHealthCheckTime c;
     lastHealthCheckModel := lastHealthCheckModel c;
     lastErrorMessage := lastErrorMessage c; usageInfo := usageInfo c;
     rest := rest c |}.

Definition set_lastErrorTime (v : option string) (c : Config) : Config :=
  {| isHealthy := isHealthy c; isDisabled := isDisabled c;
     lastUsed := lastUsed c; usageCount := usageCount c;
     errorCount := errorCount c; lastErrorTime := v;
     lastHealthCheckTime := lastHealthCheckTime c;
     lastHealthCheckModel := lastHealthCheckModel c;
     lastErrorMessage := lastErrorMessage c; usageInfo := usageInfo c;
     rest := rest c |}.

Definition set_lastHealthCheckTime (v : option string) (c : Config) : Config :=
  {| isHealthy := isHealthy c; isDisabled := isDisabled c;
     lastUsed := lastUsed c; usageCount := usageCount c;
     errorCount := errorCount c; lastErrorTime := lastErrorTime c;
     lastHealthCheckTime := v;
     lastHealthCheckModel := lastHealthCheckModel c;
     lastErrorMessage := lastErrorMessage c; usageInfo := usageInfo c;
     rest := rest c |}.

Definition set_lastHealthCheckModel (v : option string) (c : Config) : Config :=
  {| isHealthy := isHealthy c; isDisabled := isDisabled c;
     lastUsed := lastUsed c; usageCount := usageCount c;
     errorCount := errorCount c; lastErrorTime := lastErrorTime c;
     lastHealthCheckTime := lastHealthCheckTime c;
     lastHealthCheckModel := v;
     lastErrorMessage := lastErrorMessage c; usageInfo := usageInfo c;
     rest := rest c |}.

Definition set_lastErrorMessage (v : option string) (c : Config) : Config :=
  {| isHealthy := isHealthy c; isDisabled := isDisabled c;
     lastUsed := lastUsed c; usageCount := usageCount c;
     errorCount := errorCount c; lastErrorTime := lastErrorTime c;
     lastHealthCheckTime := lastHealthCheckTime c;
     lastHealthCheckModel := lastHealthCheckModel c;
     lastErrorMessage := v; usageInfo := usageInfo c;
     rest := rest c |}.

Definition set_usageInfo (v : option UsageInfo) (c : Config) : Config :=
  {| isHealthy := isHealthy c; isDisabled := isDisabled c;
     lastUsed := lastUsed c; usageCount := usageCount c;
     errorCount := errorCount c; lastErrorTime := lastErrorTime c;
     lastHealthCheckTime := lastHealthCheckTime c;
     lastHealthCheckModel := lastHealthCheckModel c;
     lastErrorMessage := lastErrorMessage c; usageInfo := v;
     rest := rest c |}.

(** Keys of the configuration that the manager reads but never writes. *)

(** [config.uuid]; the uuid is a string when present. *)
Definition uuid (c : Config) : option string :=
  match rest c !! "uuid" with
  | Some (JStr s) => Some s
  | _ => None
  end.

(** [config.checkModelName] when it is truthy; a string when present. *)
Definition checkModelName (c : Config) : option string :=
  match rest c !! "checkModelName" with
  | Some (JStr s) => if String.eqb s "" then None else Some s
  | _ => None
  end.

(** [!!config.checkHealth] *)
Definition checkHealth (c : Config) : bool :=
  match rest c !! "checkHealth" with
  | Some v => truthy v
  | None => false
  end.

(** [config.notSupportedModels] when it is an array, [None] when the filter
    of [selectProvider] lets the entry pass without looking at it. *)
Definition notSupportedModels (c : Config) : option (list JSON) :=
  match rest c !! "notSupportedModels" with
  | Some (JArr l) => Some l
  | _ => None
  end.

(** [array.includes(model)] for a string [model]. *)
Definition includes (l : list JSON) (model : string) : bool :=
  existsb (λ v, match v with JStr s => String.eqb s model | _ => false end) l.

(** ** The on-disk pool document *)

(** One entry object of the document.  A managed field may be missing
    ([None]); a field that may hold [null] has a second [option]. *)
Module Doc.
Record Entry := {
  isHealthy : option bool;
  isDisabled : option bool;
  lastUsed : option (option string);
  usageCount : option Z;
  errorCount : option Z;
  lastErrorTime : option (option string);
  lastHealthCheckTime : option (option string);
  lastHealthCheckModel : option (option string);
  lastErrorMessage : option (option string);
  usageInfo : option (option UsageInfo);
  rest : gmap string JSON
}.
End Doc.

(** The document: family name to entry list. *)
Abbreviation Document := (gmap string (list Doc.Entry)).

(** ** The manager *)

Record Manager := {
  providerStatus : gmap string (list Config);
  roundRobinIndex : gmap string nat;
  maxErrorCount : Z;
  healthCheckInterval : Z;
  globalConfig : gmap string JSON;
  (** [saveTimer !== null] *)
  saveTimer : bool;
  (** the [Set] of families to save, in insertion order *)
  pendingSaves : list string
}.

Definition set_providerStatus (v : gmap string (list Config)) (m : Manager) : Manager :=
  {| providerStatus := v; roundRobinIndex := roundRobinIndex m;
     maxErrorCount := maxErrorCount m;
     healthCheckInterval := healthCheckInterval m;
     globalConfig := globalConfig m;
     saveTimer := saveTimer m; pendingSaves := pendingSaves m |}.

Definition set_roundRobinIndex (v : gmap string nat) (m : Manager) : Manager :=
  {| providerStatus := providerStatus m; roundRobinIndex := v;
     maxErrorCount := maxErrorCount m;
     healthCheckInterval := healthCheckInterval m;
     globalConfig := globalConfig m;
     saveTimer := saveTimer m; pendingSaves := pendingSaves m |}.

(** The list of a family, [[]] when the family is unknown. *)
Definition pool (m : Manager) (providerType : string) : list Config :=
  default [] (providerStatus m !! providerType).

(** Assignment through a reference: entry [i] of family [providerType]
    becomes [c]. *)
Definition setEntry (providerType : string) (i : nat) (c : Config) (m : Manager) : Manager :=
  set_providerStatus
    (<[providerType := <[i := c]> (pool m providerType)]> (providerStatus m)) m.

(** *** Construction *)

Record Options := {
  opt_maxErrorCount : option Z;
  opt_healthCheckInterval : option Z;
  opt_globalConfig : option (gmap string JSON)
}.

(** The body of the [forEach] of [initializeProviderStatus]: a field that
    is [undefined] gets its default, and the four fields read with
    [|| null] become [null] when they are empty. *)
Definition initializeEntry (e : Doc.Entry) : Config :=
  {| isHealthy := default true (Doc.isHealthy e);
     isDisabled := default false (Doc.isDisabled e);
     lastUsed := default None (Doc.lastUsed e);
     usageCount := default 0 (Doc.usageCount e);
     errorCount := default 0 (Doc.errorCount e);
     lastErrorTime := or_null (default None (Doc.lastErrorTime e));
     lastHealthCheckTime := or_null (default None (Doc.lastHealthCheckTime e));
     lastHealthCheckModel := or_null (default None (Doc.lastHealthCheckModel e));
     lastErrorMessage := or_null (default None (Doc.lastErrorMessage e));
     usageInfo := default None (Doc.usageInfo e);
     rest := Doc.rest e |}.

(** [new ProviderPoolManager(providerPools, options)] *)
Definition initializeProviderStatus (providerPools : Document) (options : Options) : Manager :=
  {| providerStatus := (map initializeEntry) <$> providerPools;
     roundRobinIndex := (λ _, 0%nat) <$> providerPools;
     maxErrorCount := default 3 (opt_maxErrorCount options);
     healthCheckInterval := default (10 * 60 * 1000) (opt_healthCheckInterval options);
     globalConfig := default ∅ (opt_globalConfig options);
     saveTimer := false;
     pendingSaves := [] |}.

(** *** Lookup by uuid *)

(** [_findProvider]: the position and the configuration of the first entry
    of the family with this uuid. *)
Definition _findProvider (m : Manager) (providerType : string) (u : option string)
  : option (nat * Config) :=
  if negb (String.eqb providerType "") && truthy_str u
  then list_find (λ c, uuid c = u) (pool m providerType)
  else None.

(** *** Debounced persistence *)

(** [_debouncedSave]: adds the family to the pending set and arms the
    timer. *)
Definition _debouncedSave (providerType : string) (m : Manager) : Manager :=
  {| providerStatus := providerStatus m; roundRobinIndex := roundRobinIndex m;
     maxErrorCount := maxErrorCount m;
     healthCheckInterval := healthCheckInterval m;
     globalConfig := globalConfig m;
     saveTimer := true;
     pendingSaves :=
       if decide (providerType ∈ pendingSaves m) then pendingSaves m
       else pendingSaves m ++ [providerType] |}.

(** The projection of an entry that [_flushPendingSaves] writes:
    [{ ...p.config }] with every managed field present, all timestamps
    being strings already. *)
Definition toDocEntry (c : Config) : Doc.Entry :=
  {| Doc.isHealthy := Some (isHealthy c);
     Doc.isDisabled := Some (isDisabled c);
     Doc.lastUsed := Some (lastUsed c);
     Doc.usageCount := Some (usageCount c);
     Doc.errorCount := Some (errorCount c);
     Doc.lastErrorTime := Some (lastErrorTime c);
     Doc.lastHealthCheckTime := Some (lastHealthCheckTime c);
     Doc.lastHealthCheckModel := Some (lastHealthCheckModel c);
     Doc.lastErrorMessage := Some (lastErrorMessage c);
     Doc.usageInfo := Some (usageInfo c);
     Doc.rest := rest c |}.

(** The outcome of reading and parsing the file: the document, or the
    error with its [code] if it has one. *)
Inductive ReadResult :=
  | ReadOk (doc : Document)
  | ReadError (code : option string).

(** The loop over [typesToSave]. *)
Definition savePool (m : Manager) (currentPools : Document) (providerType : string) : Document :=
  match providerStatus m !! providerType with
  | Some l => <[providerType := map toDocEntry l]> currentPools
  | None => currentPools
  end.

(** The part of [_flushPendingSaves] up to the first [await]: snapshot
    and clear the pending set. *)
Definition flushBegin (m : Manager) : list string * Manager :=
  match pendingSaves m with
  | [] => ([], m)
  | typesToSave =>
      (typesToSave,
       {| providerStatus := providerStatus m;
          roundRobinIndex := roundRobinIndex m;
          maxErrorCount := maxErrorCount m;
          healthCheckInterval := healthCheckInterval m;
          globalConfig := globalConfig m;
          saveTimer := false;
          pendingSaves := [] |})
  end.

(** The part after the read: the document handed to [writeFile], or
    [None] when the flush is given up. *)
Definition flushWrite (typesToSave : list string) (read : ReadResult) (m : Manager)
  : option Document :=
  match read with
  | ReadOk doc => Some (foldl (savePool m) doc typesToSave)
  | ReadError code =>
      if decide (code = Some "ENOENT")
      then Some (foldl (savePool m) ∅ typesToSave)
      else None
  end.

(** [_flushPendingSaves] with no other operation running during the
    read. *)
Definition _flushPendingSaves (read : ReadResult) (m : Manager) : Manager * option Document :=
  let '(typesToSave, m') := flushBegin m in
  match typesToSave with
  | [] => (m', None)
  | _ => (m', flushWrite typesToSave read m')
  end.

(** What loading and writing back does to an entry of the document. *)
Definition normalize (e : Doc.Entry) : Doc.Entry := toDocEntry (initializeEntry e).

(** An entry of the document that has all ten managed fields, none of the
    four that are read with [|| null] being the empty string. *)
Definition complete (e : Doc.Entry) : Prop :=
  is_Some (Doc.isHealthy e) ∧ is_Some (Doc.isDisabled e) ∧
  is_Some (Doc.lastUsed e) ∧ is_Some (Doc.usageCount e) ∧
  is_Some (Doc.errorCount e) ∧
  (∃ v, Doc.lastErrorTime e = Some v ∧ v ≠ Some "") ∧
  (∃ v, Doc.lastHealthCheckTime e = Some v ∧ v ≠ Some "") ∧
  (∃ v, Doc.lastHealthCheckModel e = Some v ∧ v ≠ Some "") ∧
  (∃ v, Doc.lastErrorMessage e = Some v ∧ v ≠ Some "") ∧
  is_Some (Doc.usageInfo e).

(** *** Error and success reporting *)

(** [markProviderUnhealthy] *)
Definition markProviderUnhealthy (providerType : string) (providerConfig : option Config)
    (errorMessage : option string) (now : Date) (m : Manager) : Manager :=
  match _findProvider m providerType (providerConfig ≫= uuid) with
  | None => m
  | Some (i, c) =>
      let c := set_errorCount (errorCount c + 1) c in
      let c := set_lastErrorTime (Some (toISOString now)) c in
      let c := if truthy_str errorMessage then set_lastErrorMessage errorMessage c else c in
      let c := if maxErrorCount m <=? errorCount c then set_isHealthy false c else c in
      _debouncedSave providerType (setEntry providerType i c m)
  end.

(** [markProviderHealthy]; [now] and [usedAt] are its two clock readings. *)
Definition markProviderHealthy (providerType : string) (providerConfig : option Config)
    (resetUsageCount : bool) (healthCheckModel : option string)
    (now usedAt : Date) (m : Manager) : Manager :=
  match _findProvider m providerType (providerConfig ≫= uuid) with
  | None => m
  | Some (i, c) =>
      let c := set_isHealthy true c in
      let c := set_errorCount 0 c in
      let c := set_lastErrorTime None c in
      let c := set_lastErrorMessage None c in
      let c := set_lastHealthCheckTime (Some (toISOString now)) c in
      let c := if truthy_str healthCheckModel
               then set_lastHealthCheckModel healthCheckModel c else c in
      let c := if resetUsageCount
               then set_usageCount 0 c
               else set_lastUsed (Some (toISOString usedAt))
                      (set_usageCount (usageCount c + 1) c) in
      _debouncedSave providerType (setEntry providerType i c m)
  end.

(** [resetProviderCounters] *)
Definition resetProviderCounters (providerType : string) (providerConfig : option Config)
    (m : Manager) : Manager :=
  match _findProvider m providerType (providerConfig ≫= uuid) with
  | None => m
  | Some (i, c) =>
      let c := set_errorCount 0 c in
      let c := set_usageCount 0 c in
      _debouncedSave providerType (setEntry providerType i c m)
  end.

(** [disableProvider] *)
Definition disableProvider (providerType : string) (providerConfig : option Config)
    (m : Manager) : Manager :=
  match _findProvider m providerType (providerConfig ≫= uuid) with
  | None => m
  | Some (i, c) =>
      _debouncedSave providerType (setEntry providerType i (set_isDisabled true c) m)
  end.

(** [enableProvider] *)
Definition enableProvider (providerType : string) (providerConfig : option Config)
    (m : Manager) : Manager :=
  match _findProvider m providerType (providerConfig ≫= uuid) with
  | None => m
  | Some (i, c) =>
      _debouncedSave providerType (setEntry providerType i (set_isDisabled false c) m)
  end.

(** ** Selection *)

(** [refs.filter(p => P(p.config))] on references into the list [l]. *)
Definition keep (P : Config → bool) (l : list Config) (refs : list nat) : list nat :=
  List.filter (λ i, from_option P false (l !! i)) refs.

(** The model filter of [selectProvider]. *)
Definition supportsModel (requestedModel : string) (c : Config) : bool :=
  match notSupportedModels c with
  | None => true
  | Some l => negb (includes l requestedModel)
  end.

(** [enabledProviders]: the entries that are not disabled and, when a
    model is requested, do not exclude it. *)
Definition enabledProviders (l : list Config) (requestedModel : option string) : list nat :=
  let enabled := keep (λ c, negb (isDisabled c)) l (seq 0 (length l)) in
  if truthy_str requestedModel
  then keep (supportsModel (default "" requestedModel)) l enabled
  else enabled.

(** The condition under which the sweep triggers a recovery check;
    [parseDate s] is [new Date(s).getTime()], [None] when that is NaN. *)
Definition recoveryDue (parseDate : string → option Z) (interval : Z) (now : Date)
    (c : Config) : bool :=
  negb (isHealthy c) && truthy_str (lastErrorTime c) &&
  match lastErrorTime c ≫= parseDate with
  | Some t => interval <=? getTime now - t
  | None => false
  end.

(** One iteration of the sweep: the list and the entries for which
    [_tryRecoverProvider] has been started. *)
Definition sweepOne (parseDate : string → option Z) (interval : Z) (now : Date)
    (acc : list Config * list nat) (i : nat) : list Config * list nat :=
  match acc.1 !! i with
  | Some c =>
      if recoveryDue parseDate interval now c
      then (<[i := set_lastErrorTime (Some (toISOString now)) c]> acc.1, acc.2 ++ [i])
      else acc
  | None => acc
  end.

Definition recoverySweep (parseDate : string → option Z) (interval : Z) (now : Date)
    (l : list Config) (enabled : list nat) : list Config * list nat :=
  foldl (sweepOne parseDate interval now) (l, []) enabled.

(** [candidateProviders]: the healthy ones, or all enabled ones when none
    is healthy. *)
Definition candidateProviders (l : list Config) (enabled : list nat) : list nat :=
  match keep isHealthy l enabled with
  | [] => enabled
  | healthy => healthy
  end.

(** The key of the round-robin index. *)
Definition indexKey (providerType : string) (requestedModel : option string) : string :=
  if truthy_str requestedModel
  then providerType +:+ ":" +:+ default "" requestedModel
  else providerType.

(** The round-robin step: the selected candidate and the index to store. *)
Definition roundRobin {A} (candidates : list A) (currentIndex : nat) : option A * nat :=
  (candidates !! (currentIndex mod length candidates)%nat,
   ((currentIndex + 1) mod length candidates)%nat).

(** [selectProvider]: the new state, the selected entry (a reference into
    the family's list) and the entries whose recovery check was started.
    [now] and [usedAt] are the two clock readings. *)
Definition selectProvider (parseDate : string → option Z)
    (providerType : string) (requestedModel : option string) (skipUsageCount : bool)
    (now usedAt : Date) (m : Manager) : Manager * option nat * list nat :=
  if String.eqb providerType "" then (m, None, []) else
  let availableProviders := pool m providerType in
  let enabled := enabledProviders availableProviders requestedModel in
  match enabled with
  | [] => (m, None, [])
  | _ =>
      let '(swept, started) :=
        recoverySweep parseDate (healthCheckInterval m) now availableProviders enabled in
      let candidates := candidateProviders swept enabled in
      let key := indexKey providerType requestedModel in
      let currentIndex := default 0%nat (roundRobinIndex m !! key) in
      let '(selected, nextIndex) := roundRobin candidates currentIndex in
      let m := set_providerStatus (<[providerType := swept]> (providerStatus m)) m in
      let m := set_roundRobinIndex (<[key := nextIndex]> (roundRobinIndex m)) m in
      match selected ≫= (λ i, (i,.) <$> swept !! i) with
      | None => (m, None, started)   (* never taken: the index is in range *)
      | Some (i, c) =>
          if skipUsageCount then (m, Some i, started)
          else
            let c := set_lastUsed (Some (toISOString usedAt)) c in
            let c := set_usageCount (usageCount c + 1) c in
            (_debouncedSave providerType (setEntry providerType i c m), Some i, started)
      end
  end.

(** The arguments of one call of [selectProvider] with no requested
    model. *)
Record SelectCall := { skipUsageCount : bool; now : Date; usedAt : Date }.

(** Successive selections on one family, with the entries returned. *)
Fixpoint selectMany (parseDate : string → option Z) (providerType : string)
    (calls : list SelectCall) (m : Manager) : Manager * list (option nat) :=
  match calls with
  | [] => (m, [])
  | c :: calls =>
      let '(m, r, _) :=
        selectProvider parseDate providerType None (skipUsageCount c) (now c) (usedAt c) m in
      let '(m, rs) := selectMany parseDate providerType calls m in
      (m, r :: rs)
  end.

(** The candidate list that a call of [selectProvider] draws from. *)
Definition candidatesAt (parseDate : string → option Z) (providerType : string)
    (requestedModel : option string) (now : Date) (m : Manager) : list nat :=
  let l := pool m providerType in
  let enabled := enabledProviders l requestedModel in
  candidateProviders
    (recoverySweep parseDate (healthCheckInterval m) now l enabled).1 enabled.

(** ** Counting selections *)

(** What the filters of [selectProvider] look at when no model is
    requested. *)
Definition flags (c : Config) : bool * bool := (isDisabled c, isHealthy c).

(** The healthy enabled entries of a family, in the order of its list. *)
Definition healthyEnabled (l : list Config) : list nat :=
  keep isHealthy l (keep (λ c, negb (isDisabled c)) l (seq 0 (length l))).

(** How often entry [p] occurs among the entries returned. *)
Definition timesReturned (p : nat) (results : list (option nat)) : nat :=
  length (List.filter (λ r, bool_decide (r = Some p)) results).

(** The number of [j < k] with [s + j] a multiple of [n]. *)
Definition hits (n s k : nat) : nat :=
  length (List.filter (λ j, ((s + j) mod n =? 0)%nat) (seq 0 k)).

(** ** Quota analysis (Mode A) *)

(** *** JavaScript numbers *)

(** The number [+0], the literal [0] of the source. *)
Definition Number_zero : spec_float := S754_zero false.

(** A JavaScript number holding the integer [z]. *)
Definition binary64 (z : Z) : spec_float := binary_normalize 53 1024 z 0 false.

(** [x + y], [x - y], [x * y] and [x / y] on numbers. *)
Definition Number_add (x y : spec_float) : spec_float := SFadd 53 1024 x y.
Definition Number_sub (x y : spec_float) : spec_float := SFsub 53 1024 x y.
Definition Number_mul (x y : spec_float) : spec_float := SFmul 53 1024 x y.
Definition Number_div (x y : spec_float) : spec_float := SFdiv 53 1024 x y.

(** [x || 0] for a value that is a number or missing: [0], [-0], [NaN]
    and a missing value give [0]. *)
Definition or_zero (o : option spec_float) : spec_float :=
  match o with
  | Some (S754_zero _) | Some S754_nan | None => Number_zero
  | Some x => x
  end.

(** [Math.round]: the nearest integer, ties upwards; [NaN], the
    infinities and the zeros are returned as they are, and a negative
    number that rounds to zero gives [-0]. *)
Definition Math_round (x : spec_float) : spec_float :=
  match x with
  | S754_finite s m e =>
      if 0 <=? e then x
      else
        let n := if s then Z.neg m else Z.pos m in
        let z := (2 * n + 2 ^ (- e)) / 2 ^ (1 - e) in
        if z =? 0 then S754_zero s else binary64 z
  | _ => x
  end.

(** The integer that a number holds, if it holds one. *)
Definition toInteger (x : spec_float) : option Z :=
  match x with
  | S754_zero _ => Some 0
  | S754_finite s m e =>
      let n := if s then Z.neg m else Z.pos m in
      if 0 <=? e then Some (n * 2 ^ e)
      else if n mod 2 ^ (- e) =? 0 then Some (n / 2 ^ (- e))
      else None
  | _ => None
  end.

(** The text of a number in a template literal.  An integer of magnitude
    below [2^53] is written with its decimal digits, and [NaN] and the
    infinities by name; the text of any other number (a fraction or a
    larger value, which the language writes with the shortest digits that
    identify it) is given by [numberText]. *)
Definition Number_toString (numberText : spec_float → string) (x : spec_float) : string :=
  match x with
  | S754_nan => "NaN"
  | S754_infinity false => "Infinity"
  | S754_infinity true => "-Infinity"
  | _ =>
      match toInteger x with
      | Some z => if Z.abs z <? 2 ^ 53 then pretty z else numberText x
      | None => numberText x
      end
  end.

(** *** The usage data *)

(** The normalized usage snapshot, as [_analyzeUsageHealth] reads it. *)
Module Usage.
(** A free-trial or bonus bucket. *)
Record Bucket := {
  status : option string;
  currentUsage : option spec_float;
  usageLimit : option spec_float
}.
Record Breakdown := {
  baseUsage : option spec_float;   (* breakdown.currentUsage *)
  baseLimit : option spec_float;   (* breakdown.usageLimit *)
  freeTrial : option Bucket;
  bonuses : option (list Bucket)
}.
Record Subscription := { title : option string; type : option string }.
Record User := { email : option string }.
Record Formatted := {
  usageBreakdown : option (list Breakdown);
  nextDateReset : option JSON;
  daysUntilReset : option JSON;
  subscription : option Subscription;
  user : option User
}.
End Usage.

(** The running totals of the aggregation loop. *)
Record Totals := {
  totalUsed : spec_float;
  totalLimit : spec_float;
  hasActiveQuota : bool
}.

(** [totalUsed += used; totalLimit += limit;
     if (limit > 0 && used < limit) hasActiveQuota = true] *)
Definition addBucket (used limit : spec_float) (t : Totals) : Totals :=
  {| totalUsed := Number_add (totalUsed t) used;
     totalLimit := Number_add (totalLimit t) limit;
     hasActiveQuota :=
       if SFltb Number_zero limit && SFltb used limit then true
       else hasActiveQuota t |}.

Definition isActive (b : Usage.Bucket) : bool :=
  bool_decide (Usage.status b = Some "ACTIVE").

Definition addBonus (t : Totals) (bonus : Usage.Bucket) : Totals :=
  if isActive bonus
  then addBucket (or_zero (Usage.currentUsage bonus))
                 (or_zero (Usage.usageLimit bonus)) t
  else t.

(** The body of the loop over [usageBreakdown]. *)
Definition addBreakdown (t : Totals) (breakdown : Usage.Breakdown) : Totals :=
  let t := addBucket (or_zero (Usage.baseUsage breakdown))
                     (or_zero (Usage.baseLimit breakdown)) t in
  let t := match Usage.freeTrial breakdown with
           | Some ft =>
               if isActive ft
               then addBucket (or_zero (Usage.currentUsage ft))
                              (or_zero (Usage.usageLimit ft)) t
               else t
           | None => t
           end in
  match Usage.bonuses breakdown with
  | Some bs => foldl addBonus t bs
  | None => t
  end.

(** [totalLimit > 0 ? Math.round((totalUsed / totalLimit) * 100) : 0] *)
Definition percentUsed (totalUsed totalLimit : spec_float) : spec_float :=
  if SFltb Number_zero totalLimit
  then Math_round (Number_mul (Number_div totalUsed totalLimit) (binary64 100))
  else Number_zero.

Module Analysis.
Record t := {
  success : bool;
  errorMessage : option string;
  usageInfo : UsageInfo;
  summary : string
}.
End Analysis.

(** [a || b] on strings that may be missing. *)
Definition or_else (a b : option string) : option string :=
  if truthy_str a then a else b.

(** [_analyzeUsageHealth]; [numberText] is the part of the language's
    conversion of numbers to text that [Number_toString] leaves open. *)
Definition _analyzeUsageHealth (numberText : spec_float → string)
    (formattedUsage : Usage.Formatted) : Analysis.t :=
  let text := Number_toString numberText in
  let usageBreakdown := default [] (Usage.usageBreakdown formattedUsage) in
  let t := foldl addBreakdown
             {| totalUsed := Number_zero; totalLimit := Number_zero;
                hasActiveQuota := false |}
             usageBreakdown in
  let remaining := Number_sub (totalLimit t) (totalUsed t) in
  let usagePercent := percentUsed (totalUsed t) (totalLimit t) in
  let usageInfo :=
    {| used := totalUsed t;
       limit := totalLimit t;
       remaining := remaining;
       usagePercent := usagePercent;
       nextReset := Usage.nextDateReset formattedUsage;
       daysUntilReset := Usage.daysUntilReset formattedUsage;
       subscription :=
         or_else (Usage.subscription formattedUsage ≫= Usage.title)
                 (Usage.subscription formattedUsage ≫= Usage.type);
       email := Usage.user formattedUsage ≫= Usage.email |} in
  let isHealthy := hasActiveQuota t && SFltb Number_zero remaining in
  let quotaUsedUp :=
    "配额已用完 (" +:+ text (totalUsed t) +:+ "/" +:+ text (totalLimit t) +:+ ")" in
  {| Analysis.success := isHealthy;
     Analysis.errorMessage :=
       if isHealthy then None
       else if SFleb remaining Number_zero then Some quotaUsedUp
       else if negb (hasActiveQuota t) then Some "没有可用的活跃配额"
       else None;
     Analysis.usageInfo := usageInfo;
     Analysis.summary :=
       if isHealthy
       then text (totalUsed t) +:+ "/" +:+ text (totalLimit t) +:+ " (" +:+
            text usagePercent +:+ "% 已用, 剩余 " +:+ text remaining +:+ ")"
       else if SFleb remaining Number_zero then quotaUsedUp
       else if negb (hasActiveQuota t) then "没有可用的活跃配额"
       else "" |}.

(** The sub-buckets that contribute to the totals, as [(used, limit)] and
    in the order in which the loop adds them: the breakdown item itself,
    its free trial when ACTIVE and each of its ACTIVE bonuses. *)
Definition contributing (breakdown : Usage.Breakdown)
  : list (spec_float * spec_float) :=
  let bucket (b : Usage.Bucket) :=
    (or_zero (Usage.currentUsage b), or_zero (Usage.usageLimit b)) in
  (or_zero (Usage.baseUsage breakdown), or_zero (Usage.baseLimit breakdown))
  :: match Usage.freeTrial breakdown with
     | Some ft => if isActive ft then [bucket ft] else []
     | None => []
     end
  ++ map bucket (List.filter isActive (default [] (Usage.bonuses breakdown))).

Definition subBuckets (formattedUsage : Usage.Formatted)
  : list (spec_float * spec_float) :=
  concat (map contributing (default [] (Usage.usageBreakdown formattedUsage))).

(** A sub-bucket has active quota: [usageLimit > 0 && currentUsage < usageLimit]. *)
Definition activeQuota (b : spec_float * spec_float) : Prop :=
  SFltb Number_zero b.2 = true ∧ SFltb b.1 b.2 = true.

(** The totals after adding a list of sub-buckets, and the binary64 sum
    of one component of the sub-buckets, added from left to right
    starting with [0]. *)
Definition addBuckets (t : Totals) (bs : list (spec_float * spec_float)) : Totals :=
  foldl (λ t b, addBucket b.1 b.2 t) t bs.

Definition sumFrom (start : spec_float) (f : spec_float * spec_float → spec_float)
    (bs : list (spec_float * spec_float)) : spec_float :=
  foldl (λ acc b, Number_add acc (f b)) start bs.

Definition sumOf (f : spec_float * spec_float → spec_float)
    (bs : list (spec_float * spec_float)) : spec_float :=
  sumFrom Number_zero f bs.

(** ** The health probe engine *)

(** A thrown value, with its [message] when it has one. *)
Record Error := { message : option string }.

Module Chat.
Record Message := { role : string; content : string }.
End Chat.

Module Gemini.
Record Part := { text : string }.
Record Content := { role : string; parts : list Part }.
End Gemini.

(** A probe payload; a key that the payload does not have is [None]. *)
Record Request := {
  contents : option (list Gemini.Content);
  messages : option (list Chat.Message);
  input : option (list Chat.Message);
  model : option string;
  max_tokens : option Z
}.

(** Modelled from the spec: the constants [MODEL_PROVIDER.KIRO_API] and
    [MODEL_PROVIDER.OPENAI_CUSTOM_RESPONSES] of [common.js], which is not
    part of the sources; the spec names the Kiro family
    [claude-kiro-oauth] and the responses family [openaiResponses-custom]. *)
Module MODEL_PROVIDER.
Definition KIRO_API : string := "claude-kiro-oauth".
Definition OPENAI_CUSTOM_RESPONSES : string := "openaiResponses-custom".
End MODEL_PROVIDER.

Definition DEFAULT_HEALTH_CHECK_MODELS : gmap string string :=
  list_to_map
    [ ("gemini-cli-oauth", "gemini-2.5-flash");
      ("gemini-antigravity", "gemini-2.5-flash");
      ("openai-custom", "gpt-3.5-turbo");
      ("claude-custom", "claude-3-7-sonnet-20250219");
      ("claude-kiro-oauth", "claude-haiku-4-5");
      ("openai-qwen-oauth", "qwen3-coder-flash");
      ("openaiResponses-custom", "gpt-4o-mini") ].

Definition USAGE_BASED_HEALTH_CHECK_PROVIDERS : list string :=
  [ MODEL_PROVIDER.KIRO_API ].

Definition baseMessage : Chat.Message :=
  {| Chat.role := "user"; Chat.content := "Hi" |}.

(** [contents: [{ role: 'user', parts: [{ text: baseMessage.content }] }]] *)
Definition baseContents : list Gemini.Content :=
  [ {| Gemini.role := "user";
       Gemini.parts := [ {| Gemini.text := Chat.content baseMessage |} ] |} ].

(** [_buildHealthCheckRequests] *)
Definition _buildHealthCheckRequests (providerType modelName : string) : list Request :=
  if String.prefix "gemini" providerType then
    [ {| contents := Some baseContents; messages := None; input := None;
         model := None; max_tokens := None |} ]
  else if String.prefix "claude-kiro" providerType then
    [ {| contents := None; messages := Some [baseMessage]; input := None;
         model := Some modelName; max_tokens := Some 1 |};
      {| contents := Some baseContents; messages := None; input := None;
         model := None; max_tokens := Some 1 |} ]
  else if String.eqb providerType MODEL_PROVIDER.OPENAI_CUSTOM_RESPONSES then
    [ {| contents := None; messages := None; input := Some [baseMessage];
         model := Some modelName; max_tokens := None |} ]
  else
    [ {| contents := None; messages := Some [baseMessage]; input := None;
         model := Some modelName; max_tokens := None |} ].

(** The two payload shapes of the Kiro family, in the words of the
    specification: [{messages: [{role: "user", content: "Hi"}], model,
    max_tokens: 1}] and the Gemini-style contents payload with
    [max_tokens: 1]. *)
Definition kiroMessagesPayload (modelName : string) : Request :=
  {| contents := None;
     messages := Some [ {| Chat.role := "user"; Chat.content := "Hi" |} ];
     input := None; model := Some modelName; max_tokens := Some 1 |}.

Definition kiroContentsPayload : Request :=
  {| contents :=
       Some [ {| Gemini.role := "user"; Gemini.parts := [ {| Gemini.text := "Hi" |} ] |} ];
     messages := None; input := None; model := None; max_tokens := Some 1 |}.

(** The result object of a probe. *)
Module Result.
Record t := {
  success : bool;
  modelName : option string;
  errorMessage : option string;
  usageInfo : option UsageInfo
}.
End Result.

(** The configuration handed to [getServiceAdapter]:
    [{ ...providerConfig, MODEL_PROVIDER: providerType }] and the proxy
    settings copied from the global configuration. *)
Record TempConfig := {
  providerConfig : Config;
  tempModelProvider : string;
  proxy : gmap string JSON
}.

Definition proxyKeys : list string := ["GEMINI"; "OPENAI"; "CLAUDE"; "QWEN"; "KIRO"].

Definition proxySettings (globalConfig : gmap string JSON) : gmap string JSON :=
  foldl (λ acc key,
           let proxyKey := "USE_SYSTEM_PROXY_" +:+ key in
           match globalConfig !! proxyKey with
           | Some v => <[proxyKey := v]> acc
           | None => acc
           end) ∅ proxyKeys.

(** The capabilities of a service adapter.  A call acts on the world
    outside the manager and returns or throws. *)
Record Adapter (World RawUsage : Type) := {
  generateContent : string → Request → World → (Error + unit) * World;
  getUsageLimits : option (World → (Error + RawUsage) * World);
  forceRefreshToken : option (World → (Error + unit) * World);
  refreshToken : option (World → (Error + unit) * World)
}.
Arguments generateContent {World RawUsage}.
Arguments getUsageLimits {World RawUsage}.
Arguments forceRefreshToken {World RawUsage}.
Arguments refreshToken {World RawUsage}.

(** What the manager imports from [adapter.js] and [usage-service.js],
    which are not part of the sources, and the text that the language
    gives to a number that is not a small integer (see
    [Number_toString]). *)
Class Externals := {
  World : Type;
  RawUsage : Type;
  clearServiceInstance : string → option string → World → World;
  getServiceAdapter : TempConfig → World → (Error + Adapter World RawUsage) * World;
  formatKiroUsage : RawUsage → Error + option Usage.Formatted;
  numberText : spec_float → string
}.

(** The calls that leave the manager. *)
Inductive Call :=
  | ClearServiceInstance (providerType : string) (uuid : option string)
  | GetServiceAdapter (providerType : string)
  | ForceRefreshToken
  | RefreshToken
  | GetUsageLimits
  | GenerateContent (modelName : string) (request : Request).

Section Probe.
Context `{Externals}.

(** The state a probe runs in: the manager, the world outside and the
    calls made so far. *)
Record St := { mgr : Manager; world : World; trace : list Call }.

Definition Probe (A : Type) : Type := St → A * St.

#[export] Instance probe_ret : MRet Probe := λ A x s, (x, s).
#[export] Instance probe_bind : MBind Probe :=
  λ A B f c s, let '(x, s) := c s in f x s.

Definition call {A} (c : Call) (f : World → A * World) : Probe A :=
  λ s, let '(x, w) := f (world s) in
       (x, {| mgr := mgr s; world := w; trace := trace s ++ [c] |}).

Definition getManager : Probe Manager := λ s, (mgr s, s).

Definition modifyManager (f : Manager → Manager) : Probe unit :=
  λ s, (tt, {| mgr := f (mgr s); world := world s; trace := trace s |}).

(** The update of Mode A: the snapshot and the time of the check are
    cached on the entry. *)
Definition cacheUsageInfo (providerType : string) (u : option string)
    (info : UsageInfo) (now : Date) (m : Manager) : Manager :=
  match _findProvider m providerType u with
  | Some (i, c) =>
      setEntry providerType i
        (set_lastHealthCheckTime (Some (toISOString now))
           (set_usageInfo (Some info) c)) m
  | None => m
  end.

(** The refresh before the quota query; a failure is only logged. *)
Definition refreshBeforeUsage (serviceAdapter : Adapter World RawUsage) : Probe unit :=
  match forceRefreshToken serviceAdapter with
  | Some f => _ ← call ForceRefreshToken f; mret tt
  | None =>
      match refreshToken serviceAdapter with
      | Some f => _ ← call RefreshToken f; mret tt
      | None => mret tt
      end
  end.

(** [_checkProviderHealthByUsage] (Mode A); [None] is [null]. *)
Definition _checkProviderHealthByUsage (providerType : string)
    (serviceAdapter : Adapter World RawUsage) (providerConfig : Config) (now : Date)
  : Probe (option Result.t) :=
  match getUsageLimits serviceAdapter with
  | None => mret None
  | Some getUsage =>
      _ ← refreshBeforeUsage serviceAdapter;
      rawUsageData ← call GetUsageLimits getUsage;
      match rawUsageData with
      | inl _ => mret None
      | inr rawUsageData =>
          if negb (String.eqb providerType MODEL_PROVIDER.KIRO_API) then mret None
          else
            match formatKiroUsage rawUsageData with
            | inl _ => mret None
            | inr None =>
                mret (Some {| Result.success := false;
                              Result.modelName := None;
                              Result.errorMessage := Some "Failed to parse usage data";
                              Result.usageInfo := None |})
            | inr (Some formattedUsage) =>
                let healthAnalysis := _analyzeUsageHealth numberText formattedUsage in
                _ ← modifyManager
                      (cacheUsageInfo providerType (uuid providerConfig)
                         (Analysis.usageInfo healthAnalysis) now);
                mret (Some {| Result.success := Analysis.success healthAnalysis;
                              Result.modelName := None;
                              Result.errorMessage :=
                                if Analysis.success healthAnalysis then None
                                else Analysis.errorMessage healthAnalysis;
                              Result.usageInfo :=
                                Some (Analysis.usageInfo healthAnalysis) |})
            end
      end
  end.

(** The retry loop of Mode B over the payload shapes. *)
Fixpoint tryRequests (serviceAdapter : Adapter World RawUsage) (modelName : string)
    (healthCheckRequests : list Request) (lastError : option Error) : Probe Result.t :=
  match healthCheckRequests with
  | [] =>
      mret {| Result.success := false;
              Result.modelName := Some modelName;
              Result.errorMessage :=
                or_else (lastError ≫= message)
                        (Some "All health check attempts failed");
              Result.usageInfo := None |}
  | healthCheckRequest :: requests =>
      r ← call (GenerateContent modelName healthCheckRequest)
             (generateContent serviceAdapter modelName healthCheckRequest);
      match r with
      | inr _ =>
          mret {| Result.success := true;
                  Result.modelName := Some modelName;
                  Result.errorMessage := None;
                  Result.usageInfo := None |}
      | inl error => tryRequests serviceAdapter modelName requests (Some error)
      end
  end.

(** Mode B: the chat-send probe. *)
Definition chatSendProbe (providerType : string)
    (serviceAdapter : Adapter World RawUsage) (modelName : option string)
  : Probe Result.t :=
  match modelName with
  | None =>
      mret {| Result.success := false;
              Result.modelName := None;
              Result.errorMessage := Some "Unknown provider type for health check";
              Result.usageInfo := None |}
  | Some modelName =>
      tryRequests serviceAdapter modelName
        (_buildHealthCheckRequests providerType modelName) None
  end.

(** [providerConfig.checkModelName || DEFAULT_HEALTH_CHECK_MODELS[providerType]] *)
Definition checkModel (providerType : string) (providerConfig : Config) : option string :=
  match checkModelName providerConfig with
  | Some s => Some s
  | None => DEFAULT_HEALTH_CHECK_MODELS !! providerType
  end.

(** [_checkProviderHealth]: [inl] when acquiring the adapter throws,
    [inr None] for [null]. *)
Definition _checkProviderHealth (providerType : string) (providerConfig : Config)
    (forceCheck : bool) (now : Date) : Probe (Error + option Result.t) :=
  let modelName := checkModel providerType providerConfig in
  if negb (checkHealth providerConfig) && negb forceCheck then mret (inr None)
  else
    m ← getManager;
    let tempConfig :=
      {| providerConfig := providerConfig;
         tempModelProvider := providerType;
         proxy := proxySettings (globalConfig m) |} in
    _ ← call (ClearServiceInstance providerType (uuid providerConfig))
           (λ w, (tt, clearServiceInstance providerType (uuid providerConfig) w));
    a ← call (GetServiceAdapter providerType) (getServiceAdapter tempConfig);
    match a with
    | inl error => mret (inl error)
    | inr serviceAdapter =>
        usageResult ←
          (if bool_decide (providerType ∈ USAGE_BASED_HEALTH_CHECK_PROVIDERS)
           then _checkProviderHealthByUsage providerType serviceAdapter providerConfig now
           else mret None);
        match usageResult with
        | Some r => mret (inr (Some r))
        | None => r ← chatSendProbe providerType serviceAdapter modelName; mret (inr (Some r))
        end
    end.

(** *** Completion of a probe *)

(** The skip test of [performHealthChecks]. *)
Definition lastErrorTooRecent (parseDate : string → option Z) (interval : Z)
    (now : Date) (c : Config) : bool :=
  negb (isHealthy c) && truthy_str (lastErrorTime c) &&
  match lastErrorTime c ≫= parseDate with
  | Some t => getTime now - t <? interval
  | None => false
  end.

(** What [performHealthChecks] does with the outcome of the probe of
    entry [i]; [t1], [t2] are the clock readings. *)
Definition healthCheckCompletion (providerType : string) (i : nat)
    (outcome : Error + option Result.t) (t1 t2 : Date) (m : Manager) : Manager :=
  match pool m providerType !! i with
  | None => m
  | Some providerConfig =>
      match outcome with
      | inl error =>
          markProviderUnhealthy providerType (Some providerConfig) (message error) t1 m
      | inr None => resetProviderCounters providerType (Some providerConfig) m
      | inr (Some healthResult) =>
          if Result.success healthResult
          then markProviderHealthy providerType (Some providerConfig) true
                 (Result.modelName healthResult) t1 t2 m
          else
            let m := markProviderUnhealthy providerType (Some providerConfig)
                       (Result.errorMessage healthResult) t1 m in
            match pool m providerType !! i with
            | None => m
            | Some c =>
                let c := set_lastHealthCheckTime (Some (toISOString t2)) c in
                let c := if truthy_str (Result.modelName healthResult)
                         then set_lastHealthCheckModel (Result.modelName healthResult) c
                         else c in
                setEntry providerType i c m
            end
      end
  end.

(** The body of the loop of [performHealthChecks] for entry [i]. *)
Definition healthCheckEntry (parseDate : string → option Z) (providerType : string)
    (i : nat) (now tProbe t1 t2 : Date) : Probe unit :=
  m ← getManager;
  match pool m providerType !! i with
  | None => mret tt
  | Some providerConfig =>
      if lastErrorTooRecent parseDate (healthCheckInterval m) now providerConfig
      then mret tt
      else
        outcome ← _checkProviderHealth providerType providerConfig false tProbe;
        modifyManager (healthCheckCompletion providerType i outcome t1 t2)
  end.

(** What [_tryRecoverProvider] does with the outcome of its probe. *)
Definition recoverCompletion (providerType : string) (providerConfig : Config)
    (outcome : Error + option Result.t) (t1 t2 : Date) (m : Manager) : Manager :=
  match outcome with
  | inl _ | inr None => m
  | inr (Some healthResult) =>
      if Result.success healthResult
      then markProviderHealthy providerType (Some providerConfig) false
             (Result.modelName healthResult) t1 t2 m
      else
        match _findProvider m providerType (uuid providerConfig) with
        | None => m
        | Some (i, c) =>
            let c := set_lastErrorMessage (Result.errorMessage healthResult) c in
            let c := set_lastHealthCheckTime (Some (toISOString t1)) c in
            let c := if truthy_str (Result.modelName healthResult)
                     then set_lastHealthCheckModel (Result.modelName healthResult) c
                     else c in
            _debouncedSave providerType (setEntry providerType i c m)
        end
  end.

(** [_tryRecoverProvider] *)
Definition _tryRecoverProvider (providerType : string) (providerConfig : Config)
    (tProbe t1 t2 : Date) : Probe unit :=
  outcome ← _checkProviderHealth providerType providerConfig true tProbe;
  modifyManager (recoverCompletion providerType providerConfig outcome t1 t2).

End Probe.

(** *** States of a probe *)

Section ProbeStates.
Context `{Externals}.

(** The state after the adapter was acquired in world [w]. *)
Definition acquired (providerType : string) (u : option string) (w : World) (s : St) : St :=
  {| mgr := mgr s; world := w;
     trace := trace s ++ [ClearServiceInstance providerType u;
                          GetServiceAdapter providerType] |}.

(** The state after a call [c] of the adapter that left the world [w]. *)
Definition called (c : Call) (w : World) (s : St) : St :=
  {| mgr := mgr s; world := w; trace := trace s ++ [c] |}.

(** The result of a successful chat-send probe. *)
Definition probeSucceeded (modelName : string) : Result.t :=
  {| Result.success := true; Result.modelName := Some modelName;
     Result.errorMessage := None; Result.usageInfo := None |}.

End ProbeStates.

(** ** Reachable states *)

(** Entry [i] of the family is the entry that a configuration with the
    uuid of [c] designates: the family name and the uuid are non-empty and
    no earlier entry of the family has the same uuid. *)
Definition designated (m : Manager) (providerType : string) (i : nat) (c : Config) : Prop :=
  providerType ≠ "" ∧
  pool m providerType !! i = Some c ∧
  truthy_str (uuid c) = true ∧
  ∀ j c', (j < i)%nat → pool m providerType !! j = Some c' → uuid c' ≠ uuid c.

(** The health invariant of an entry and of the pool. *)
Definition dated (c : Config) : Prop :=
  isHealthy c = false → lastErrorTime c ≠ None.

Definition HealthInv (m : Manager) : Prop :=
  ∀ providerType l, providerStatus m !! providerType = Some l → Forall dated l.

(** The same on an entry of the document: an entry stored as unhealthy
    has a non-empty [lastErrorTime]. *)
Definition docDated (e : Doc.Entry) : Prop :=
  Doc.isHealthy e = Some false →
  truthy_str (default None (Doc.lastErrorTime e)) = true.

Definition DocHealthInv (doc : Document) : Prop :=
  ∀ providerType l, doc !! providerType = Some l → Forall docDated l.

(** One operation of the manager.  Probes complete with any outcome. *)
Inductive step (parseDate : string → option Z) : Manager → Manager → Prop :=
  | step_select providerType requestedModel skip now usedAt m :
      step parseDate m
        (selectProvider parseDate providerType requestedModel skip now usedAt m).1.1
  | step_markUnhealthy providerType providerConfig errorMessage now m :
      step parseDate m (markProviderUnhealthy providerType providerConfig errorMessage now m)
  | step_markHealthy providerType providerConfig reset model now usedAt m :
      step parseDate m
        (markProviderHealthy providerType providerConfig reset model now usedAt m)
  | step_resetCounters providerType providerConfig m :
      step parseDate m (resetProviderCounters providerType providerConfig m)
  | step_disable providerType providerConfig m :
      step parseDate m (disableProvider providerType providerConfig m)
  | step_enable providerType providerConfig m :
      step parseDate m (enableProvider providerType providerConfig m)
  | step_cacheUsageInfo providerType u info now m :
      step parseDate m (cacheUsageInfo providerType u info now m)
  | step_healthCheckCompletion providerType i outcome t1 t2 m :
      step parseDate m (healthCheckCompletion providerType i outcome t1 t2 m)
  | step_recoverCompletion providerType providerConfig outcome t1 t2 m :
      step parseDate m (recoverCompletion providerType providerConfig outcome t1 t2 m)
  | step_flush read m :
      step parseDate m (_flushPendingSaves read m).1.

(** ** Concrete pools for the examples *)

Definition entryNamed (u : string) : Doc.Entry :=
  {| Doc.isHealthy := None; Doc.isDisabled := None; Doc.lastUsed := None;
     Doc.usageCount := None; Doc.errorCount := None; Doc.lastErrorTime := None;
     Doc.lastHealthCheckTime := None; Doc.lastHealthCheckModel := None;
     Doc.lastErrorMessage := None; Doc.usageInfo := None;
     Doc.rest := {[ "uuid" := JStr u ]} |}.

Definition noOptions : Options :=
  {| opt_maxErrorCount := None; opt_healthCheckInterval := None;
     opt_globalConfig := None |}.

Definition twoEntryDoc : Document :=
  {[ "openai-custom" := [entryNamed "A"; entryNamed "B"] ]}.

Definition twoEntryPool : Manager := initializeProviderStatus twoEntryDoc noOptions.

Definition noon : Date := {| getTime := 1767268800000; toISOString := "2026-01-01T12:00:00.000Z" |}.
Definition later : Date := {| getTime := 1767268801000; toISOString := "2026-01-01T12:00:01.000Z" |}.

(** A date parser for the examples: it knows the two dates above. *)
Definition parseExample (s : string) : option Z :=
  if String.eqb s (toISOString noon) then Some (getTime noon)
  else if String.eqb s (toISOString later) then Some (getTime later)
  else None.

(** The second entry marked unhealthy after a timeout. *)
Definition unhealthyB : Config :=
  set_lastErrorMessage (Some "timeout")
    (set_lastErrorTime (Some (toISOString noon))
       (set_isHealthy false (initializeEntry (entryNamed "B")))).

Definition poolWithUnhealthyB : Manager :=
  setEntry "openai-custom" 1 unhealthyB twoEntryPool.

(** The two-entry pool with an index left over from a longer candidate
    list. *)
Definition staleIndexPool : Manager :=
  set_roundRobinIndex (<[ "openai-custom" := 7%nat ]> (roundRobinIndex twoEntryPool))
    twoEntryPool.

(** The two-entry pool after a mutation of the family was scheduled for
    saving. *)
Definition dirtyPool : Manager := _debouncedSave "openai-custom" twoEntryPool.

(** An entry with all managed fields, as the import script writes it
    (with [usageInfo] added), and an unknown key [_comment]. *)
Definition completeEntry (u : string) : Doc.Entry :=
  {| Doc.isHealthy := Some true; Doc.isDisabled := Some false;
     Doc.lastUsed := Some None; Doc.usageCount := Some 0; Doc.errorCount := Some 0;
     Doc.lastErrorTime := Some None; Doc.lastHealthCheckTime := Some None;
     Doc.lastHealthCheckModel := Some None; Doc.lastErrorMessage := Some None;
     Doc.usageInfo := Some None;
     Doc.rest := {[ "uuid" := JStr u; "_comment" := JStr "added by hand" ]} |}.

Definition completeDoc : Document :=
  {[ "openai-custom" := [completeEntry "A"; completeEntry "B"] ]}.

(** The snapshot of the quota-exhaustion scenario:
    [usageBreakdown = [{currentUsage: 100, usageLimit: 100}]]. *)
Definition exhaustedUsage : Usage.Formatted :=
  {| Usage.usageBreakdown :=
       Some [ {| Usage.baseUsage := Some (binary64 100);
                 Usage.baseLimit := Some (binary64 100);
                 Usage.freeTrial := None; Usage.bonuses := None |} ];
     Usage.nextDateReset := None; Usage.daysUntilReset := None;
     Usage.subscription := None; Usage.user := None |}.

(** Three breakdown items whose usage does not add up exactly in
    binary64: [2^53] used of [2^53 + 2], and twice [1] used of [0]; and
    the same items with the large one last. *)
Definition plainItem (used limit : Z) : Usage.Breakdown :=
  {| Usage.baseUsage := Some (binary64 used); Usage.baseLimit := Some (binary64 limit);
     Usage.freeTrial := None; Usage.bonuses := None |}.

Definition largeFirstUsage : Usage.Formatted :=
  {| Usage.usageBreakdown :=
       Some [ plainItem (2 ^ 53) (2 ^ 53 + 2); plainItem 1 0; plainItem 1 0 ];
     Usage.nextDateReset := None; Usage.daysUntilReset := None;
     Usage.subscription := None; Usage.user := None |}.

Definition largeLastUsage : Usage.Formatted :=
  {| Usage.usageBreakdown :=
       Some [ plainItem 1 0; plainItem 1 0; plainItem (2 ^ 53) (2 ^ 53 + 2) ];
     Usage.nextDateReset := None; Usage.daysUntilReset := None;
     Usage.subscription := None; Usage.user := None |}.

(** A usage report with half a unit used of one and a half. *)
Definition fractionalUsage : Usage.Formatted :=
  {| Usage.usageBreakdown :=
       Some [ {| Usage.baseUsage := Some (Number_div (binary64 1) (binary64 2));
                 Usage.baseLimit := Some (Number_div (binary64 3) (binary64 2));
                 Usage.freeTrial := None; Usage.bonuses := None |} ];
     Usage.nextDateReset := None; Usage.daysUntilReset := None;
     Usage.subscription := None; Usage.user := None |}.

(** An adapter whose world is the list of outcomes of the coming calls of
    [generateContent] and whose quota query throws. *)
Definition scriptedAdapter : Adapter (list (Error + unit)) unit :=
  {| generateContent := λ _ _ w,
       match w with
       | r :: w => (r, w)
       | [] => (inr tt, [])
       end;
     getUsageLimits := Some (λ w, (inl {| message := Some "usage limits unavailable" |}, w));
     forceRefreshToken := None;
     refreshToken := None |}.

Definition scriptedExternals : Externals :=
  {| World := list (Error + unit);
     RawUsage := unit;
     clearServiceInstance := λ _ _ w, w;
     getServiceAdapter := λ _ w, (inr scriptedAdapter, w);
     formatKiroUsage := λ _, inr None;
     numberText := λ _, "" |}.

(** A Kiro entry with health checks enabled and no [checkModelName]. *)
Definition kiroEntry : Config :=
  initializeEntry
    {| Doc.isHealthy := None; Doc.isDisabled := None; Doc.lastUsed := None;
       Doc.usageCount := None; Doc.errorCount := None; Doc.lastErrorTime := None;
       Doc.lastHealthCheckTime := None; Doc.lastHealthCheckModel := None;
       Doc.lastErrorMessage := None; Doc.usageInfo := None;
       Doc.rest := {[ "uuid" := JStr "K"; "checkHealth" := JBool true ]} |}.

Definition kiroPool : Manager :=
  initializeProviderStatus
    {[ "claude-kiro-oauth" :=
         [ {| Doc.isHealthy := None; Doc.isDisabled := None; Doc.lastUsed := None;
              Doc.usageCount := None; Doc.errorCount := None;
              Doc.lastErrorTime := None; Doc.lastHealthCheckTime := None;
              Doc.lastHealthCheckModel := None; Doc.lastErrorMessage := None;
              Doc.usageInfo := None;
              Doc.rest := {[ "uuid" := JStr "K"; "checkHealth" := JBool true ]} |} ] ]}
    noOptions.

(** The first call of [generateContent] will throw, the second succeed. *)
Definition firstShapeRejected : @St scriptedExternals :=
  @Build_St scriptedExternals kiroPool
    [inl {| message := Some "messages not supported" |}; inr tt] [].

(** A document with an entry stored as unhealthy without an error time. *)
Definition undatedDoc : Document :=
  {[ "claude-custom" :=
       [ {| Doc.isHealthy := Some false; Doc.isDisabled := None; Doc.lastUsed := None;
            Doc.usageCount := None; Doc.errorCount := None; Doc.lastErrorTime := None;
            Doc.lastHealthCheckTime := None; Doc.lastHealthCheckModel := None;
            Doc.lastErrorMessage := None; Doc.usageInfo := None;
            Doc.rest := {[ "uuid" := JStr "X" ]} |} ] ]}.

(** The fresh two-entry pool after one selection. *)
Definition afterOneSelection : Manager :=
  (selectProvider parseExample "openai-custom" None false noon later twoEntryPool).1.1.

(** Five calls of [select("openai-custom")] with default options. *)
Definition fiveCalls : list SelectCall :=
  replicate 5 {| skipUsageCount := false; now := noon; usedAt := later |}.

(** A document with an entry stored as unhealthy with its error time. *)
Definition datedDoc : Document :=
  {[ "claude-custom" :=
       [ {| Doc.isHealthy := Some false; Doc.isDisabled := None; Doc.lastUsed := None;
            Doc.usageCount := None; Doc.errorCount := Some 3;
            Doc.lastErrorTime := Some (Some "2026-01-01T12:00:00.000Z");
            Doc.lastHealthCheckTime := None; Doc.lastHealthCheckModel := None;
            Doc.lastErrorMessage := Some (Some "timeout"); Doc.usageInfo := None;
            Doc.rest := {[ "uuid" := JStr "X" ]} |} ] ]}.

(** ** Notions used to state further properties of selection *)

(** Entry [c] may be selected for [requestedModel]: it is not disabled
    and, when a model is requested, does not exclude it. *)
Definition eligible (requestedModel : option string) (c : Config) : Prop :=
  isDisabled c = false ∧
  (truthy_str requestedModel = true →
   supportsModel (default "" requestedModel) c = true).

(** What the recovery sweep over [enabled] makes of entry [j]. *)
Definition sweptEntry (parseDate : string → option Z) (interval : Z) (now : Date)
    (enabled : list nat) (j : nat) (c : Config) : Config :=
  if bool_decide (j ∈ enabled) && recoveryDue parseDate interval now c
  then set_lastErrorTime (Some (toISOString now)) c
  else c.


(** ** A pool with a disabled entry and an entry that excludes a model *)

Definition mixedDoc : Document :=
  {[ "openai-custom" :=
       [ {| Doc.isHealthy := None; Doc.isDisabled := Some true; Doc.lastUsed := None;
            Doc.usageCount := None; Doc.errorCount := None; Doc.lastErrorTime := None;
            Doc.lastHealthCheckTime := None; Doc.lastHealthCheckModel := None;
            Doc.lastErrorMessage := None; Doc.usageInfo := None;
            Doc.rest := {[ "uuid" := JStr "A" ]} |};
         {| Doc.isHealthy := None; Doc.isDisabled := None; Doc.lastUsed := None;
            Doc.usageCount := None; Doc.errorCount := None; Doc.lastErrorTime := None;
            Doc.lastHealthCheckTime := None; Doc.lastHealthCheckModel := None;
            Doc.lastErrorMessage := None; Doc.usageInfo := None;
            Doc.rest := {[ "uuid" := JStr "B";
                           "notSupportedModels" := JArr [JStr "gpt-4o"] ]} |};
         entryNamed "C" ] ]}.

Definition mixedPool : Manager := initializeProviderStatus mixedDoc noOptions.


(** The two-entry pool with a recovery interval of half a second and the
    second entry unhealthy since [noon]. *)
Definition quickRecoveryPool : Manager :=
  setEntry "openai-custom" 1 unhealthyB
    (initializeProviderStatus twoEntryDoc
       {| opt_maxErrorCount := None; opt_healthCheckInterval := Some 500;
          opt_globalConfig := None |}).

(** ** Repeated error reports *)

(** [markProviderUnhealthy] called once for each report (message and
    clock reading), in order. *)
Definition markUnhealthyMany (providerType : string) (providerConfig : option Config)
    (reports : list (option string * Date)) (m : Manager) : Manager :=
  foldl (λ m r, markProviderUnhealthy providerType providerConfig r.1 r.2 m) m reports.


(** Three error reports with the message [timeout]. *)
Definition threeTimeouts : list (option string * Date) :=
  [(Some "timeout", noon); (Some "timeout", noon); (Some "timeout", later)].


(** ** Elementary updates of the manager *)

(** Every operation is a sequence of these: replacing the list of a known
    family by one whose entries have the same unmanaged keys, scheduling a
    known family for saving, storing round-robin indices, and clearing the
    pending set at the start of a flush. *)
Inductive touches : Manager → Manager → Prop :=
  | touches_refl m : touches m m
  | touches_trans m1 m2 m3 : touches m1 m2 → touches m2 m3 → touches m1 m3
  | touches_pool m providerType l l' :
      providerStatus m !! providerType = Some l →
      rest <$> l' = rest <$> l →
      touches m (set_providerStatus (<[providerType := l']> (providerStatus m)) m)
  | touches_save m providerType :
      is_Some (providerStatus m !! providerType) →
      touches m (_debouncedSave providerType m)
  | touches_index m v : touches m (set_roundRobinIndex v m)
  | touches_flush m : touches m (flushBegin m).2.

(** The bookkeeping of pending saves: a family is pending at most once,
    only families of the pool are pending, and while a family is pending
    the save timer is armed. *)
Definition SaveInv (m : Manager) : Prop :=
  NoDup (pendingSaves m) ∧
  (∀ providerType, providerType ∈ pendingSaves m →
     is_Some (providerStatus m !! providerType)) ∧
  (pendingSaves m ≠ [] → saveTimer m = true).

(** Two states have the same families with the same number of entries,
    the same unmanaged keys in each entry, and the same settings. *)
Definition sameConfiguration (m m' : Manager) : Prop :=
  fmap (M := list) rest <$> providerStatus m' =
    fmap (M := list) rest <$> providerStatus m ∧
  maxErrorCount m' = maxErrorCount m ∧
  healthCheckInterval m' = healthCheckInterval m ∧
  globalConfig m' = globalConfig m.




(** ** The calls of a probe *)

(** The requests that the chat-send probe of an entry may send, in
    order. *)
Definition probeRequests (providerType : string) (providerConfig : Config) : list Call :=
  match checkModel providerType providerConfig with
  | Some modelName =>
      GenerateContent modelName <$> _buildHealthCheckRequests providerType modelName
  | None => []
  end.

(** The calls that the usage-based probe may make, in order. *)
Definition usageCalls : list (list Call) :=
  [ []; [GetUsageLimits]; [ForceRefreshToken; GetUsageLimits];
    [RefreshToken; GetUsageLimits] ].


(** The pool with the unhealthy entry B, no outcome scripted and no call
    made yet. *)
Definition idleState : @St scriptedExternals :=
  @Build_St scriptedExternals poolWithUnhealthyB [] [].

(** Two hours after [noon]. *)
Definition afternoon : Date :=
  {| getTime := 1767276000000; toISOString := "2026-01-01T14:00:00.000Z" |}.


(** An adapter whose quota query returns the exhausted quota and which
    can refresh its token; its world counts the calls. *)
Definition quotaAdapter : Adapter nat Usage.Formatted :=
  {| generateContent := λ _ _ w, (inr tt, S w);
     getUsageLimits := Some (λ w, (inr exhaustedUsage, S w));
     forceRefreshToken := None;
     refreshToken := Some (λ w, (inr tt, S w)) |}.

Definition quotaExternals : Externals :=
  {| World := nat;
     RawUsage := Usage.Formatted;
     clearServiceInstance := λ _ _ w, w;
     getServiceAdapter := λ _ w, (inr quotaAdapter, w);
     formatKiroUsage := λ raw, inr (Some raw);
     numberText := λ _, "" |}.

Definition quotaState : @St quotaExternals := @Build_St quotaExternals kiroPool 0%nat [].


(** A health-check request carries exactly one payload: the Gemini
    contents without a model, or the chat message as [messages] or as
    [input] together with the model. *)
Definition wellFormedRequest (modelName : string) (r : Request) : Prop :=
  match contents r, messages r, input r with
  | Some cs, None, None => cs = baseContents ∧ model r = None
  | None, Some ms, None => ms = [baseMessage] ∧ model r = Some modelName
  | None, None, Some ms => ms = [baseMessage] ∧ model r = Some modelName
  | _, _, _ => False
  end.


(** ** Network errors (the utility module) *)

(** [String.prototype.includes]: some suffix of [s] starts with [sub].
    The identifiers searched for are ASCII, for which the search over the
    bytes of the UTF-8 text finds what the search over code units finds. *)
Fixpoint String_includes (s sub : string) : bool :=
  String.prefix sub s ||
  match s with
  | EmptyString => false
  | String _ s' => String_includes s' sub
  end.

Module Net.
(** An error object as [isRetryableNetworkError] reads it: its [code] and
    its [message], strings when present. *)
Record Error := { code : option string; message : option string }.
End Net.

Definition RETRYABLE_NETWORK_ERRORS : list string :=
  [ "ECONNRESET"; "ETIMEDOUT"; "ECONNREFUSED"; "ENOTFOUND"; "ENETUNREACH";
    "EHOSTUNREACH"; "EPIPE"; "EAI_AGAIN"; "ECONNABORTED"; "ESOCKETTIMEDOUT" ].

(** [isRetryableNetworkError]; [None] is a null or undefined error. *)
Definition isRetryableNetworkError (error : option Net.Error) : bool :=
  match error with
  | None => false
  | Some error =>
      let errorCode := default "" (or_null (Net.code error)) in
      let errorMessage := default "" (or_null (Net.message error)) in
      existsb (λ errId, String.eqb errorCode errId || String_includes errorMessage errId)
        RETRYABLE_NETWORK_ERRORS
  end.


(** ** The Kiro scripts *)

(** *** Cleaning *)

(** The second step of the cleaning script on the parsed pools file: the
    document written back ([None] when nothing is written) and the number
    of cleared entries. *)
Definition cleanPools (pools : Document) : option Document * nat :=
  match pools !! "claude-kiro-oauth" with
  | Some l =>
      if (0 <? length l)%nat
      then (Some (<["claude-kiro-oauth" := []]> pools), length l)
      else (None, 0%nat)
  | None => (None, 0%nat)
  end.

(** *** Generating a pool from tokens *)

(** A token object of the input file, with the fields that the pool entry
    is made from; strings when present. *)
Module Token.
Record t := {
  refreshToken : option string;
  email : option string;
  id : option string;
  addedAt : option string
}.
End Token.

(** [/[a-zA-Z0-9]/] on a character. *)
Definition isAlphaNum (a : Ascii.ascii) : bool :=
  let n := Ascii.nat_of_ascii a in
  (Nat.leb 48 n && Nat.leb n 57) || (Nat.leb 65 n && Nat.leb n 90) ||
  (Nat.leb 97 n && Nat.leb n 122).

(** The characters [@] and [-]. *)
Definition atSign : Ascii.ascii := Ascii.ascii_of_nat 64.
Definition hyphen : Ascii.ascii := Ascii.ascii_of_nat 45.

(** [email.split('@')[0]] *)
Fixpoint beforeAt (s : string) : string :=
  match s with
  | EmptyString => EmptyString
  | String a s' => if Ascii.eqb a atSign then EmptyString else String a (beforeAt s')
  end.

(** [.replace(/[^a-zA-Z0-9]/g, '-')] on ASCII text. *)
Fixpoint replaceSpecial (s : string) : string :=
  match s with
  | EmptyString => EmptyString
  | String a s' => String (if isAlphaNum a then a else hyphen) (replaceSpecial s')
  end.

(** [generateSafeFilename]; the e-mail address is ASCII text. *)
Definition generateSafeFilename (email : option string) (index : nat) : string :=
  if negb (truthy_str email) then "kiro-" +:+ pretty (index + 1)%nat
  else
    let username := replaceSpecial (beforeAt (default "" email)) in
    "kiro-" +:+ username.

(** [generatePoolEntry]; [now] is the reading of [Date.now()]. *)
Definition generatePoolEntry (credFilePath : string) (token : Token.t) (index : nat)
    (now : Z) : Doc.Entry :=
  let email :=
    default ("unknown-" +:+ pretty (index + 1)%nat) (or_null (Token.email token)) in
  {| Doc.isHealthy := Some true;
     Doc.isDisabled := Some false;
     Doc.lastUsed := Some None;
     Doc.usageCount := Some 0;
     Doc.errorCount := Some 0;
     Doc.lastErrorTime := Some None;
     Doc.lastHealthCheckTime := Some None;
     Doc.lastHealthCheckModel := Some None;
     Doc.lastErrorMessage := Some None;
     Doc.usageInfo := None;
     Doc.rest :=
       {[ "KIRO_OAUTH_CREDS_FILE_PATH" := JStr credFilePath;
          "uuid" :=
            JStr (default ("kiro-" +:+ pretty now +:+ "-" +:+ pretty index)
                    (or_null (Token.id token)));
          "_comment" :=
            JStr ("Email: " +:+ email +:+ " | Added: " +:+
                  default "unknown" (or_null (Token.addedAt token)));
          "checkModelName" := JStr "claude-haiku-4-5";
          "checkHealth" := JBool true ]} |}.

(** The loop of [main] over the tokens from position [i] on: a token
    without [refreshToken] is skipped.  [pathJoin] is [path.join] and
    [clock i] the reading of [Date.now()] in iteration [i]. *)
Fixpoint poolEntriesFrom (pathJoin : string → string → string) (outputDir : string)
    (clock : nat → Z) (i : nat) (tokens : list Token.t) : list Doc.Entry :=
  match tokens with
  | [] => []
  | token :: tokens =>
      if negb (truthy_str (Token.refreshToken token))
      then poolEntriesFrom pathJoin outputDir clock (S i) tokens
      else
        let filename := generateSafeFilename (Token.email token) i in
        let credFilePath := pathJoin outputDir (filename +:+ ".json") in
        generatePoolEntry credFilePath token i (clock i)
        :: poolEntriesFrom pathJoin outputDir clock (S i) tokens
  end.

(** [poolsContent], the document that [main] writes. *)
Definition poolsContent (pathJoin : string → string → string) (outputDir : string)
    (clock : nat → Z) (tokens : list Token.t) : Document :=
  {[ "claude-kiro-oauth" := poolEntriesFrom pathJoin outputDir clock 0 tokens ]}.

(** An entry of the document with [usageInfo: null] added or put in the
    place of its usage snapshot. *)
Definition withUsageInfoNull (e : Doc.Entry) : Doc.Entry :=
  {| Doc.isHealthy := Doc.isHealthy e;
     Doc.isDisabled := Doc.isDisabled e;
     Doc.lastUsed := Doc.lastUsed e;
     Doc.usageCount := Doc.usageCount e;
     Doc.errorCount := Doc.errorCount e;
     Doc.lastErrorTime := Doc.lastErrorTime e;
     Doc.lastHealthCheckTime := Doc.lastHealthCheckTime e;
     Doc.lastHealthCheckModel := Doc.lastHealthCheckModel e;
     Doc.lastErrorMessage := Doc.lastErrorMessage e;
     Doc.usageInfo := Some None;
     Doc.rest := Doc.rest e |}.

(** A generated entry: healthy, enabled, never used, with health checks
    on the Kiro check model and a non-empty uuid. *)
Definition freshKiroEntry (c : Config) : Prop :=
  isHealthy c = true ∧ isDisabled c = false ∧ usageCount c = 0 ∧ errorCount c = 0 ∧
  lastUsed c = None ∧ lastErrorTime c = None ∧ lastErrorMessage c = None ∧
  lastHealthCheckTime c = None ∧ lastHealthCheckModel c = None ∧
  usageInfo c = None ∧
  checkHealth c = true ∧ checkModelName c = Some "claude-haiku-4-5" ∧
  truthy_str (uuid c) = true.


(** Every character of [s] satisfies [P]. *)
Fixpoint allChars (P : Ascii.ascii → bool) (s : string) : bool :=
  match s with
  | EmptyString => true
  | String a s' => P a && allChars P s'
  end.


(** The pools file after the cleaning script has run. *)
Definition afterCleaning (pools : Document) : Document :=
  default pools (cleanPools pools).1.


(** A pool whose two entries have the same uuid. *)
Definition duplicatePool : Manager :=
  initializeProviderStatus {[ "openai-custom" := [entryNamed "A"; entryNamed "A"] ]}
    noOptions.


(** The usage data with its breakdown items replaced. *)
Definition withBreakdown (items : list Usage.Breakdown) (u : Usage.Formatted)
  : Usage.Formatted :=
  {| Usage.usageBreakdown := Some items;
     Usage.nextDateReset := Usage.nextDateReset u;
     Usage.daysUntilReset := Usage.daysUntilReset u;
     Usage.subscription := Usage.subscription u;
     Usage.user := Usage.user u |}.

(** A breakdown item with its free trial replaced. *)
Definition withFreeTrial (freeTrial : option Usage.Bucket) (b : Usage.Breakdown)
  : Usage.Breakdown :=
  {| Usage.baseUsage := Usage.baseUsage b; Usage.baseLimit := Usage.baseLimit b;
     Usage.freeTrial := freeTrial; Usage.bonuses := Usage.bonuses b |}.

(** A breakdown item with its bonuses replaced. *)
Definition withBonuses (bonuses : list Usage.Bucket) (b : Usage.Breakdown)
  : Usage.Breakdown :=
  {| Usage.baseUsage := Usage.baseUsage b; Usage.baseLimit := Usage.baseLimit b;
     Usage.freeTrial := Usage.freeTrial b; Usage.bonuses := Some bonuses |}.


(** * Verification *)

(** ** Basic facts *)

Lemma truthy_str_Some (s : string) : s ≠ "" → truthy_str (Some s) = true.
Proof.
  intros Hs. simpl. destruct (String.eqb_spec s ""); [contradiction|reflexivity].
Qed.

Lemma or_null_fixed (o : option string) :
  or_null o = o ↔ o ≠ Some "".
Proof.
  unfold or_null. destruct o as [s|]; simpl; [|split; [discriminate|reflexivity]].
  destruct (String.eqb_spec s "") as [->|Hne]; simpl.
  - split; [discriminate|intros H; contradiction H; reflexivity].
  - split; [congruence|reflexivity].
Qed.

Lemma pool_setEntry (providerType ty : string) (i : nat) (c : Config) (m : Manager) :
  pool (setEntry providerType i c m) ty =
  if decide (providerType = ty) then <[i := c]> (pool m ty) else pool m ty.
Proof.
  unfold setEntry, pool at 1. simpl. rewrite lookup_insert.
  destruct (decide (providerType = ty)) as [->|]; reflexivity.
Qed.

Lemma pool__debouncedSave (providerType ty : string) (m : Manager) :
  pool (_debouncedSave providerType m) ty = pool m ty.
Proof. reflexivity. Qed.

Lemma _findProvider_Some (m : Manager) (providerType : string) (u : option string)
    (i : nat) (c : Config) :
  _findProvider m providerType u = Some (i, c) →
  pool m providerType !! i = Some c ∧ uuid c = u.
Proof.
  unfold _findProvider. destruct (_ && _); [|discriminate].
  intros Hf. apply list_find_Some in Hf as (Hi & Hu & _). split; assumption.
Qed.

Lemma _findProvider_designated (m : Manager) (providerType : string) (i : nat)
    (c : Config) :
  designated m providerType i c →
  _findProvider m providerType (uuid c) = Some (i, c).
Proof.
  intros (Hty & Hi & Hu & Hfirst). unfold _findProvider.
  destruct (String.eqb_spec providerType "") as [|_]; [contradiction|].
  rewrite Hu. simpl. apply list_find_Some.
  split; [assumption|]. split; [reflexivity|].
  intros j y Hj Hlt. exact (Hfirst j y Hlt Hj).
Qed.

Lemma designated_lt (m : Manager) (providerType : string) (i : nat) (c : Config) :
  designated m providerType i c → (i < length (pool m providerType))%nat.
Proof. intros (_ & Hi & _). eapply lookup_lt_Some, Hi. Qed.

(** ** Marking an entry healthy *)


Lemma twoEntryPool_B_designated :
  designated twoEntryPool "openai-custom" 1 (initializeEntry (entryNamed "B")).
Proof.
  split; [discriminate|]. split; [reflexivity|]. split; [reflexivity|].
  intros j c' Hj. destruct j as [|j]; [|lia].
  vm_compute. intros [= <-]. discriminate.
Qed.


(** ** Resetting the counters *)

(** C9: [resetProviderCounters] sets [errorCount] and [usageCount] of the
    designated entry to 0 and changes no other field of it, no other entry
    of the family and no other family. *)
Theorem resetProviderCounters_frame (m : Manager) (providerType : string) (i : nat)
    (c cfg : Config) :
  designated m providerType i c →
  uuid cfg = uuid c →
  (∃ c',
      pool (resetProviderCounters providerType (Some cfg) m) providerType !! i = Some c' ∧
      errorCount c' = 0 ∧ usageCount c' = 0 ∧
      isHealthy c' = isHealthy c ∧ isDisabled c' = isDisabled c ∧
      lastErrorTime c' = lastErrorTime c ∧ lastErrorMessage c' = lastErrorMessage c ∧
      lastUsed c' = lastUsed c ∧ lastHealthCheckTime c' = lastHealthCheckTime c ∧
      lastHealthCheckModel c' = lastHealthCheckModel c ∧ usageInfo c' = usageInfo c ∧
      rest c' = rest c) ∧
  (∀ j, j ≠ i →
      pool (resetProviderCounters providerType (Some cfg) m) providerType !! j =
      pool m providerType !! j) ∧
  (∀ ty, ty ≠ providerType →
      pool (resetProviderCounters providerType (Some cfg) m) ty = pool m ty).
Proof.
  intros Hd Hu. pose proof (designated_lt _ _ _ _ Hd) as Hlt.
  apply _findProvider_designated in Hd.
  unfold resetProviderCounters. simpl. rewrite Hu, Hd.
  split; [|split].
  - eexists. split.
    + rewrite pool__debouncedSave, pool_setEntry, decide_True by reflexivity.
      apply list_lookup_insert_eq, Hlt.
    + simpl. repeat split; reflexivity.
  - intros j Hj.
    rewrite pool__debouncedSave, pool_setEntry, decide_True by reflexivity.
    apply list_lookup_insert_ne. congruence.
  - intros ty Hty.
    rewrite pool__debouncedSave, pool_setEntry, decide_False by congruence.
    reflexivity.
Qed.

Lemma poolWithUnhealthyB_designated :
  designated poolWithUnhealthyB "openai-custom" 1 unhealthyB.
Proof.
  split; [discriminate|]. split; [reflexivity|]. split; [reflexivity|].
  intros j c' Hj. destruct j as [|j]; [|lia].
  vm_compute. intros [= <-]. discriminate.
Qed.

Lemma resetProviderCounters_frame_witness :
  designated poolWithUnhealthyB "openai-custom" 1 unhealthyB ∧
  ∃ c', pool (resetProviderCounters "openai-custom" (Some unhealthyB)
                poolWithUnhealthyB) "openai-custom" !! 1%nat = Some c' ∧
        isHealthy c' = false ∧ lastErrorMessage c' = Some "timeout".
Proof.
  split; [exact poolWithUnhealthyB_designated|].
  destruct (resetProviderCounters_frame poolWithUnhealthyB "openai-custom" 1
              unhealthyB unhealthyB poolWithUnhealthyB_designated eq_refl)
    as [(c' & H1 & _ & _ & H4 & _ & _ & H7 & _) _].
  exists c'. split; [exact H1|]. split; [rewrite H4|rewrite H7]; reflexivity.
Defined.

(** ** Selection stays within bounds *)

Lemma keep_elem (P : Config → bool) (l : list Config) (refs : list nat) (i : nat) :
  i ∈ keep P l refs ↔ i ∈ refs ∧ ∃ c, l !! i = Some c ∧ P c = true.
Proof.
  unfold keep. rewrite !list_elem_of_In, filter_In.
  split.
  - intros [Hi HP]. split; [assumption|].
    destruct (l !! i) as [c|]; [|discriminate]. exists c. auto.
  - intros [Hi (c & Hc & HP)]. split; [assumption|]. rewrite Hc. exact HP.
Qed.

Lemma enabledProviders_lt (l : list Config) (requestedModel : option string) (i : nat) :
  i ∈ enabledProviders l requestedModel → (i < length l)%nat.
Proof.
  unfold enabledProviders. intros Hi.
  assert (i ∈ keep (λ c, negb (isDisabled c)) l (seq 0 (length l))) as Hk.
  { destruct (truthy_str requestedModel); [|assumption].
    apply keep_elem in Hi as [Hi _]. exact Hi. }
  apply keep_elem in Hk as [Hk _]. apply elem_of_seq in Hk. lia.
Qed.

Lemma candidateProviders_subseteq (l : list Config) (enabled : list nat) (i : nat) :
  i ∈ candidateProviders l enabled → i ∈ enabled.
Proof.
  unfold candidateProviders. destruct (keep isHealthy l enabled) eqn:Hk; [auto|].
  rewrite <- Hk. intros Hi. apply keep_elem in Hi as [Hi _]. exact Hi.
Qed.

Lemma sweepOne_length parseDate interval now acc i :
  length (sweepOne parseDate interval now acc i).1 = length acc.1.
Proof.
  unfold sweepOne. destruct (acc.1 !! i) as [c|]; [|reflexivity].
  destruct (recoveryDue parseDate interval now c); [|reflexivity].
  simpl. apply length_insert.
Qed.

Lemma foldl_sweepOne_length parseDate interval now refs acc :
  length (foldl (sweepOne parseDate interval now) acc refs).1 = length acc.1.
Proof.
  revert acc. induction refs as [|i refs IH]; intros acc; [reflexivity|].
  simpl. rewrite IH. apply sweepOne_length.
Qed.

Lemma recoverySweep_length parseDate interval now l enabled :
  length (recoverySweep parseDate interval now l enabled).1 = length l.
Proof. unfold recoverySweep. apply foldl_sweepOne_length. Qed.

Lemma roundRobin_in_bounds {A} (candidates : list A) (currentIndex : nat) :
  candidates ≠ [] →
  (∃ x, (roundRobin candidates currentIndex).1 = Some x ∧ x ∈ candidates) ∧
  ((roundRobin candidates currentIndex).2 < length candidates)%nat.
Proof.
  intros Hne. assert (length candidates ≠ 0%nat) as Hlen.
  { destruct candidates; [contradiction|discriminate]. }
  unfold roundRobin. simpl. split.
  - destruct (lookup_lt_is_Some_2 candidates (currentIndex mod length candidates))
      as [x Hx].
    { apply Nat.mod_upper_bound, Hlen. }
    exists x. split; [exact Hx|]. eapply list_elem_of_lookup_2, Hx.
  - apply Nat.mod_upper_bound, Hlen.
Qed.

(** C10: when the candidate list of a call of [selectProvider] is not
    empty, then whatever index is stored, the call returns an entry of the
    candidate list (an entry of the pool, never null) and stores an index
    below the length of the candidate list. *)
Theorem selectProvider_in_bounds (parseDate : string → option Z) (m : Manager)
    (providerType : string) (requestedModel : option string) (skip : bool)
    (now usedAt : Date) :
  providerType ≠ "" →
  candidatesAt parseDate providerType requestedModel now m ≠ [] →
  ∃ i j,
    (selectProvider parseDate providerType requestedModel skip now usedAt m).1.2
      = Some i ∧
    i ∈ candidatesAt parseDate providerType requestedModel now m ∧
    is_Some (pool (selectProvider parseDate providerType requestedModel skip
                     now usedAt m).1.1 providerType !! i) ∧
    roundRobinIndex (selectProvider parseDate providerType requestedModel skip
                       now usedAt m).1.1 !! indexKey providerType requestedModel
      = Some j ∧
    (j < length (candidatesAt parseDate providerType requestedModel now m))%nat.
Proof.
  intros Hty Hne. unfold candidatesAt in *. unfold selectProvider.
  destruct (String.eqb_spec providerType "") as [|_]; [contradiction|].
  remember (pool m providerType) as l eqn:Hl.
  remember (enabledProviders l requestedModel) as enabled eqn:Hen.
  pose proof (recoverySweep_length parseDate (healthCheckInterval m) now l enabled) as Hlen.
  destruct (recoverySweep parseDate (healthCheckInterval m) now l enabled)
    as [swept started]. simpl in Hlen, Hne |- *.
  remember (candidateProviders swept enabled) as candidates eqn:Hcand.
  assert (∀ i, i ∈ candidates → (i < length swept)%nat) as Hbound.
  { intros i Hi. rewrite Hlen. apply (enabledProviders_lt l requestedModel).
    rewrite <- Hen. apply (candidateProviders_subseteq swept). rewrite <- Hcand.
    exact Hi. }
  destruct enabled as [|e0 enabled'].
  { exfalso. apply Hne. rewrite Hcand. unfold candidateProviders.
    destruct swept; reflexivity. }
  destruct (roundRobin_in_bounds candidates
              (default 0%nat (roundRobinIndex m !! indexKey providerType requestedModel))
              Hne) as [(i & Hi & Hin) Hj].
  unfold roundRobin in Hi, Hj |- *. simpl in Hi, Hj |- *.
  destruct (lookup_lt_is_Some_2 swept i (Hbound i Hin)) as [c Hc].
  rewrite Hi. simpl. rewrite Hc. simpl.
  eexists i, _.
  destruct skip; simpl.
  - split; [reflexivity|]. split; [exact Hin|]. split.
    + unfold pool. simpl. rewrite lookup_insert_eq. simpl. eauto.
    + split; [apply lookup_insert_eq|exact Hj].
  - split; [reflexivity|]. split; [exact Hin|]. split.
    + unfold pool. simpl. rewrite lookup_insert_eq. simpl.
      unfold pool. simpl. rewrite lookup_insert_eq. simpl.
      apply lookup_lt_is_Some_2. rewrite length_insert. exact (Hbound i Hin).
    + split; [apply lookup_insert_eq|exact Hj].
Qed.

Lemma selectProvider_in_bounds_witness :
  ∃ i j,
    (selectProvider parseExample "openai-custom" None false noon later
       staleIndexPool).1.2 = Some i ∧
    i ∈ candidatesAt parseExample "openai-custom" None noon staleIndexPool ∧
    is_Some (pool (selectProvider parseExample "openai-custom" None false noon later
                     staleIndexPool).1.1 "openai-custom" !! i) ∧
    roundRobinIndex (selectProvider parseExample "openai-custom" None false noon later
                       staleIndexPool).1.1 !! indexKey "openai-custom" None = Some j ∧
    (j < length (candidatesAt parseExample "openai-custom" None noon staleIndexPool))%nat.
Proof.
  apply selectProvider_in_bounds; [discriminate|vm_compute; discriminate].
Defined.

(** The stale index 7 selects entry 7 mod 2 and 0 is stored. *)
Example selectProvider_stale_index :
  (selectProvider parseExample "openai-custom" None false noon later
     staleIndexPool).1.2 = Some 1%nat ∧
  roundRobinIndex (selectProvider parseExample "openai-custom" None false noon later
                     staleIndexPool).1.1 !! "openai-custom" = Some 0%nat.
Proof. split; vm_compute; reflexivity. Qed.

(** ** Persistence *)

Lemma foldl_savePool_lookup (m : Manager) (types : list string) (doc : Document)
    (ty : string) :
  foldl (savePool m) doc types !! ty =
  if decide (ty ∈ types)
  then match providerStatus m !! ty with
       | Some l => Some (map toDocEntry l)
       | None => doc !! ty
       end
  else doc !! ty.
Proof.
  revert doc. induction types as [|t types IH]; intros doc; cbn [foldl].
  - rewrite decide_False; [reflexivity|]. apply not_elem_of_nil.
  - rewrite IH. unfold savePool.
    destruct (decide (ty ∈ types)) as [Hin|Hnin].
    + rewrite decide_True by (right; exact Hin).
      destruct (providerStatus m !! ty) as [l|] eqn:Hl; [reflexivity|].
      destruct (providerStatus m !! t) as [l'|] eqn:Ht; [|reflexivity].
      rewrite lookup_insert_ne; [reflexivity|]. intros ->. congruence.
    + destruct (decide (t = ty)) as [->|Hne].
      * rewrite decide_True by left.
        destruct (providerStatus m !! ty) as [l|] eqn:Hl; [|reflexivity].
        apply lookup_insert_eq.
      * rewrite decide_False.
        2:{ intros Hin. apply elem_of_cons in Hin as [->|Hin]; [congruence|contradiction]. }
        destruct (providerStatus m !! t); [|reflexivity].
        apply lookup_insert_ne. exact Hne.
Qed.

Lemma _flushPendingSaves_pending (read : ReadResult) (m : Manager) :
  pendingSaves m ≠ [] →
  _flushPendingSaves read m =
  ({| providerStatus := providerStatus m; roundRobinIndex := roundRobinIndex m;
      maxErrorCount := maxErrorCount m; healthCheckInterval := healthCheckInterval m;
      globalConfig := globalConfig m; saveTimer := false; pendingSaves := [] |},
   flushWrite (pendingSaves m) read
     {| providerStatus := providerStatus m; roundRobinIndex := roundRobinIndex m;
        maxErrorCount := maxErrorCount m; healthCheckInterval := healthCheckInterval m;
        globalConfig := globalConfig m; saveTimer := false; pendingSaves := [] |}).
Proof.
  intros Hne. unfold _flushPendingSaves, flushBegin.
  destruct (pendingSaves m); [contradiction|reflexivity].
Qed.

Lemma _flushPendingSaves_idle (read : ReadResult) (m : Manager) :
  pendingSaves m = [] → _flushPendingSaves read m = (m, None).
Proof.
  intros He. unfold _flushPendingSaves, flushBegin. rewrite He. reflexivity.
Qed.

Lemma flushWrite_error (types : list string) (code : option string) (m : Manager) :
  code ≠ Some "ENOENT" → flushWrite types (ReadError code) m = None.
Proof.
  intros Hc. unfold flushWrite. destruct (decide (code = Some "ENOENT")); congruence.
Qed.

Lemma flushWrite_ENOENT (types : list string) (m : Manager) :
  flushWrite types (ReadError (Some "ENOENT")) m = flushWrite types (ReadOk ∅) m.
Proof.
  unfold flushWrite. destruct (decide (Some "ENOENT" = Some "ENOENT")); congruence.
Qed.

(** C1 (as the code has it): when the read fails with an error other
    than file-not-found, the flush writes nothing and leaves the entries
    as they are, but the pending set has been cleared and stays empty: a
    later flush without a new mutation writes nothing, and a family is
    written again once a later mutation schedules it.  A missing file is
    treated as the empty document and the flush goes on. *)
Theorem flush_read_error (m : Manager) (code : option string) :
  pendingSaves m ≠ [] →
  code ≠ Some "ENOENT" →
  (_flushPendingSaves (ReadError code) m).2 = None ∧
  providerStatus (_flushPendingSaves (ReadError code) m).1 = providerStatus m ∧
  pendingSaves (_flushPendingSaves (ReadError code) m).1 = [] ∧
  saveTimer (_flushPendingSaves (ReadError code) m).1 = false ∧
  (∀ read,
     (_flushPendingSaves read (_flushPendingSaves (ReadError code) m).1).2 = None) ∧
  (∀ ty l doc,
     providerStatus m !! ty = Some l →
     ∃ d, (_flushPendingSaves (ReadOk doc)
             (_debouncedSave ty (_flushPendingSaves (ReadError code) m).1)).2 = Some d ∧
          d !! ty = Some (map toDocEntry l)) ∧
  _flushPendingSaves (ReadError (Some "ENOENT")) m = _flushPendingSaves (ReadOk ∅) m ∧
  is_Some (_flushPendingSaves (ReadError (Some "ENOENT")) m).2.
Proof.
  intros Hp Hc. rewrite !(_flushPendingSaves_pending _ m Hp).
  cbn [fst snd providerStatus pendingSaves saveTimer].
  rewrite flushWrite_error by exact Hc. rewrite flushWrite_ENOENT.
  split; [reflexivity|]. split; [reflexivity|]. split; [reflexivity|].
  split; [reflexivity|]. split; [|split; [|split; [reflexivity|]]].
  - intros read. rewrite _flushPendingSaves_idle; reflexivity.
  - intros ty l doc Hl. rewrite _flushPendingSaves_pending by (simpl; discriminate).
    simpl. eexists. split; [reflexivity|].
    unfold savePool. simpl. rewrite Hl. apply lookup_insert_eq.
  - simpl. eauto.
Qed.

Lemma flush_read_error_witness :
  (_flushPendingSaves (ReadError (Some "EACCES")) dirtyPool).2 = None ∧
  (∀ read,
     (_flushPendingSaves read
        (_flushPendingSaves (ReadError (Some "EACCES")) dirtyPool).1).2 = None).
Proof.
  assert (Hp : pendingSaves dirtyPool ≠ []) by (vm_compute; discriminate).
  assert (Hc : Some "EACCES" ≠ Some "ENOENT") by discriminate.
  destruct (flush_read_error dirtyPool (Some "EACCES") Hp Hc)
    as (H1 & _ & _ & _ & H5 & _).
  split; [exact H1|exact H5].
Defined.

(** C1 as stated fails: the family scheduled in [dirtyPool] is no longer
    pending after a flush whose read fails with EACCES, and a later flush
    that can read the file writes nothing. *)
Lemma flush_read_error_drops_pending :
  pendingSaves dirtyPool = ["openai-custom"] ∧
  pendingSaves (_flushPendingSaves (ReadError (Some "EACCES")) dirtyPool).1
    ≠ pendingSaves dirtyPool ∧
  (_flushPendingSaves (ReadOk twoEntryDoc)
     (_flushPendingSaves (ReadError (Some "EACCES")) dirtyPool).1).2 = None.
Proof. split; [reflexivity|]. split; [vm_compute; discriminate|reflexivity]. Qed.

(** ** Loading and writing back *)

Lemma or_null_not_empty (o : option string) : or_null o ≠ Some "".
Proof.
  unfold or_null. destruct o as [s|]; simpl; [|discriminate].
  destruct (String.eqb_spec s ""); simpl; congruence.
Qed.

Lemma normalize_rest (e : Doc.Entry) : Doc.rest (normalize e) = Doc.rest e.
Proof. reflexivity. Qed.

Lemma normalize_complete (e : Doc.Entry) : normalize e = e ↔ complete e.
Proof.
  destruct e as [h d u n k t ct cm em ui r].
  unfold normalize, toDocEntry, initializeEntry, complete. simpl. split.
  - intros [= Hh Hd Hu Hn Hk Ht Hct Hcm Hem Hui].
    rewrite <- Hh, <- Hd, <- Hu, <- Hn, <- Hk, <- Hui.
    repeat (split; [eauto|]); [..|eauto].
    + rewrite <- Ht. eexists. split; [reflexivity|apply or_null_not_empty].
    + rewrite <- Hct. eexists. split; [reflexivity|apply or_null_not_empty].
    + rewrite <- Hcm. eexists. split; [reflexivity|apply or_null_not_empty].
    + rewrite <- Hem. eexists. split; [reflexivity|apply or_null_not_empty].
  - intros ([? ->] & [? ->] & [? ->] & [? ->] & [? ->] & (vt & -> & Hvt) &
            (vct & -> & Hvct) & (vcm & -> & Hvcm) & (vem & -> & Hvem) & [? ->]).
    simpl. apply or_null_fixed in Hvt, Hvct, Hvcm, Hvem.
    rewrite Hvt, Hvct, Hvcm, Hvem. reflexivity.
Qed.

(** C5 (as the code has it): a flush from a manager whose entries are
    those loaded from the document writes a document in which every entry
    of a flushed family is the loaded entry with its managed fields
    defaulted where missing and the rest of its keys (unknown ones such as
    [_comment] and [_originalId] included) unchanged, and in which the
    families that are not flushed are as read; the written document equals
    the loaded one when the entries of the flushed families were complete. *)
Theorem flush_round_trip (doc : Document) (m : Manager) :
  providerStatus m = (map initializeEntry) <$> doc →
  pendingSaves m ≠ [] →
  ∃ d,
    (_flushPendingSaves (ReadOk doc) m).2 = Some d ∧
    (∀ ty, d !! ty =
           if decide (ty ∈ pendingSaves m) then map normalize <$> doc !! ty
           else doc !! ty) ∧
    (∀ e, Doc.rest (normalize e) = Doc.rest e) ∧
    (∀ e, normalize e = e ↔ complete e) ∧
    ((∀ ty l, ty ∈ pendingSaves m → doc !! ty = Some l → Forall complete l) →
     d = doc).
Proof.
  intros Hst Hp. rewrite (_flushPendingSaves_pending _ m Hp). simpl.
  eexists. split; [reflexivity|].
  assert (∀ ty,
    foldl (savePool
             {| providerStatus := providerStatus m; roundRobinIndex := roundRobinIndex m;
                maxErrorCount := maxErrorCount m;
                healthCheckInterval := healthCheckInterval m;
                globalConfig := globalConfig m; saveTimer := false;
                pendingSaves := [] |}) doc (pendingSaves m) !! ty =
    if decide (ty ∈ pendingSaves m) then map normalize <$> doc !! ty
    else doc !! ty) as Hlook.
  { intros ty. rewrite foldl_savePool_lookup. simpl.
    destruct (decide (ty ∈ pendingSaves m)); [|reflexivity].
    rewrite Hst, lookup_fmap. destruct (doc !! ty) as [l|]; simpl; [|reflexivity].
    f_equal. rewrite map_map. reflexivity. }
  split; [exact Hlook|]. split; [exact normalize_rest|].
  split; [exact normalize_complete|].
  intros Hc. apply map_eq. intros ty. rewrite Hlook.
  destruct (decide (ty ∈ pendingSaves m)) as [Hin|]; [|reflexivity].
  destruct (doc !! ty) as [l|] eqn:Hl; simpl; [|reflexivity].
  f_equal. specialize (Hc ty l Hin Hl). clear Hl.
  induction Hc as [|e l He _ IH]; [reflexivity|].
  simpl. rewrite IH. f_equal. apply normalize_complete, He.
Qed.

Lemma flush_round_trip_witness :
  ∃ d, (_flushPendingSaves (ReadOk completeDoc)
          (_debouncedSave "openai-custom"
             (initializeProviderStatus completeDoc noOptions))).2 = Some d ∧
       d = completeDoc.
Proof.
  destruct (flush_round_trip completeDoc
              (_debouncedSave "openai-custom"
                 (initializeProviderStatus completeDoc noOptions)))
    as (d & Hd & _ & _ & _ & Heq).
  - reflexivity.
  - vm_compute. discriminate.
  - exists d. split; [exact Hd|]. apply Heq.
    intros ty l _ Hl. unfold completeDoc in Hl.
    apply lookup_singleton_Some in Hl as [_ <-].
    repeat constructor; simpl; eauto; eexists; (split; [reflexivity|discriminate]).
Defined.

(** C5 as stated fails: the document whose two entries hold only a uuid
    is written back with the ten managed fields added to each entry. *)
Lemma flush_round_trip_adds_fields :
  (_flushPendingSaves (ReadOk twoEntryDoc) dirtyPool).2 ≠ Some twoEntryDoc ∧
  providerStatus dirtyPool = (map initializeEntry) <$> twoEntryDoc.
Proof.
  split; [|reflexivity].
  intros H.
  apply (f_equal (λ o : option Document,
                    match o with
                    | Some d =>
                        match d !! "openai-custom" with
                        | Some (e :: _) => Doc.isHealthy e
                        | _ => None
                        end
                    | None => None
                    end)) in H.
  vm_compute in H. discriminate.
Qed.

(** ** The quota verdict *)

Lemma addBuckets_app (t : Totals) (bs bs' : list (spec_float * spec_float)) :
  addBuckets t (bs ++ bs') = addBuckets (addBuckets t bs) bs'.
Proof. unfold addBuckets. apply foldl_app. Qed.

Lemma foldl_addBonus (bonuses : list Usage.Bucket) (t : Totals) :
  foldl addBonus t bonuses =
  addBuckets t
    (map (λ b, (or_zero (Usage.currentUsage b), or_zero (Usage.usageLimit b)))
         (List.filter isActive bonuses)).
Proof.
  revert t. induction bonuses as [|b bonuses IH]; intros t; [reflexivity|].
  cbn [foldl List.filter]. rewrite IH. unfold addBonus.
  destruct (isActive b); reflexivity.
Qed.

Lemma addBreakdown_contributing (t : Totals) (breakdown : Usage.Breakdown) :
  addBreakdown t breakdown = addBuckets t (contributing breakdown).
Proof.
  unfold addBreakdown, contributing.
  change (?b :: ?l ++ ?l') with ([b] ++ l ++ l').
  rewrite !addBuckets_app.
  destruct (Usage.bonuses breakdown) as [bs|]; cbn [default].
  - rewrite foldl_addBonus.
    destruct (Usage.freeTrial breakdown) as [ft|]; [destruct (isActive ft)|]; reflexivity.
  - destruct (Usage.freeTrial breakdown) as [ft|]; [destruct (isActive ft)|]; reflexivity.
Qed.

Lemma foldl_addBreakdown (breakdowns : list Usage.Breakdown) (t : Totals) :
  foldl addBreakdown t breakdowns =
  addBuckets t (concat (map contributing breakdowns)).
Proof.
  revert t. induction breakdowns as [|b breakdowns IH]; intros t; [reflexivity|].
  cbn [foldl map concat]. rewrite IH, addBuckets_app, addBreakdown_contributing.
  reflexivity.
Qed.

Lemma addBuckets_totals (bs : list (spec_float * spec_float)) (t : Totals) :
  totalUsed (addBuckets t bs) = sumFrom (totalUsed t) fst bs ∧
  totalLimit (addBuckets t bs) = sumFrom (totalLimit t) snd bs ∧
  (hasActiveQuota (addBuckets t bs) = true ↔
   hasActiveQuota t = true ∨ Exists activeQuota bs).
Proof.
  revert t. induction bs as [|[u l] bs IH]; intros t.
  - split; [reflexivity|]. split; [reflexivity|]. split; [auto|].
    intros [H|H]; [exact H|]. apply Exists_nil in H. contradiction.
  - change (addBuckets t ((u, l) :: bs)) with (addBuckets (addBucket u l t) bs).
    destruct (IH (addBucket u l t)) as (Hu & Hl & Ha).
    rewrite Hu, Hl, Ha. split; [reflexivity|]. split; [reflexivity|].
    rewrite Exists_cons. unfold activeQuota, addBucket.
    cbn [hasActiveQuota fst snd].
    destruct (SFltb Number_zero l), (SFltb u l); cbn [andb];
      intuition congruence.
Qed.

(** A number that is neither greater than zero nor at most zero is
    [NaN]. *)
Lemma not_comparable_nan (x : spec_float) :
  SFltb Number_zero x = false → SFleb x Number_zero = false → x = S754_nan.
Proof.
  destruct x as [s|s| |s m e]; try destruct s; cbn; intros; congruence.
Qed.

(** C4 (as the code has it): the totals are the binary64 sums over the
    contributing sub-buckets, added from left to right in the order of the
    report, and [remaining] is their binary64 difference; the verdict is
    healthy iff some contributing sub-bucket has active quota and
    [totalLimit - totalUsed > 0]; [usagePercent] is 0 when [totalLimit] is
    not greater than 0 and otherwise [Math.round] of the binary64 value
    [(totalUsed / totalLimit) * 100]; an unhealthy verdict has the message
    [配额已用完 (used/limit)] when [remaining <= 0], else
    [没有可用的活跃配额] when no sub-bucket has active quota, and no
    message in the one case left, in which [remaining] is [NaN].  For
    [usageBreakdown = [{currentUsage: 100, usageLimit: 100}]] the verdict
    is unhealthy with message [配额已用完 (100/100)], remaining 0 and
    usagePercent 100.  The sums are not exact: with [2^53] used of
    [2^53 + 2] followed by twice [1] used of [0] the total used stays
    [2^53], 2 remain and the verdict is healthy, and with the large item
    last the total used is [2^53 + 2] and the verdict is unhealthy. *)
Theorem _analyzeUsageHealth_verdict (numberText : spec_float → string)
    (u : Usage.Formatted) :
  used (Analysis.usageInfo (_analyzeUsageHealth numberText u))
    = sumOf fst (subBuckets u) ∧
  limit (Analysis.usageInfo (_analyzeUsageHealth numberText u))
    = sumOf snd (subBuckets u) ∧
  remaining (Analysis.usageInfo (_analyzeUsageHealth numberText u)) =
    Number_sub (sumOf snd (subBuckets u)) (sumOf fst (subBuckets u)) ∧
  (Analysis.success (_analyzeUsageHealth numberText u) = true ↔
   Exists activeQuota (subBuckets u) ∧
   SFltb Number_zero
     (Number_sub (sumOf snd (subBuckets u)) (sumOf fst (subBuckets u))) = true) ∧
  usagePercent (Analysis.usageInfo (_analyzeUsageHealth numberText u)) =
    percentUsed (sumOf fst (subBuckets u)) (sumOf snd (subBuckets u)) ∧
  (SFltb Number_zero (sumOf snd (subBuckets u)) = false →
   usagePercent (Analysis.usageInfo (_analyzeUsageHealth numberText u))
     = Number_zero) ∧
  (SFltb Number_zero (sumOf snd (subBuckets u)) = true →
   usagePercent (Analysis.usageInfo (_analyzeUsageHealth numberText u))
     = Math_round
         (Number_mul
            (Number_div (sumOf fst (subBuckets u)) (sumOf snd (subBuckets u)))
            (binary64 100))) ∧
  (Analysis.success (_analyzeUsageHealth numberText u) = true →
   Analysis.errorMessage (_analyzeUsageHealth numberText u) = None) ∧
  (Analysis.success (_analyzeUsageHealth numberText u) = false →
   SFleb (Number_sub (sumOf snd (subBuckets u)) (sumOf fst (subBuckets u)))
     Number_zero = true →
   Analysis.errorMessage (_analyzeUsageHealth numberText u) =
     Some ("配额已用完 (" +:+
           Number_toString numberText (sumOf fst (subBuckets u)) +:+ "/" +:+
           Number_toString numberText (sumOf snd (subBuckets u)) +:+ ")")) ∧
  (Analysis.success (_analyzeUsageHealth numberText u) = false →
   SFleb (Number_sub (sumOf snd (subBuckets u)) (sumOf fst (subBuckets u)))
     Number_zero = false →
   ¬ Exists activeQuota (subBuckets u) →
   Analysis.errorMessage (_analyzeUsageHealth numberText u)
     = Some "没有可用的活跃配额") ∧
  (Analysis.success (_analyzeUsageHealth numberText u) = false →
   SFleb (Number_sub (sumOf snd (subBuckets u)) (sumOf fst (subBuckets u)))
     Number_zero = false →
   Exists activeQuota (subBuckets u) →
   Analysis.errorMessage (_analyzeUsageHealth numberText u) = None ∧
   Number_sub (sumOf snd (subBuckets u)) (sumOf fst (subBuckets u)) = S754_nan) ∧
  (Analysis.success (_analyzeUsageHealth numberText exhaustedUsage) = false ∧
   Analysis.errorMessage (_analyzeUsageHealth numberText exhaustedUsage)
     = Some "配额已用完 (100/100)" ∧
   remaining (Analysis.usageInfo (_analyzeUsageHealth numberText exhaustedUsage))
     = Number_zero ∧
   usagePercent (Analysis.usageInfo (_analyzeUsageHealth numberText exhaustedUsage))
     = binary64 100 ∧
   used (Analysis.usageInfo (_analyzeUsageHealth numberText largeFirstUsage))
     = binary64 (2 ^ 53) ∧
   remaining (Analysis.usageInfo (_analyzeUsageHealth numberText largeFirstUsage))
     = binary64 2 ∧
   Analysis.success (_analyzeUsageHealth numberText largeFirstUsage) = true ∧
   used (Analysis.usageInfo (_analyzeUsageHealth numberText largeLastUsage))
     = binary64 (2 ^ 53 + 2) ∧
   remaining (Analysis.usageInfo (_analyzeUsageHealth numberText largeLastUsage))
     = Number_zero ∧
   Analysis.success (_analyzeUsageHealth numberText largeLastUsage) = false).
Proof.
  assert (Hex :
    Analysis.success (_analyzeUsageHealth numberText exhaustedUsage) = false ∧
    Analysis.errorMessage (_analyzeUsageHealth numberText exhaustedUsage)
      = Some "配额已用完 (100/100)" ∧
    remaining (Analysis.usageInfo (_analyzeUsageHealth numberText exhaustedUsage))
      = Number_zero ∧
    usagePercent (Analysis.usageInfo (_analyzeUsageHealth numberText exhaustedUsage))
      = binary64 100 ∧
    used (Analysis.usageInfo (_analyzeUsageHealth numberText largeFirstUsage))
      = binary64 (2 ^ 53) ∧
    remaining (Analysis.usageInfo (_analyzeUsageHealth numberText largeFirstUsage))
      = binary64 2 ∧
    Analysis.success (_analyzeUsageHealth numberText largeFirstUsage) = true ∧
    used (Analysis.usageInfo (_analyzeUsageHealth numberText largeLastUsage))
      = binary64 (2 ^ 53 + 2) ∧
    remaining (Analysis.usageInfo (_analyzeUsageHealth numberText largeLastUsage))
      = Number_zero ∧
    Analysis.success (_analyzeUsageHealth numberText largeLastUsage) = false).
  { repeat split; vm_compute; reflexivity. }
  revert Hex.
  generalize (_analyzeUsageHealth numberText exhaustedUsage)
             (_analyzeUsageHealth numberText largeFirstUsage)
             (_analyzeUsageHealth numberText largeLastUsage).
  intros ex ex1 ex2 Hex.
  unfold _analyzeUsageHealth, subBuckets.
  cbn [Analysis.success Analysis.errorMessage Analysis.usageInfo used limit remaining
       usagePercent].
  rewrite foldl_addBreakdown.
  set (bs := concat (map contributing (default [] (Usage.usageBreakdown u)))).
  destruct (addBuckets_totals bs
              {| totalUsed := Number_zero; totalLimit := Number_zero;
                 hasActiveQuota := false |})
    as (Hu & Hl & Ha).
  cbn [totalUsed totalLimit hasActiveQuota] in Hu, Hl, Ha.
  fold (sumOf fst bs) in Hu. fold (sumOf snd bs) in Hl.
  rewrite Hu, Hl. clear Hu Hl.
  set (U := sumOf fst bs). set (L := sumOf snd bs).
  assert (hasActiveQuota
            (addBuckets {| totalUsed := Number_zero; totalLimit := Number_zero;
                           hasActiveQuota := false |} bs)
          = true ↔ Exists activeQuota bs) as Ha'.
  { rewrite Ha. split; [intros [H|H]; [discriminate|exact H]|auto]. }
  clear Ha.
  split; [reflexivity|]. split; [reflexivity|]. split; [reflexivity|].
  split.
  { rewrite andb_true_iff, Ha'. reflexivity. }
  split; [reflexivity|].
  split.
  { intros HL. unfold percentUsed. rewrite HL. reflexivity. }
  split.
  { intros HL. unfold percentUsed. rewrite HL. reflexivity. }
  destruct (hasActiveQuota (addBuckets _ bs)) eqn:Hq; cbn [andb negb].
  - assert (Exists activeQuota bs) as Hact by (apply Ha'; reflexivity).
    destruct (SFltb Number_zero (Number_sub L U)) eqn:Hpos.
    + split; [reflexivity|]. split; [discriminate|]. split; [discriminate|].
      split; [discriminate|exact Hex].
    + split; [discriminate|].
      destruct (SFleb (Number_sub L U) Number_zero) eqn:Hle.
      * split; [reflexivity|]. split; [discriminate|].
        split; [discriminate|exact Hex].
      * split; [discriminate|]. split; [intros _ _ Hno; contradiction|].
        split; [|exact Hex].
        intros _ _ _. split; [reflexivity|].
        apply not_comparable_nan; assumption.
  - assert (¬ Exists activeQuota bs) as Hno
      by (intros Hact; apply Ha' in Hact; discriminate).
    split; [discriminate|].
    destruct (SFleb (Number_sub L U) Number_zero) eqn:Hle.
    + split; [reflexivity|]. split; [discriminate|]. split; [discriminate|exact Hex].
    + split; [discriminate|]. split; [reflexivity|].
      split; [intros _ _ Hact; contradiction|exact Hex].
Qed.

(** C4 as stated fails: for [usageBreakdown = [{currentUsage: 100,
    usageLimit: 100}]] the verdict is unhealthy, but its message is not
    the English text [quota exhausted (100/100)]. *)
Lemma quota_message_is_not_english :
  Analysis.success (_analyzeUsageHealth (λ _, "") exhaustedUsage) = false ∧
  Analysis.errorMessage (_analyzeUsageHealth (λ _, "") exhaustedUsage)
    ≠ Some "quota exhausted (100/100)".
Proof. split; [reflexivity|]. vm_compute. discriminate. Qed.

(** In binary64 arithmetic [29 / 200 * 100] is just below 14.5, so 29 of
    200 used is reported as 14 percent. *)
Example percentUsed_below_tie :
  percentUsed (binary64 29) (binary64 200) = binary64 14 ∧
  percentUsed (binary64 100) (binary64 100) = binary64 100 ∧
  percentUsed (binary64 1) (binary64 3) = binary64 33.
Proof. repeat split; vm_compute; reflexivity. Qed.

(** Usage need not be integral: half a unit used of one and a half leaves
    one unit and is reported as 33 percent.  A small negative percentage
    is rounded to [-0], which is written [0]. *)
Example _analyzeUsageHealth_fractions (numberText : spec_float → string) :
  remaining (Analysis.usageInfo (_analyzeUsageHealth numberText fractionalUsage))
    = binary64 1 ∧
  usagePercent (Analysis.usageInfo (_analyzeUsageHealth numberText fractionalUsage))
    = binary64 33 ∧
  Analysis.success (_analyzeUsageHealth numberText fractionalUsage) = true ∧
  percentUsed (binary64 (-1)) (binary64 200) = S754_zero true ∧
  Number_toString numberText (S754_zero true) = "0" ∧
  or_zero (Some S754_nan) = Number_zero ∧
  or_zero (Some (S754_zero true)) = Number_zero.
Proof. repeat split; vm_compute; reflexivity. Qed.

(** ** The chat-send probe of the Kiro family *)

Section ProbeFacts.
Context `{Externals}.

Lemma checkModel_kiro (providerConfig : Config) :
  checkModel "claude-kiro-oauth" providerConfig =
  Some (default "claude-haiku-4-5" (checkModelName providerConfig)).
Proof. unfold checkModel. destruct (checkModelName providerConfig); reflexivity. Qed.

Lemma or_else_message (e : Error) (msg fallback : string) :
  message e = Some msg → msg ≠ "" →
  or_else (Some e ≫= message) (Some fallback) = Some msg.
Proof.
  intros Hm Hne. simpl. rewrite Hm. unfold or_else.
  rewrite truthy_str_Some by exact Hne. reflexivity.
Qed.

End ProbeFacts.

(** C6: for the Kiro family the chat-send probe uses the model
    [checkModelName] or else [claude-haiku-4-5], builds exactly the
    messages payload and then the contents payload, and calls the adapter
    with them in this order until a call succeeds: the first success gives
    [{success: true, modelName, errorMessage: null}]; when both calls throw
    the result is [success: false] with the message of the last error. *)
Theorem chatSendProbe_kiro `{Externals} (serviceAdapter : Adapter World RawUsage)
    (providerConfig : Config) (s : St) :
  ∃ modelName,
    checkModel "claude-kiro-oauth" providerConfig = Some modelName ∧
    (checkModelName providerConfig = None → modelName = "claude-haiku-4-5") ∧
    _buildHealthCheckRequests "claude-kiro-oauth" modelName =
      [kiroMessagesPayload modelName; kiroContentsPayload] ∧
    (∀ w1,
       generateContent serviceAdapter modelName (kiroMessagesPayload modelName) (world s)
         = (inr tt, w1) →
       chatSendProbe "claude-kiro-oauth" serviceAdapter (Some modelName) s =
         (probeSucceeded modelName,
          called (GenerateContent modelName (kiroMessagesPayload modelName)) w1 s)) ∧
    (∀ e1 w1 w2,
       generateContent serviceAdapter modelName (kiroMessagesPayload modelName) (world s)
         = (inl e1, w1) →
       generateContent serviceAdapter modelName kiroContentsPayload w1 = (inr tt, w2) →
       chatSendProbe "claude-kiro-oauth" serviceAdapter (Some modelName) s =
         (probeSucceeded modelName,
          called (GenerateContent modelName kiroContentsPayload) w2
            (called (GenerateContent modelName (kiroMessagesPayload modelName)) w1 s))) ∧
    (∀ e1 e2 w1 w2,
       generateContent serviceAdapter modelName (kiroMessagesPayload modelName) (world s)
         = (inl e1, w1) →
       generateContent serviceAdapter modelName kiroContentsPayload w1 = (inl e2, w2) →
       ∃ errorMessage,
         chatSendProbe "claude-kiro-oauth" serviceAdapter (Some modelName) s =
           ({| Result.success := false; Result.modelName := Some modelName;
               Result.errorMessage := errorMessage; Result.usageInfo := None |},
            called (GenerateContent modelName kiroContentsPayload) w2
              (called (GenerateContent modelName (kiroMessagesPayload modelName)) w1 s)) ∧
         (∀ msg, message e2 = Some msg → msg ≠ "" → errorMessage = Some msg) ∧
         (truthy_str (message e2) = false →
          errorMessage = Some "All health check attempts failed")).
Proof.
  exists (default "claude-haiku-4-5" (checkModelName providerConfig)).
  split; [apply checkModel_kiro|].
  split; [intros ->; reflexivity|].
  split; [reflexivity|].
  set (modelName := default "claude-haiku-4-5" (checkModelName providerConfig)).
  unfold chatSendProbe. change (_buildHealthCheckRequests "claude-kiro-oauth" modelName)
    with [kiroMessagesPayload modelName; kiroContentsPayload].
  split; [|split].
  - intros w1 H1. unfold tryRequests, mbind, probe_bind, call. rewrite H1. reflexivity.
  - intros e1 w1 w2 H1 H2. unfold tryRequests, mbind, probe_bind, call.
    rewrite H1. simpl. rewrite H2. reflexivity.
  - intros e1 e2 w1 w2 H1 H2. eexists. split; [|split].
    + unfold tryRequests, mbind, probe_bind, call.
      rewrite H1. simpl. rewrite H2. reflexivity.
    + intros msg Hm Hne. apply or_else_message; assumption.
    + intros Hf. unfold or_else. simpl. rewrite Hf. reflexivity.
Qed.

(** Scenario: the first payload throws, the second succeeds. *)
Lemma chatSendProbe_kiro_witness :
  (@chatSendProbe scriptedExternals "claude-kiro-oauth" scriptedAdapter
     (checkModel "claude-kiro-oauth" kiroEntry) firstShapeRejected).1
    = probeSucceeded "claude-haiku-4-5" ∧
  trace (@chatSendProbe scriptedExternals "claude-kiro-oauth" scriptedAdapter
           (checkModel "claude-kiro-oauth" kiroEntry) firstShapeRejected).2
    = [GenerateContent "claude-haiku-4-5" (kiroMessagesPayload "claude-haiku-4-5");
       GenerateContent "claude-haiku-4-5" kiroContentsPayload].
Proof.
  destruct (@chatSendProbe_kiro scriptedExternals scriptedAdapter kiroEntry
              firstShapeRejected) as (modelName & Hm & Hd & _ & _ & H2 & _).
  rewrite Hm. rewrite (Hd eq_refl) in *.
  rewrite (H2 {| message := Some "messages not supported" |} [inr tt] []
              eq_refl eq_refl).
  split; reflexivity.
Defined.

(** ** A quota query that throws *)

Lemma refreshBeforeUsage_mgr `{Externals} (serviceAdapter : Adapter World RawUsage)
    (s : St) :
  mgr (refreshBeforeUsage serviceAdapter s).2 = mgr s.
Proof.
  unfold refreshBeforeUsage, mbind, probe_bind, mret, probe_ret, call.
  destruct (forceRefreshToken serviceAdapter) as [f|].
  - destruct (f (world s)). reflexivity.
  - destruct (refreshToken serviceAdapter) as [f|]; [|reflexivity].
    destruct (f (world s)). reflexivity.
Qed.

(** C8: for a Kiro entry whose probe is not gated off, when the adapter's
    [getUsageLimits] throws, the usage-based probe returns null without
    touching the pool, and [_checkProviderHealth] then returns the result
    of the chat-send probe run with the same adapter for the same entry,
    which starts by sending the messages payload. *)
Theorem usage_query_throws_falls_back `{Externals} (providerConfig : Config)
    (forceCheck : bool) (now : Date) (s : St)
    (serviceAdapter : Adapter World RawUsage)
    (getUsage : World → (Error + RawUsage) * World) (w1 w2 : World) (e : Error) :
  checkHealth providerConfig = true ∨ forceCheck = true →
  getServiceAdapter
    {| providerConfig := providerConfig;
       tempModelProvider := "claude-kiro-oauth";
       proxy := proxySettings (globalConfig (mgr s)) |}
    (clearServiceInstance "claude-kiro-oauth" (uuid providerConfig) (world s))
    = (inr serviceAdapter, w1) →
  getUsageLimits serviceAdapter = Some getUsage →
  getUsage (world (refreshBeforeUsage serviceAdapter
                     (acquired "claude-kiro-oauth" (uuid providerConfig) w1 s)).2)
    = (inl e, w2) →
  _checkProviderHealthByUsage "claude-kiro-oauth" serviceAdapter providerConfig now
    (acquired "claude-kiro-oauth" (uuid providerConfig) w1 s)
    = (None,
       called GetUsageLimits w2
         (refreshBeforeUsage serviceAdapter
            (acquired "claude-kiro-oauth" (uuid providerConfig) w1 s)).2) ∧
  mgr (called GetUsageLimits w2
         (refreshBeforeUsage serviceAdapter
            (acquired "claude-kiro-oauth" (uuid providerConfig) w1 s)).2) = mgr s ∧
  _checkProviderHealth "claude-kiro-oauth" providerConfig forceCheck now s =
    (inr (Some
       (chatSendProbe "claude-kiro-oauth" serviceAdapter
          (checkModel "claude-kiro-oauth" providerConfig)
          (called GetUsageLimits w2
             (refreshBeforeUsage serviceAdapter
                (acquired "claude-kiro-oauth" (uuid providerConfig) w1 s)).2)).1),
     (chatSendProbe "claude-kiro-oauth" serviceAdapter
        (checkModel "claude-kiro-oauth" providerConfig)
        (called GetUsageLimits w2
           (refreshBeforeUsage serviceAdapter
              (acquired "claude-kiro-oauth" (uuid providerConfig) w1 s)).2)).2) ∧
  ∃ modelName calls,
    trace (_checkProviderHealth "claude-kiro-oauth" providerConfig forceCheck now s).2
    = trace (refreshBeforeUsage serviceAdapter
               (acquired "claude-kiro-oauth" (uuid providerConfig) w1 s)).2
      ++ GetUsageLimits
      :: GenerateContent modelName (kiroMessagesPayload modelName) :: calls.
Proof.
  intros Hgate Hadapter Husage Hthrow.
  set (s1 := acquired "claude-kiro-oauth" (uuid providerConfig) w1 s) in *.
  assert (HA : _checkProviderHealthByUsage "claude-kiro-oauth" serviceAdapter
                 providerConfig now s1
               = (None, called GetUsageLimits w2
                          (refreshBeforeUsage serviceAdapter s1).2)).
  { unfold _checkProviderHealthByUsage. rewrite Husage.
    unfold mbind, probe_bind, call.
    destruct (refreshBeforeUsage serviceAdapter s1) as [[] s2]. simpl in *.
    rewrite Hthrow. reflexivity. }
  assert (HB : _checkProviderHealth "claude-kiro-oauth" providerConfig forceCheck now s
               = (inr (Some
                    (chatSendProbe "claude-kiro-oauth" serviceAdapter
                       (checkModel "claude-kiro-oauth" providerConfig)
                       (called GetUsageLimits w2
                          (refreshBeforeUsage serviceAdapter s1).2)).1),
                  (chatSendProbe "claude-kiro-oauth" serviceAdapter
                     (checkModel "claude-kiro-oauth" providerConfig)
                     (called GetUsageLimits w2
                        (refreshBeforeUsage serviceAdapter s1).2)).2)).
  { unfold _checkProviderHealth.
    replace (negb (checkHealth providerConfig) && negb forceCheck) with false.
    2:{ destruct Hgate as [-> | ->]; [reflexivity|].
        destruct (checkHealth providerConfig); reflexivity. }
    unfold mbind at 1 2 3, probe_bind, getManager, call. simpl.
    rewrite Hadapter. simpl.
    unfold mbind at 1, probe_bind.
    match goal with
    | |- context [_checkProviderHealthByUsage _ _ _ _ ?st] =>
        replace st with s1
          by (unfold s1, acquired; rewrite <- app_assoc; reflexivity)
    end.
    rewrite HA. unfold mbind, probe_bind, mret, probe_ret.
    destruct (chatSendProbe _ _ _ _). reflexivity. }
  split; [exact HA|]. split.
  { simpl. rewrite refreshBeforeUsage_mgr. reflexivity. }
  split; [exact HB|].
  rewrite HB. simpl. rewrite checkModel_kiro.
  set (modelName := default "claude-haiku-4-5" (checkModelName providerConfig)).
  exists modelName. unfold chatSendProbe.
  change (_buildHealthCheckRequests "claude-kiro-oauth" modelName)
    with [kiroMessagesPayload modelName; kiroContentsPayload].
  unfold tryRequests, mbind, probe_bind, call, mret, probe_ret. simpl.
  destruct (generateContent serviceAdapter modelName (kiroMessagesPayload modelName) w2)
    as [[e1|[]] w3]; simpl.
  - destruct (generateContent serviceAdapter modelName kiroContentsPayload w3)
      as [[e2|[]] w4]; simpl; eexists; rewrite <- !app_assoc; reflexivity.
  - eexists. rewrite <- !app_assoc. reflexivity.
Qed.

Lemma usage_query_throws_falls_back_witness :
  (@_checkProviderHealth scriptedExternals "claude-kiro-oauth" kiroEntry false noon
     firstShapeRejected).1 = inr (Some (probeSucceeded "claude-haiku-4-5")) ∧
  trace (@_checkProviderHealth scriptedExternals "claude-kiro-oauth" kiroEntry false
           noon firstShapeRejected).2
    = [ClearServiceInstance "claude-kiro-oauth" (Some "K");
       GetServiceAdapter "claude-kiro-oauth";
       GetUsageLimits;
       GenerateContent "claude-haiku-4-5" (kiroMessagesPayload "claude-haiku-4-5");
       GenerateContent "claude-haiku-4-5" kiroContentsPayload].
Proof.
  destruct (@usage_query_throws_falls_back scriptedExternals kiroEntry false noon
              firstShapeRejected scriptedAdapter
              (λ w, (inl {| message := Some "usage limits unavailable" |}, w))
              (world firstShapeRejected) (world firstShapeRejected)
              {| message := Some "usage limits unavailable" |}
              (or_introl eq_refl) eq_refl eq_refl eq_refl) as (_ & _ & H3 & _).
  rewrite H3. split; vm_compute; reflexivity.
Defined.

(** ** The health invariant *)

Lemma HealthInv_pool (m : Manager) (providerType : string) :
  HealthInv m → Forall dated (pool m providerType).
Proof.
  intros Hinv. unfold pool.
  destruct (providerStatus m !! providerType) as [l|] eqn:Hl; simpl.
  - exact (Hinv _ _ Hl).
  - constructor.
Qed.

Lemma HealthInv_lookup (m : Manager) (providerType : string) (i : nat) (c : Config) :
  HealthInv m → pool m providerType !! i = Some c → dated c.
Proof.
  intros Hinv Hi. pose proof (HealthInv_pool m providerType Hinv) as Hall.
  rewrite Forall_lookup in Hall. exact (Hall i c Hi).
Qed.

Lemma HealthInv_found (m : Manager) (providerType : string) (u : option string)
    (i : nat) (c : Config) :
  HealthInv m → _findProvider m providerType u = Some (i, c) → dated c.
Proof.
  intros Hinv Hf. apply _findProvider_Some in Hf as [Hi _].
  exact (HealthInv_lookup _ _ _ _ Hinv Hi).
Qed.

Lemma HealthInv_set_pool (m : Manager) (providerType : string) (l : list Config) :
  HealthInv m → Forall dated l →
  HealthInv (set_providerStatus (<[providerType := l]> (providerStatus m)) m).
Proof.
  intros Hinv Hl ty l'. simpl. rewrite lookup_insert.
  destruct (decide (providerType = ty)); [intros [= <-]; exact Hl|apply Hinv].
Qed.

Lemma HealthInv_setEntry (m : Manager) (providerType : string) (i : nat) (c : Config) :
  HealthInv m → dated c → HealthInv (setEntry providerType i c m).
Proof.
  intros Hinv Hc. apply HealthInv_set_pool; [exact Hinv|].
  apply Forall_insert; [apply HealthInv_pool, Hinv|exact Hc].
Qed.

Lemma HealthInv__debouncedSave (m : Manager) (providerType : string) :
  HealthInv m → HealthInv (_debouncedSave providerType m).
Proof. intros Hinv. exact Hinv. Qed.

Lemma HealthInv_set_roundRobinIndex (m : Manager) (v : gmap string nat) :
  HealthInv m → HealthInv (set_roundRobinIndex v m).
Proof. intros Hinv. exact Hinv. Qed.

(** The case analysis shared by the preservation proofs below. *)
Ltac split_ifs :=
  repeat match goal with
         | |- context [if ?b then _ else _] => destruct b
         end.

Lemma markProviderUnhealthy_inv providerType providerConfig errorMessage now m :
  HealthInv m →
  HealthInv (markProviderUnhealthy providerType providerConfig errorMessage now m).
Proof.
  intros Hinv. unfold markProviderUnhealthy.
  destruct (_findProvider m providerType _) as [[i c]|]; [|exact Hinv].
  apply HealthInv__debouncedSave, HealthInv_setEntry; [exact Hinv|].
  unfold dated. split_ifs; simpl; discriminate.
Qed.

Lemma markProviderHealthy_inv providerType providerConfig reset model now usedAt m :
  HealthInv m →
  HealthInv (markProviderHealthy providerType providerConfig reset model now usedAt m).
Proof.
  intros Hinv. unfold markProviderHealthy.
  destruct (_findProvider m providerType _) as [[i c]|]; [|exact Hinv].
  apply HealthInv__debouncedSave, HealthInv_setEntry; [exact Hinv|].
  unfold dated. split_ifs; simpl; discriminate.
Qed.

Lemma resetProviderCounters_inv providerType providerConfig m :
  HealthInv m → HealthInv (resetProviderCounters providerType providerConfig m).
Proof.
  intros Hinv. unfold resetProviderCounters.
  destruct (_findProvider m providerType _) as [[i c]|] eqn:Hf; [|exact Hinv].
  apply HealthInv__debouncedSave, HealthInv_setEntry; [exact Hinv|].
  exact (HealthInv_found _ _ _ _ _ Hinv Hf).
Qed.

Lemma disableProvider_inv providerType providerConfig m :
  HealthInv m → HealthInv (disableProvider providerType providerConfig m).
Proof.
  intros Hinv. unfold disableProvider.
  destruct (_findProvider m providerType _) as [[i c]|] eqn:Hf; [|exact Hinv].
  apply HealthInv__debouncedSave, HealthInv_setEntry; [exact Hinv|].
  exact (HealthInv_found _ _ _ _ _ Hinv Hf).
Qed.

Lemma enableProvider_inv providerType providerConfig m :
  HealthInv m → HealthInv (enableProvider providerType providerConfig m).
Proof.
  intros Hinv. unfold enableProvider.
  destruct (_findProvider m providerType _) as [[i c]|] eqn:Hf; [|exact Hinv].
  apply HealthInv__debouncedSave, HealthInv_setEntry; [exact Hinv|].
  exact (HealthInv_found _ _ _ _ _ Hinv Hf).
Qed.

Lemma cacheUsageInfo_inv providerType u info now m :
  HealthInv m → HealthInv (cacheUsageInfo providerType u info now m).
Proof.
  intros Hinv. unfold cacheUsageInfo.
  destruct (_findProvider m providerType _) as [[i c]|] eqn:Hf; [|exact Hinv].
  apply HealthInv_setEntry; [exact Hinv|].
  exact (HealthInv_found _ _ _ _ _ Hinv Hf).
Qed.

Lemma healthCheckCompletion_inv providerType i outcome t1 t2 m :
  HealthInv m → HealthInv (healthCheckCompletion providerType i outcome t1 t2 m).
Proof.
  intros Hinv. unfold healthCheckCompletion.
  destruct (pool m providerType !! i) as [c|]; [|exact Hinv].
  destruct outcome as [error|[healthResult|]].
  - apply markProviderUnhealthy_inv, Hinv.
  - destruct (Result.success healthResult).
    + apply markProviderHealthy_inv, Hinv.
    + pose proof (markProviderUnhealthy_inv providerType (Some c)
                    (Result.errorMessage healthResult) t1 m Hinv) as Hinv'.
      destruct (pool _ providerType !! i) as [c'|] eqn:Hc'; [|exact Hinv'].
      apply HealthInv_setEntry; [exact Hinv'|].
      pose proof (HealthInv_lookup _ _ _ _ Hinv' Hc') as Hd.
      destruct (truthy_str (Result.modelName healthResult)); exact Hd.
  - apply resetProviderCounters_inv, Hinv.
Qed.

Lemma recoverCompletion_inv providerType providerConfig outcome t1 t2 m :
  HealthInv m → HealthInv (recoverCompletion providerType providerConfig outcome t1 t2 m).
Proof.
  intros Hinv. unfold recoverCompletion.
  destruct outcome as [error|[healthResult|]]; [exact Hinv| |exact Hinv].
  destruct (Result.success healthResult).
  - apply markProviderHealthy_inv, Hinv.
  - destruct (_findProvider m providerType _) as [[i c]|] eqn:Hf; [|exact Hinv].
    apply HealthInv__debouncedSave, HealthInv_setEntry; [exact Hinv|].
    pose proof (HealthInv_found _ _ _ _ _ Hinv Hf) as Hd.
    destruct (truthy_str (Result.modelName healthResult)); exact Hd.
Qed.

Lemma sweepOne_dated parseDate interval now acc i :
  Forall dated acc.1 → Forall dated (sweepOne parseDate interval now acc i).1.
Proof.
  intros Hall. unfold sweepOne. destruct (acc.1 !! i) as [c|]; [|exact Hall].
  destruct (recoveryDue parseDate interval now c); [|exact Hall].
  simpl. apply Forall_insert; [exact Hall|]. unfold dated. simpl. discriminate.
Qed.

Lemma foldl_sweepOne_dated parseDate interval now enabled acc :
  Forall dated acc.1 →
  Forall dated (foldl (sweepOne parseDate interval now) acc enabled).1.
Proof.
  revert acc. induction enabled as [|i enabled IH]; intros acc Hall; [exact Hall|].
  simpl. apply IH, sweepOne_dated, Hall.
Qed.

Lemma recoverySweep_dated parseDate interval now l enabled :
  Forall dated l → Forall dated (recoverySweep parseDate interval now l enabled).1.
Proof. intros Hall. apply foldl_sweepOne_dated. exact Hall. Qed.

Lemma selectProvider_inv parseDate providerType requestedModel skip now usedAt m :
  HealthInv m →
  HealthInv (selectProvider parseDate providerType requestedModel skip now usedAt m).1.1.
Proof.
  intros Hinv. unfold selectProvider.
  destruct (String.eqb providerType ""); [exact Hinv|].
  destruct (enabledProviders (pool m providerType) requestedModel) as [|e0 enabled] eqn:He;
    [exact Hinv|].
  rewrite <- He.
  pose proof (recoverySweep_dated parseDate (healthCheckInterval m) now
                (pool m providerType) (enabledProviders (pool m providerType) requestedModel)
                (HealthInv_pool m providerType Hinv)) as Hsw.
  destruct (recoverySweep _ _ _ _ _) as [swept started]. simpl in Hsw.
  destruct (roundRobin _ _) as [selected nextIndex].
  pose proof (HealthInv_set_roundRobinIndex _
                (<[indexKey providerType requestedModel := nextIndex]> (roundRobinIndex m))
                (HealthInv_set_pool m providerType swept Hinv Hsw)) as Hinv'.
  destruct (selected ≫= _) as [[i c]|] eqn:Hsel; [|exact Hinv'].
  destruct skip; [exact Hinv'|].
  simpl. apply HealthInv__debouncedSave, HealthInv_setEntry; [exact Hinv'|].
  destruct selected as [i'|]; [|discriminate]. simpl in Hsel.
  destruct (swept !! i') as [c'|] eqn:Hc'; [|discriminate].
  injection Hsel as <- <-.
  rewrite Forall_lookup in Hsw. exact (Hsw i' c' Hc').
Qed.

Lemma _flushPendingSaves_inv read m :
  HealthInv m → HealthInv (_flushPendingSaves read m).1.
Proof.
  intros Hinv. unfold _flushPendingSaves, flushBegin.
  destruct (pendingSaves m); exact Hinv.
Qed.

Lemma initializeEntry_dated (e : Doc.Entry) : docDated e → dated (initializeEntry e).
Proof.
  unfold docDated, dated. simpl. intros He Hh.
  destruct (Doc.isHealthy e) as [[|]|]; try discriminate.
  specialize (He eq_refl). unfold or_null. rewrite He.
  destruct (default None (Doc.lastErrorTime e)); [discriminate|discriminate].
Qed.

Lemma initializeProviderStatus_inv (doc : Document) (options : Options) :
  DocHealthInv doc → HealthInv (initializeProviderStatus doc options).
Proof.
  intros Hdoc ty l. simpl. rewrite lookup_fmap.
  destruct (doc !! ty) as [es|] eqn:Hes; [|discriminate].
  intros [= <-]. apply Forall_map.
  eapply Forall_impl; [exact (Hdoc ty es Hes)|].
  intros e He. apply initializeEntry_dated, He.
Qed.

Lemma step_inv parseDate m m' :
  step parseDate m m' → HealthInv m → HealthInv m'.
Proof.
  intros Hstep Hinv. destruct Hstep.
  - apply selectProvider_inv, Hinv.
  - apply markProviderUnhealthy_inv, Hinv.
  - apply markProviderHealthy_inv, Hinv.
  - apply resetProviderCounters_inv, Hinv.
  - apply disableProvider_inv, Hinv.
  - apply enableProvider_inv, Hinv.
  - apply cacheUsageInfo_inv, Hinv.
  - apply healthCheckCompletion_inv, Hinv.
  - apply recoverCompletion_inv, Hinv.
  - apply _flushPendingSaves_inv, Hinv.
Qed.

(** C2 (as the code has it): when every entry that the loaded document
    stores as unhealthy has a non-empty [lastErrorTime], then after
    initialization and after every operation (selection, markUnhealthy,
    markHealthy, resetCounters, disable, enable, completion of a probe,
    flush) every entry with [isHealthy = false] has a non-null
    [lastErrorTime]. *)
Theorem health_invariant (parseDate : string → option Z) (doc : Document)
    (options : Options) (m : Manager) :
  DocHealthInv doc →
  rtc (step parseDate) (initializeProviderStatus doc options) m →
  ∀ providerType i c,
    pool m providerType !! i = Some c → isHealthy c = false → lastErrorTime c ≠ None.
Proof.
  intros Hdoc Hreach.
  assert (HealthInv m) as Hinv.
  { eapply (rtc_ind_r (λ m, HealthInv m)); [| |exact Hreach].
    - apply initializeProviderStatus_inv, Hdoc.
    - intros m1 m2 _ Hstep Hinv. exact (step_inv _ _ _ Hstep Hinv). }
  intros providerType i c Hc. exact (HealthInv_lookup _ _ _ _ Hinv Hc).
Qed.

(** C2 as stated fails at initialization: the entry of [undatedDoc] is
    loaded as unhealthy with [lastErrorTime = null]. *)
Lemma initialization_keeps_undated_entry :
  ∃ c, pool (initializeProviderStatus undatedDoc noOptions) "claude-custom" !! 0%nat
       = Some c ∧ isHealthy c = false ∧ lastErrorTime c = None.
Proof. eexists. split; [reflexivity|]. split; reflexivity. Qed.

Lemma datedDoc_ok : DocHealthInv datedDoc.
Proof.
  intros ty l Hl. unfold datedDoc in Hl.
  apply lookup_singleton_Some in Hl as [_ <-].
  repeat constructor.
Qed.

(** The stored unhealthy entry stays dated when its counters are reset. *)
Lemma health_invariant_witness :
  ∃ c, pool (resetProviderCounters "claude-custom"
               (pool (initializeProviderStatus datedDoc noOptions) "claude-custom" !! 0%nat)
               (initializeProviderStatus datedDoc noOptions)) "claude-custom" !! 0%nat
       = Some c ∧
       isHealthy c = false ∧ lastErrorTime c ≠ None.
Proof.
  eexists. split; [reflexivity|]. split; [reflexivity|].
  apply (health_invariant parseExample datedDoc noOptions
           (resetProviderCounters "claude-custom"
              (pool (initializeProviderStatus datedDoc noOptions) "claude-custom" !! 0%nat)
              (initializeProviderStatus datedDoc noOptions))
           datedDoc_ok
           (rtc_once _ _ (step_resetCounters parseExample _ _ _))
           "claude-custom" 0%nat); reflexivity.
Defined.

(** ** Round-robin fairness *)

Lemma div_succ (n y : nat) :
  n ≠ 0%nat →
  ((y + 1) / n = y / n + (if ((y + 1) mod n =? 0)%nat then 1 else 0))%nat.
Proof.
  intros Hn.
  pose proof (Nat.div_mod_eq y n) as Hy.
  pose proof (Nat.mod_upper_bound y n Hn) as Hr.
  pose proof (Nat.div_mod_eq (y + 1) n) as Hy1.
  pose proof (Nat.mod_upper_bound (y + 1) n Hn) as Hr1.
  destruct (Nat.eqb_spec ((y + 1) mod n) 0) as [H0|H0]; nia.
Qed.

Lemma mod_shift (n x a : nat) :
  (a < n)%nat → (x mod n = a ↔ (x + (n - a)) mod n = 0)%nat.
Proof.
  intros Ha. assert (n ≠ 0)%nat as Hn by lia.
  pose proof (Nat.div_mod_eq x n) as Hx.
  pose proof (Nat.mod_upper_bound x n Hn) as Hr.
  pose proof (Nat.div_mod_eq (x + (n - a)) n) as Hx1.
  pose proof (Nat.mod_upper_bound (x + (n - a)) n Hn) as Hr1.
  set (q := (x / n)%nat) in *. set (Q := ((x + (n - a)) / n)%nat) in *.
  split; intros H; destruct (Nat.lt_trichotomy Q (q + 1)) as [Hlt|[Heq|Hgt]]; nia.
Qed.

Lemma window_count (n u k : nat) :
  n ≠ 0%nat →
  ((u + k) / n - u / n = k / n ∨ (u + k) / n - u / n = (k + n - 1) / n)%nat.
Proof.
  intros Hn.
  pose proof (Nat.div_mod_eq u n). pose proof (Nat.mod_upper_bound u n Hn).
  pose proof (Nat.div_mod_eq k n). pose proof (Nat.mod_upper_bound k n Hn).
  pose proof (Nat.div_mod_eq (u + k) n). pose proof (Nat.mod_upper_bound (u + k) n Hn).
  pose proof (Nat.div_mod_eq (k + n - 1) n).
  pose proof (Nat.mod_upper_bound (k + n - 1) n Hn).
  set (q1 := (u / n)%nat) in *. set (q2 := (k / n)%nat) in *.
  set (q3 := ((u + k) / n)%nat) in *. set (q4 := ((k + n - 1) / n)%nat) in *.
  assert (q3 = q1 + q2 ∨ q3 = q1 + q2 + 1)%nat as Hq3.
  { destruct (Nat.lt_trichotomy q3 (q1 + q2)) as [|[|]]; [nia|lia|].
    destruct (Nat.lt_trichotomy q3 (q1 + q2 + 1)) as [|[|]]; [lia|lia|nia]. }
  assert (q4 = q2 ∨ q4 = q2 + 1)%nat as Hq4.
  { destruct (Nat.lt_trichotomy q4 q2) as [|[|]]; [nia|lia|].
    destruct (Nat.lt_trichotomy q4 (q2 + 1)) as [|[|]]; [lia|lia|nia]. }
  destruct Hq3 as [-> | ->]; [left; lia|].
  destruct Hq4 as [Hq4 | Hq4]; [|right; lia].
  exfalso. nia.
Qed.

Lemma hits_formula (n s k : nat) :
  n ≠ 0%nat → (1 ≤ s)%nat →
  hits n s k = ((s - 1 + k) / n - (s - 1) / n)%nat.
Proof.
  intros Hn Hs. unfold hits. induction k as [|k IH].
  - simpl. rewrite Nat.add_0_r. lia.
  - rewrite seq_S, List.filter_app, length_app, IH. simpl.
    replace (s - 1 + S k)%nat with ((s - 1 + k) + 1)%nat by lia.
    rewrite (div_succ n (s - 1 + k) Hn).
    replace (s - 1 + k + 1)%nat with (s + k)%nat by lia.
    assert ((s - 1) / n ≤ (s - 1 + k) / n)%nat
      by (apply Nat.Div0.div_le_mono; lia).
    destruct ((s + k) mod n =? 0)%nat; simpl; lia.
Qed.

Lemma hits_fair (n s k : nat) :
  n ≠ 0%nat → (1 ≤ s)%nat →
  (hits n s k = k / n ∨ hits n s k = (k + n - 1) / n)%nat.
Proof.
  intros Hn Hs. rewrite hits_formula by assumption. apply window_count, Hn.
Qed.

Lemma keep_flags (P : Config → bool) (l l' : list Config) (refs : list nat) :
  (∀ c c', flags c = flags c' → P c = P c') →
  flags <$> l = flags <$> l' → keep P l refs = keep P l' refs.
Proof.
  intros HP Heq. unfold keep. apply List.filter_ext. intros i.
  assert ((flags <$> l) !! i = (flags <$> l') !! i) as Hi by (rewrite Heq; reflexivity).
  rewrite !list_lookup_fmap in Hi.
  destruct (l !! i) as [c|], (l' !! i) as [c'|]; simpl in *; try discriminate;
    [|reflexivity].
  apply HP. congruence.
Qed.

Lemma healthyEnabled_flags (l l' : list Config) :
  flags <$> l = flags <$> l' → healthyEnabled l = healthyEnabled l'.
Proof.
  intros Heq. unfold healthyEnabled.
  assert (length l = length l') as ->.
  { apply (f_equal length) in Heq. rewrite !length_fmap in Heq. exact Heq. }
  rewrite (keep_flags (λ c, negb (isDisabled c)) l l') by
    (assumption || (intros c c' [= -> _]; reflexivity)).
  apply keep_flags; [|assumption]. intros c c' [= _ ->]. reflexivity.
Qed.

Lemma sweepOne_flags parseDate interval now acc i :
  flags <$> (sweepOne parseDate interval now acc i).1 = flags <$> acc.1.
Proof.
  unfold sweepOne. destruct (acc.1 !! i) as [c|] eqn:Hc; [|reflexivity].
  destruct (recoveryDue parseDate interval now c); [|reflexivity].
  simpl. rewrite list_fmap_insert. apply list_insert_id.
  rewrite list_lookup_fmap, Hc. reflexivity.
Qed.

Lemma recoverySweep_flags parseDate interval now l enabled :
  flags <$> (recoverySweep parseDate interval now l enabled).1 = flags <$> l.
Proof.
  unfold recoverySweep.
  change (flags <$> l) with (flags <$> (l, @nil nat).1).
  generalize (l, @nil nat). induction enabled as [|i enabled IH]; intros acc;
    [reflexivity|].
  simpl. rewrite IH. apply sweepOne_flags.
Qed.

(** One selection on a family with healthy enabled entries [cs]. *)
Lemma selectProvider_step parseDate providerType skip now usedAt m cs :
  providerType ≠ "" →
  healthyEnabled (pool m providerType) = cs →
  cs ≠ [] →
  (selectProvider parseDate providerType None skip now usedAt m).1.2
    = cs !! (default 0 (roundRobinIndex m !! providerType) mod length cs)%nat ∧
  healthyEnabled
    (pool (selectProvider parseDate providerType None skip now usedAt m).1.1 providerType)
    = cs ∧
  roundRobinIndex (selectProvider parseDate providerType None skip now usedAt m).1.1
    !! providerType
    = Some ((default 0 (roundRobinIndex m !! providerType) + 1) mod length cs)%nat.
Proof.
  intros Hty Hcs Hne. unfold selectProvider.
  destruct (String.eqb_spec providerType "") as [|_]; [contradiction|].
  remember (pool m providerType) as l eqn:Hl.
  unfold enabledProviders, indexKey. simpl.
  remember (keep (λ c, negb (isDisabled c)) l (seq 0 (length l))) as enabled eqn:Hen.
  assert (keep isHealthy l enabled = cs) as Hcs' by (rewrite Hen; exact Hcs).
  pose proof (recoverySweep_flags parseDate (healthCheckInterval m) now l enabled) as Hfl.
  destruct (recoverySweep parseDate (healthCheckInterval m) now l enabled)
    as [swept started]. simpl in Hfl.
  assert (candidateProviders swept enabled = cs) as Hcand.
  { unfold candidateProviders.
    rewrite (keep_flags isHealthy swept l) by
      (assumption || (intros c c' [= _ ->]; reflexivity)).
    rewrite Hcs'. destruct cs; [contradiction|reflexivity]. }
  destruct enabled as [|e0 enabled'].
  { exfalso. apply Hne. rewrite <- Hcs'. reflexivity. }
  rewrite Hcand. unfold roundRobin.
  set (i0 := default 0%nat (roundRobinIndex m !! providerType)).
  destruct (roundRobin_in_bounds cs i0 Hne) as [(i & Hi & Hin) _].
  unfold roundRobin in Hi. simpl in Hi. rewrite Hi. simpl.
  assert (i < length swept)%nat as Hlt.
  { rewrite <- Hcs' in Hin. apply keep_elem in Hin as [_ (c & Hc & _)].
    apply lookup_lt_Some in Hc.
    apply (f_equal length) in Hfl. rewrite !length_fmap in Hfl. lia. }
  destruct (lookup_lt_is_Some_2 swept i Hlt) as [c Hc]. rewrite Hc. simpl.
  destruct skip; simpl.
  - split; [reflexivity|]. split; [|apply lookup_insert_eq].
    unfold pool. simpl. rewrite lookup_insert_eq. simpl.
    rewrite (healthyEnabled_flags swept l Hfl). exact Hcs.
  - split; [reflexivity|]. split; [|apply lookup_insert_eq].
    unfold pool. simpl. rewrite lookup_insert_eq. simpl.
    unfold pool. simpl. rewrite lookup_insert_eq. simpl.
    rewrite <- Hcs. apply healthyEnabled_flags.
    rewrite list_fmap_insert, <- Hfl. apply list_insert_id.
    rewrite list_lookup_fmap, Hc. reflexivity.
Qed.

Lemma selectMany_results parseDate providerType cs :
  providerType ≠ "" → cs ≠ [] →
  ∀ calls m,
    healthyEnabled (pool m providerType) = cs →
    (selectMany parseDate providerType calls m).2 =
    map (λ j, cs !! ((default 0 (roundRobinIndex m !! providerType) + j)
                       mod length cs)%nat)
        (seq 0 (length calls)).
Proof.
  intros Hty Hne calls. induction calls as [|c calls IH]; intros m Hcs; [reflexivity|].
  destruct (selectProvider_step parseDate providerType (skipUsageCount c) (now c)
              (usedAt c) m cs Hty Hcs Hne) as (Hr & Hcs' & Hidx).
  simpl.
  destruct (selectProvider parseDate providerType None (skipUsageCount c) (now c)
              (usedAt c) m) as [[m1 r] started].
  simpl in Hr, Hcs', Hidx. specialize (IH m1 Hcs').
  destruct (selectMany parseDate providerType calls m1) as [m2 rs].
  simpl in IH |- *. rewrite IH, Hr, Nat.add_0_r. f_equal.
  rewrite <- seq_shift, map_map. apply map_ext. intros j.
  rewrite Hidx. simpl. rewrite Nat.Div0.add_mod_idemp_l.
  do 2 f_equal. lia.
Qed.

Lemma length_filter_map {A B} (P : B → bool) (f : A → B) (l : list A) :
  length (List.filter P (map f l)) = length (List.filter (λ x, P (f x)) l).
Proof.
  induction l as [|x l IH]; [reflexivity|].
  simpl. destruct (P (f x)); simpl; rewrite IH; reflexivity.
Qed.

Lemma timesReturned_cyclic (cs : list nat) (i0 k a p : nat) :
  NoDup cs → cs !! a = Some p →
  timesReturned p (map (λ j, cs !! ((i0 + j) mod length cs)%nat) (seq 0 k))
  = hits (length cs) (i0 + (length cs - a)) k.
Proof.
  intros Hnd Ha. pose proof (lookup_lt_Some _ _ _ Ha) as Hlt.
  unfold timesReturned, hits. rewrite length_filter_map. f_equal.
  apply List.filter_ext. intros j.
  replace (i0 + (length cs - a) + j)%nat with (i0 + j + (length cs - a))%nat by lia.
  destruct (Nat.eqb_spec ((i0 + j + (length cs - a)) mod length cs) 0) as [H0|H0].
  - apply bool_decide_eq_true_2.
    apply (proj2 (mod_shift (length cs) (i0 + j) a Hlt)) in H0.
    rewrite H0. exact Ha.
  - apply bool_decide_eq_false_2. intros Hp. apply H0.
    apply (proj1 (mod_shift (length cs) (i0 + j) a Hlt)).
    exact (NoDup_lookup _ _ _ _ Hnd Hp Ha).
Qed.

Lemma timesReturned_absent (cs : list nat) (i0 k p : nat) :
  p ∉ cs →
  timesReturned p (map (λ j, cs !! ((i0 + j) mod length cs)%nat) (seq 0 k)) = 0%nat.
Proof.
  intros Hp. unfold timesReturned. rewrite length_filter_map.
  induction (seq 0 k) as [|j js IH]; [reflexivity|].
  simpl. rewrite bool_decide_eq_false_2; [exact IH|].
  intros Hj. apply Hp. eapply list_elem_of_lookup_2, Hj.
Qed.

Lemma healthyEnabled_NoDup (l : list Config) : NoDup (healthyEnabled l).
Proof.
  unfold healthyEnabled, keep. apply NoDup_ListNoDup.
  do 2 apply List.NoDup_filter. apply List.seq_NoDup.
Qed.

(** C3 (as the code has it): on a family with [n ≥ 1] healthy enabled
    entries, [k] successive selections with no requested model go through
    the healthy enabled entries cyclically in the order of the list,
    starting from the entry at the stored index modulo [n] (the first
    entry only when that is 0, as in a new manager); each healthy enabled
    entry is returned [k / n] (floor) or [(k + n - 1) / n] (ceiling) times
    and no other entry is returned.  Five selections over the two entries
    A, B of a fresh pool return A, B, A, B, A and leave the usage counts 3
    and 2. *)
Theorem round_robin_fair (parseDate : string → option Z) (m : Manager)
    (providerType : string) (calls : list SelectCall) :
  providerType ≠ "" →
  healthyEnabled (pool m providerType) ≠ [] →
  (selectMany parseDate providerType calls m).2 =
    map (λ j, healthyEnabled (pool m providerType)
                !! ((default 0 (roundRobinIndex m !! providerType) + j)
                      mod length (healthyEnabled (pool m providerType)))%nat)
        (seq 0 (length calls)) ∧
  (default 0%nat (roundRobinIndex m !! providerType) = 0%nat →
   (selectMany parseDate providerType calls m).2 =
     map (λ j, healthyEnabled (pool m providerType)
                 !! (j mod length (healthyEnabled (pool m providerType)))%nat)
         (seq 0 (length calls))) ∧
  (∀ p, p ∈ healthyEnabled (pool m providerType) →
     timesReturned p (selectMany parseDate providerType calls m).2
       = (length calls / length (healthyEnabled (pool m providerType)))%nat ∨
     timesReturned p (selectMany parseDate providerType calls m).2
       = ((length calls + length (healthyEnabled (pool m providerType)) - 1)
            / length (healthyEnabled (pool m providerType)))%nat) ∧
  (∀ p, p ∉ healthyEnabled (pool m providerType) →
     timesReturned p (selectMany parseDate providerType calls m).2 = 0%nat) ∧
  ((selectMany parseExample "openai-custom" fiveCalls twoEntryPool).2
     = [Some 0; Some 1; Some 0; Some 1; Some 0]%nat ∧
   uuid <$> pool (selectMany parseExample "openai-custom" fiveCalls twoEntryPool).1
              "openai-custom" = [Some "A"; Some "B"] ∧
   usageCount <$> pool (selectMany parseExample "openai-custom" fiveCalls twoEntryPool).1
                    "openai-custom" = [3; 2]).
Proof.
  intros Hty Hne.
  pose proof (selectMany_results parseDate providerType _ Hty Hne calls m eq_refl) as Hrs.
  set (cs := healthyEnabled (pool m providerType)) in *.
  assert (length cs ≠ 0%nat) as Hn by (destruct cs; [contradiction|discriminate]).
  split; [exact Hrs|]. split; [|split; [|split]].
  - intros H0. rewrite Hrs, H0. reflexivity.
  - intros p Hp. rewrite Hrs. apply list_elem_of_lookup in Hp as [a Ha].
    rewrite (timesReturned_cyclic cs _ _ a p (healthyEnabled_NoDup _) Ha).
    apply hits_fair; [exact Hn|].
    pose proof (lookup_lt_Some _ _ _ Ha). lia.
  - intros p Hp. rewrite Hrs. apply timesReturned_absent, Hp.
  - split; [vm_compute; reflexivity|]. split; vm_compute; reflexivity.
Qed.

Lemma round_robin_fair_witness :
  (selectMany parseExample "openai-custom" fiveCalls staleIndexPool).2
    = [Some 1; Some 0; Some 1; Some 0; Some 1]%nat ∧
  (timesReturned 0 (selectMany parseExample "openai-custom" fiveCalls staleIndexPool).2
     = (5 / 2)%nat ∨
   timesReturned 0 (selectMany parseExample "openai-custom" fiveCalls staleIndexPool).2
     = ((5 + 2 - 1) / 2)%nat).
Proof.
  assert (Hty : "openai-custom" ≠ "") by discriminate.
  assert (Hne : healthyEnabled (pool staleIndexPool "openai-custom") ≠ [])
    by (vm_compute; discriminate).
  destruct (round_robin_fair parseExample staleIndexPool "openai-custom" fiveCalls
              Hty Hne) as (Hrs & _ & Hfair & _).
  split; [rewrite Hrs; vm_compute; reflexivity|].
  apply (Hfair 0%nat). vm_compute. left.
Defined.

(** C3 as stated fails: after one selection on the fresh pool of the two
    healthy entries A, B the stored index is 1, and the next five
    selections return B, A, B, A, B: they do not start from the first
    entry, and the usage counts become A:3, B:3. *)
Lemma round_robin_starts_at_stored_index :
  rtc (step parseExample) twoEntryPool afterOneSelection ∧
  healthyEnabled (pool afterOneSelection "openai-custom") = [0; 1]%nat ∧
  roundRobinIndex afterOneSelection !! "openai-custom" = Some 1%nat ∧
  (selectMany parseExample "openai-custom" fiveCalls afterOneSelection).2
    = [Some 1; Some 0; Some 1; Some 0; Some 1]%nat ∧
  (selectMany parseExample "openai-custom" fiveCalls afterOneSelection).2
    ≠ [Some 0; Some 1; Some 0; Some 1; Some 0]%nat ∧
  usageCount <$> pool (selectMany parseExample "openai-custom" fiveCalls
                         afterOneSelection).1 "openai-custom" = [3; 3].
Proof.
  split; [apply rtc_once, step_select|].
  split; [vm_compute; reflexivity|]. split; [vm_compute; reflexivity|].
  split; [vm_compute; reflexivity|]. split; [vm_compute; discriminate|].
  vm_compute. reflexivity.
Qed.

(** ** The probes run through the operations above *)

Section ProbeSteps.
Context `{Externals} (parseDate : string → option Z).

Lemma call_mgr {A} (c : Call) (f : World → A * World) (s : St) :
  mgr (call c f s).2 = mgr s.
Proof. unfold call. destruct (f (world s)). reflexivity. Qed.

Lemma tryRequests_mgr (serviceAdapter : Adapter World RawUsage) (modelName : string)
    (requests : list Request) (lastError : option Error) (s : St) :
  mgr (tryRequests serviceAdapter modelName requests lastError s).2 = mgr s.
Proof.
  revert lastError s. induction requests as [|r requests IH]; intros lastError s;
    [reflexivity|].
  simpl. unfold mbind, probe_bind.
  pose proof (call_mgr (GenerateContent modelName r)
                (generateContent serviceAdapter modelName r) s) as Hc.
  destruct (call _ _ s) as [[error|[]] s1]; simpl in Hc.
  - rewrite IH. exact Hc.
  - exact Hc.
Qed.

Lemma chatSendProbe_mgr (providerType : string)
    (serviceAdapter : Adapter World RawUsage) (modelName : option string) (s : St) :
  mgr (chatSendProbe providerType serviceAdapter modelName s).2 = mgr s.
Proof.
  unfold chatSendProbe. destruct modelName; [apply tryRequests_mgr|reflexivity].
Qed.

Lemma _checkProviderHealthByUsage_mgr (providerType : string)
    (serviceAdapter : Adapter World RawUsage) (providerConfig : Config) (now : Date)
    (s : St) :
  mgr (_checkProviderHealthByUsage providerType serviceAdapter providerConfig now s).2
    = mgr s ∨
  ∃ info,
    mgr (_checkProviderHealthByUsage providerType serviceAdapter providerConfig now s).2
    = cacheUsageInfo providerType (uuid providerConfig) info now (mgr s).
Proof.
  remember (_checkProviderHealthByUsage providerType serviceAdapter providerConfig
              now s) as out eqn:Hout.
  revert Hout. unfold _checkProviderHealthByUsage.
  destruct (getUsageLimits serviceAdapter) as [getUsage|];
    [|intros ->; left; reflexivity].
  unfold mbind at 1, probe_bind.
  pose proof (refreshBeforeUsage_mgr serviceAdapter s) as Hr.
  destruct (refreshBeforeUsage serviceAdapter s) as [[] s1]. simpl in Hr.
  unfold mbind at 1, probe_bind.
  pose proof (call_mgr GetUsageLimits getUsage s1) as Hc.
  destruct (call GetUsageLimits getUsage s1) as [[error|rawUsageData] s2];
    simpl in Hc; [intros ->; left; simpl; congruence|].
  destruct (negb (String.eqb providerType MODEL_PROVIDER.KIRO_API));
    [intros ->; left; simpl; congruence|].
  destruct (formatKiroUsage rawUsageData) as [error|[formattedUsage|]];
    [intros ->; left; simpl; congruence| |intros ->; left; simpl; congruence].
  intros ->. right. eexists. unfold mbind, probe_bind, modifyManager. simpl.
  rewrite Hc, Hr. reflexivity.
Qed.

Lemma _checkProviderHealth_steps (providerType : string) (providerConfig : Config)
    (forceCheck : bool) (now : Date) (s : St) :
  rtc (step parseDate) (mgr s)
    (mgr (_checkProviderHealth providerType providerConfig forceCheck now s).2).
Proof.
  remember (_checkProviderHealth providerType providerConfig forceCheck now s)
    as out eqn:Hout.
  revert Hout. unfold _checkProviderHealth.
  destruct (negb (checkHealth providerConfig) && negb forceCheck);
    [intros ->; apply rtc_refl|].
  unfold mbind at 1, probe_bind, getManager.
  unfold mbind at 1, probe_bind.
  match goal with
  | |- context [call ?c ?f s] =>
      pose proof (call_mgr c f s) as H0; destruct (call c f s) as [[] s0]
  end.
  simpl in H0. unfold mbind at 1, probe_bind.
  match goal with
  | |- context [call ?c ?f s0] =>
      pose proof (call_mgr c f s0) as H1;
      destruct (call c f s0) as [[error|serviceAdapter] s1]
  end; simpl in H1.
  { intros ->. simpl. rewrite H1, H0. apply rtc_refl. }
  unfold mbind at 1, probe_bind.
  assert (rtc (step parseDate) (mgr s)
            (mgr ((if bool_decide (providerType ∈ USAGE_BASED_HEALTH_CHECK_PROVIDERS)
                   then _checkProviderHealthByUsage providerType serviceAdapter
                          providerConfig now
                   else mret None) s1).2)) as Hu.
  { destruct (bool_decide (providerType ∈ USAGE_BASED_HEALTH_CHECK_PROVIDERS)).
    - destruct (_checkProviderHealthByUsage_mgr providerType serviceAdapter
                  providerConfig now s1) as [-> | [info ->]].
      + rewrite H1, H0. apply rtc_refl.
      + rewrite H1, H0. apply rtc_once, step_cacheUsageInfo.
    - simpl. rewrite H1, H0. apply rtc_refl. }
  destruct ((if bool_decide (providerType ∈ USAGE_BASED_HEALTH_CHECK_PROVIDERS)
             then _checkProviderHealthByUsage providerType serviceAdapter
                    providerConfig now
             else mret None) s1) as [[r|] s2]; simpl in Hu;
    [intros ->; exact Hu|].
  unfold mbind, probe_bind.
  pose proof (chatSendProbe_mgr providerType serviceAdapter
                (checkModel providerType providerConfig) s2) as Hb.
  destruct (chatSendProbe _ _ _ s2) as [r s3]. simpl in Hb. intros ->. simpl.
  rewrite Hb. exact Hu.
Qed.

(** The loop body of [performHealthChecks] and [_tryRecoverProvider] only
    take steps of the manager. *)
Lemma healthCheckEntry_steps (providerType : string) (i : nat)
    (now tProbe t1 t2 : Date) (s : St) :
  rtc (step parseDate) (mgr s)
    (mgr (healthCheckEntry parseDate providerType i now tProbe t1 t2 s).2).
Proof.
  unfold healthCheckEntry, mbind, probe_bind, getManager.
  destruct (pool (mgr s) providerType !! i) as [c|]; [|apply rtc_refl].
  destruct (lastErrorTooRecent _ _ _ _); [apply rtc_refl|].
  pose proof (_checkProviderHealth_steps providerType c false tProbe s) as Hp.
  destruct (_checkProviderHealth providerType c false tProbe s) as [outcome s1].
  simpl in Hp |- *. eapply rtc_r; [exact Hp|]. apply step_healthCheckCompletion.
Qed.

Lemma _tryRecoverProvider_steps (providerType : string) (providerConfig : Config)
    (tProbe t1 t2 : Date) (s : St) :
  rtc (step parseDate) (mgr s)
    (mgr (_tryRecoverProvider providerType providerConfig tProbe t1 t2 s).2).
Proof.
  unfold _tryRecoverProvider, mbind, probe_bind.
  pose proof (_checkProviderHealth_steps providerType providerConfig true tProbe s) as Hp.
  destruct (_checkProviderHealth providerType providerConfig true tProbe s)
    as [outcome s1].
  simpl in Hp |- *. eapply rtc_r; [exact Hp|]. apply step_recoverCompletion.
Qed.

End ProbeSteps.

(** ** Error escalation on the two-entry pool *)

(** With the default [maxErrorCount] of 3, two reported errors leave entry
    A healthy and the third makes it unhealthy; selection then returns B,
    the only healthy entry. *)
Example error_escalation :
  isHealthy <$> pool (markProviderUnhealthy "openai-custom"
                        (Some (initializeEntry (entryNamed "A"))) (Some "timeout") noon
                        (markProviderUnhealthy "openai-custom"
                           (Some (initializeEntry (entryNamed "A"))) (Some "timeout") noon
                           twoEntryPool)) "openai-custom" = [true; true] ∧
  isHealthy <$> pool (markProviderUnhealthy "openai-custom"
                        (Some (initializeEntry (entryNamed "A"))) (Some "timeout") noon
                        (markProviderUnhealthy "openai-custom"
                           (Some (initializeEntry (entryNamed "A"))) (Some "timeout") noon
                           (markProviderUnhealthy "openai-custom"
                              (Some (initializeEntry (entryNamed "A"))) (Some "timeout")
                              noon twoEntryPool))) "openai-custom" = [false; true] ∧
  (selectProvider parseExample "openai-custom" None false later later
     (markProviderUnhealthy "openai-custom"
        (Some (initializeEntry (entryNamed "A"))) (Some "timeout") noon
        (markProviderUnhealthy "openai-custom"
           (Some (initializeEntry (entryNamed "A"))) (Some "timeout") noon
           (markProviderUnhealthy "openai-custom"
              (Some (initializeEntry (entryNamed "A"))) (Some "timeout")
              noon twoEntryPool)))).1.2 = Some 1%nat.
Proof. repeat split; vm_compute; reflexivity. Qed.

(** * Further properties of the manager *)

(** ** What a selection returns and changes *)

(** The state after a selection of entry [i] (holding [c] after the
    sweep) from [candidates]. *)
Lemma selectProvider_cases parseDate providerType requestedModel skip now usedAt m :
  (providerType = "" ∨ enabledProviders (pool m providerType) requestedModel = []) ∧
  selectProvider parseDate providerType requestedModel skip now usedAt m = (m, None, [])
  ∨
  providerType ≠ "" ∧
  enabledProviders (pool m providerType) requestedModel ≠ [] ∧
  ∃ i c,
    candidatesAt parseDate providerType requestedModel now m
      !! (default 0%nat (roundRobinIndex m !! indexKey providerType requestedModel)
            mod length (candidatesAt parseDate providerType requestedModel now m))%nat
      = Some i ∧
    (recoverySweep parseDate (healthCheckInterval m) now (pool m providerType)
       (enabledProviders (pool m providerType) requestedModel)).1 !! i = Some c ∧
    selectProvider parseDate providerType requestedModel skip now usedAt m =
      (let m1 :=
         set_roundRobinIndex
           (<[indexKey providerType requestedModel :=
                ((default 0%nat (roundRobinIndex m !! indexKey providerType requestedModel)
                  + 1) mod length (candidatesAt parseDate providerType requestedModel
                                     now m))%nat]> (roundRobinIndex m))
           (set_providerStatus
              (<[providerType :=
                   (recoverySweep parseDate (healthCheckInterval m) now
                      (pool m providerType)
                      (enabledProviders (pool m providerType) requestedModel)).1]>
                 (providerStatus m)) m) in
       if skip then m1
       else _debouncedSave providerType
              (setEntry providerType i
                 (set_usageCount (usageCount c + 1)
                    (set_lastUsed (Some (toISOString usedAt)) c)) m1),
       Some i,
       (recoverySweep parseDate (healthCheckInterval m) now (pool m providerType)
          (enabledProviders (pool m providerType) requestedModel)).2).
Proof.
  unfold candidatesAt, selectProvider.
  destruct (String.eqb_spec providerType "") as [Hty|Hty]; [left; auto|].
  remember (pool m providerType) as l eqn:Hl.
  remember (enabledProviders l requestedModel) as enabled eqn:Hen.
  pose proof (recoverySweep_length parseDate (healthCheckInterval m) now l enabled) as Hlen.
  destruct (recoverySweep parseDate (healthCheckInterval m) now l enabled)
    as [swept started]. simpl in Hlen |- *.
  remember (candidateProviders swept enabled) as candidates eqn:Hcand.
  assert (∀ i, i ∈ candidates → (i < length swept)%nat) as Hbound.
  { intros i Hi. rewrite Hlen. apply (enabledProviders_lt l requestedModel).
    rewrite <- Hen. apply (candidateProviders_subseteq swept). rewrite <- Hcand.
    exact Hi. }
  destruct enabled as [|e0 enabled']; [left; auto|].
  right. split; [exact Hty|]. split; [discriminate|].
  assert (candidates ≠ []) as Hne.
  { rewrite Hcand. unfold candidateProviders.
    destruct (keep isHealthy swept (e0 :: enabled')); discriminate. }
  destruct (roundRobin_in_bounds candidates
              (default 0%nat (roundRobinIndex m !! indexKey providerType requestedModel))
              Hne) as [(i & Hi & Hin) _].
  unfold roundRobin in Hi |- *. simpl in Hi |- *.
  destruct (lookup_lt_is_Some_2 swept i (Hbound i Hin)) as [c Hc].
  exists i, c. split; [exact Hi|]. split; [exact Hc|].
  rewrite Hi. simpl. rewrite Hc. simpl. destruct skip; reflexivity.
Qed.

Lemma enabledProviders_elem (l : list Config) (requestedModel : option string) (i : nat) :
  i ∈ enabledProviders l requestedModel ↔
  ∃ c, l !! i = Some c ∧ eligible requestedModel c.
Proof.
  unfold enabledProviders, eligible.
  destruct (truthy_str requestedModel).
  - rewrite !keep_elem. split.
    + intros [[_ (c & Hc & Hd)] (c' & Hc' & Hs)].
      assert (c' = c) as -> by congruence.
      exists c. split; [exact Hc|]. split; [|auto].
      destruct (isDisabled c); [discriminate|reflexivity].
    + intros (c & Hc & Hd & Hs). split; [split|].
      * apply elem_of_seq. apply lookup_lt_Some in Hc. lia.
      * exists c. rewrite Hd. auto.
      * exists c. auto.
  - rewrite keep_elem. split.
    + intros [_ (c & Hc & Hd)]. exists c. split; [exact Hc|]. split; [|discriminate].
      destruct (isDisabled c); [discriminate|reflexivity].
    + intros (c & Hc & Hd & _). split.
      * apply elem_of_seq. apply lookup_lt_Some in Hc. lia.
      * exists c. rewrite Hd. auto.
Qed.

Lemma enabledProviders_NoDup (l : list Config) (requestedModel : option string) :
  NoDup (enabledProviders l requestedModel).
Proof.
  unfold enabledProviders, keep. apply NoDup_ListNoDup.
  destruct (truthy_str requestedModel); repeat apply List.NoDup_filter;
    apply List.seq_NoDup.
Qed.

Lemma sweepOne_lookup parseDate interval now acc i j :
  (sweepOne parseDate interval now acc i).1 !! j =
  (λ c, if bool_decide (j = i) && recoveryDue parseDate interval now c
        then set_lastErrorTime (Some (toISOString now)) c else c) <$> acc.1 !! j.
Proof.
  unfold sweepOne. destruct (decide (j = i)) as [->|Hne].
  - rewrite bool_decide_eq_true_2 by reflexivity. simpl.
    destruct (acc.1 !! i) as [c|] eqn:Hc; simpl; [|rewrite Hc; reflexivity].
    destruct (recoveryDue parseDate interval now c); simpl.
    + apply list_lookup_insert_eq. eapply lookup_lt_Some, Hc.
    + exact Hc.
  - rewrite bool_decide_eq_false_2 by exact Hne. simpl.
    replace ((λ c : Config, c) <$> acc.1 !! j) with (acc.1 !! j)
      by (destruct (acc.1 !! j); reflexivity).
    destruct (acc.1 !! i) as [c|]; [|reflexivity].
    destruct (recoveryDue parseDate interval now c); [|reflexivity].
    simpl. apply list_lookup_insert_ne. congruence.
Qed.

Lemma foldl_sweepOne_lookup parseDate interval now refs acc j :
  NoDup refs →
  (foldl (sweepOne parseDate interval now) acc refs).1 !! j =
  sweptEntry parseDate interval now refs j <$> acc.1 !! j.
Proof.
  revert acc. induction refs as [|i refs IH]; intros acc Hnd.
  - simpl. unfold sweptEntry. rewrite bool_decide_eq_false_2 by apply not_elem_of_nil.
    simpl. destruct (acc.1 !! j); reflexivity.
  - apply NoDup_cons in Hnd as [Hi Hnd]. simpl. rewrite IH by exact Hnd.
    rewrite sweepOne_lookup. destruct (acc.1 !! j) as [c|]; [|reflexivity].
    simpl. f_equal. unfold sweptEntry.
    destruct (decide (j = i)) as [->|Hne].
    + rewrite (bool_decide_eq_true_2 (i = i)) by reflexivity.
      rewrite (bool_decide_eq_false_2 (i ∈ refs)) by exact Hi.
      rewrite (bool_decide_eq_true_2 (i ∈ i :: refs)) by left. reflexivity.
    + rewrite (bool_decide_eq_false_2 (j = i)) by exact Hne. simpl.
      destruct (decide (j ∈ refs)) as [Hin|Hnin].
      * rewrite !bool_decide_eq_true_2; [reflexivity|right; exact Hin|exact Hin].
      * rewrite !bool_decide_eq_false_2; [reflexivity| |exact Hnin].
        intros Hin. apply elem_of_cons in Hin as [?|?]; contradiction.
Qed.

Lemma foldl_sweepOne_started parseDate interval now refs acc :
  NoDup refs →
  (foldl (sweepOne parseDate interval now) acc refs).2 =
  acc.2 ++ List.filter (λ i, from_option (recoveryDue parseDate interval now) false
                               (acc.1 !! i)) refs.
Proof.
  revert acc. induction refs as [|i refs IH]; intros acc Hnd.
  - simpl. rewrite app_nil_r. reflexivity.
  - apply NoDup_cons in Hnd as [Hi Hnd]. simpl. rewrite IH by exact Hnd.
    assert (List.filter
              (λ i0, from_option (recoveryDue parseDate interval now) false
                       ((sweepOne parseDate interval now acc i).1 !! i0)) refs
            = List.filter
                (λ i0, from_option (recoveryDue parseDate interval now) false
                         (acc.1 !! i0)) refs) as ->.
    { apply List.filter_ext_in. intros j Hj. rewrite sweepOne_lookup.
      rewrite bool_decide_eq_false_2; [destruct (acc.1 !! j); reflexivity|].
      intros ->. apply Hi. apply list_elem_of_In. exact Hj. }
    unfold sweepOne. destruct (acc.1 !! i) as [c|]; simpl; [|reflexivity].
    destruct (recoveryDue parseDate interval now c); simpl; [|reflexivity].
    rewrite <- app_assoc. reflexivity.
Qed.

Lemma recoverySweep_lookup parseDate interval now l enabled j :
  NoDup enabled →
  (recoverySweep parseDate interval now l enabled).1 !! j =
  sweptEntry parseDate interval now enabled j <$> l !! j.
Proof. intros Hnd. apply (foldl_sweepOne_lookup _ _ _ _ (l, []) j Hnd). Qed.

Lemma recoverySweep_started parseDate interval now l enabled :
  NoDup enabled →
  (recoverySweep parseDate interval now l enabled).2 =
  List.filter (λ i, from_option (recoveryDue parseDate interval now) false (l !! i))
    enabled.
Proof. intros Hnd. apply (foldl_sweepOne_started _ _ _ _ (l, []) Hnd). Qed.

Lemma sweptEntry_fields parseDate interval now enabled j c :
  isHealthy (sweptEntry parseDate interval now enabled j c) = isHealthy c ∧
  isDisabled (sweptEntry parseDate interval now enabled j c) = isDisabled c ∧
  errorCount (sweptEntry parseDate interval now enabled j c) = errorCount c ∧
  usageCount (sweptEntry parseDate interval now enabled j c) = usageCount c ∧
  lastUsed (sweptEntry parseDate interval now enabled j c) = lastUsed c ∧
  lastErrorMessage (sweptEntry parseDate interval now enabled j c) = lastErrorMessage c ∧
  lastHealthCheckTime (sweptEntry parseDate interval now enabled j c)
    = lastHealthCheckTime c ∧
  lastHealthCheckModel (sweptEntry parseDate interval now enabled j c)
    = lastHealthCheckModel c ∧
  usageInfo (sweptEntry parseDate interval now enabled j c) = usageInfo c ∧
  rest (sweptEntry parseDate interval now enabled j c) = rest c.
Proof.
  unfold sweptEntry. destruct (_ && _); repeat split; reflexivity.
Qed.

(** The entry a selection returns. *)
Lemma selectProvider_Some_eligible parseDate providerType requestedModel skip
    now usedAt m i :
  (selectProvider parseDate providerType requestedModel skip now usedAt m).1.2 = Some i →
  ∃ c, pool m providerType !! i = Some c ∧
       eligible requestedModel c ∧
       (isHealthy c = true ∨
        ∀ j c', pool m providerType !! j = Some c' → eligible requestedModel c' →
                isHealthy c' = false).
Proof.
  intros Hsel.
  destruct (selectProvider_cases parseDate providerType requestedModel skip now usedAt m)
    as [[_ Heq]|(Hty & Hen & i' & c' & Hi & Hc & Heq)];
    rewrite Heq in Hsel; simpl in Hsel; [discriminate|].
  injection Hsel as ->. clear Heq.
  unfold candidatesAt in Hi.
  set (l := pool m providerType) in *.
  set (enabled := enabledProviders l requestedModel) in *.
  pose proof (enabledProviders_NoDup l requestedModel) as Hnd. fold enabled in Hnd.
  apply list_elem_of_lookup_2 in Hi.
  pose proof (candidateProviders_subseteq _ _ _ Hi) as Hin.
  apply enabledProviders_elem in Hin as (c & Hlc & Hel).
  exists c. split; [exact Hlc|]. split; [exact Hel|].
  unfold candidateProviders in Hi.
  destruct (keep isHealthy _ enabled) as [|h hs] eqn:Hk.
  - right. intros j cj Hj Helj.
    destruct (isHealthy cj) eqn:Hh; [|reflexivity]. exfalso.
    assert (j ∈ keep isHealthy
                  (recoverySweep parseDate (healthCheckInterval m) now l enabled).1
                  enabled) as Hjk.
    { apply keep_elem. split.
      - apply enabledProviders_elem. exists cj. auto.
      - rewrite recoverySweep_lookup by exact Hnd. rewrite Hj. simpl.
        eexists. split; [reflexivity|].
        destruct (sweptEntry_fields parseDate (healthCheckInterval m) now enabled j cj)
          as (-> & _). exact Hh. }
    rewrite Hk in Hjk. apply elem_of_nil in Hjk. exact Hjk.
  - left. rewrite <- Hk in Hi. apply keep_elem in Hi as [_ (cs & Hcs & Hh)].
    rewrite recoverySweep_lookup in Hcs by exact Hnd. rewrite Hlc in Hcs.
    simpl in Hcs. injection Hcs as <-.
    destruct (sweptEntry_fields parseDate (healthCheckInterval m) now enabled i c)
      as (Heq & _). rewrite Heq in Hh. exact Hh.
Qed.

(** X1: an entry returned by [selectProvider] is never disabled and never
    excludes the requested model, and it is healthy unless no entry that
    may be selected is healthy. *)
Theorem selectProvider_returns_eligible parseDate providerType requestedModel skip
    now usedAt m i :
  (selectProvider parseDate providerType requestedModel skip now usedAt m).1.2 = Some i →
  ∃ c, pool m providerType !! i = Some c ∧
       eligible requestedModel c ∧
       (isHealthy c = true ∨
        ∀ j c', pool m providerType !! j = Some c' → eligible requestedModel c' →
                isHealthy c' = false).
Proof. apply selectProvider_Some_eligible. Qed.

Lemma selectProvider_returns_eligible_witness :
  ∃ c, pool mixedPool "openai-custom" !! 2%nat = Some c ∧
       eligible (Some "gpt-4o") c ∧
       (isHealthy c = true ∨
        ∀ j c', pool mixedPool "openai-custom" !! j = Some c' →
                eligible (Some "gpt-4o") c' → isHealthy c' = false).
Proof.
  apply (selectProvider_returns_eligible parseExample "openai-custom" (Some "gpt-4o")
           false noon later mixedPool 2%nat).
  vm_compute. reflexivity.
Defined.

Lemma enabledProviders_nil (l : list Config) (requestedModel : option string) :
  enabledProviders l requestedModel = [] ↔
  ∀ j c, l !! j = Some c → ¬ eligible requestedModel c.
Proof.
  split.
  - intros Hnil j c Hj Hel.
    assert (j ∈ enabledProviders l requestedModel) as Hin
      by (apply enabledProviders_elem; eauto).
    rewrite Hnil in Hin. apply elem_of_nil in Hin. exact Hin.
  - intros Hno. destruct (enabledProviders l requestedModel) as [|i others] eqn:Hen;
      [reflexivity|].
    assert (i ∈ enabledProviders l requestedModel) as Hin by (rewrite Hen; left).
    apply enabledProviders_elem in Hin as (c & Hc & Hel).
    destruct (Hno i c Hc Hel).
Qed.


(** An unknown family and the empty family name give null and leave the
    manager as it is. *)
Example selectProvider_null_unknown_family :
  selectProvider parseExample "claude-custom" None false noon later mixedPool
    = (mixedPool, None, []) ∧
  selectProvider parseExample "" None false noon later mixedPool
    = (mixedPool, None, []).
Proof. split; reflexivity. Qed.

Lemma recoverySweep_started_elem parseDate interval now l enabled j c :
  NoDup enabled → l !! j = Some c →
  bool_decide (j ∈ (recoverySweep parseDate interval now l enabled).2)
  = bool_decide (j ∈ enabled) && recoveryDue parseDate interval now c.
Proof.
  intros Hnd Hc. rewrite recoverySweep_started by exact Hnd.
  destruct (decide (j ∈ enabled)) as [Hin|Hnin].
  - rewrite (bool_decide_eq_true_2 (j ∈ enabled)) by exact Hin. simpl.
    destruct (recoveryDue parseDate interval now c) eqn:Hdue.
    + apply bool_decide_eq_true_2. apply list_elem_of_In, filter_In.
      split; [apply list_elem_of_In, Hin|]. rewrite Hc. exact Hdue.
    + apply bool_decide_eq_false_2. intros H. apply list_elem_of_In, filter_In in H.
      destruct H as [_ H]. rewrite Hc in H. simpl in H. congruence.
  - rewrite (bool_decide_eq_false_2 (j ∈ enabled)) by exact Hnin. simpl.
    apply bool_decide_eq_false_2. intros H. apply list_elem_of_In, filter_In in H.
    destruct H as [H _]. apply Hnin, list_elem_of_In, H.
Qed.

(** The effect of a selection on the entries. *)
Lemma selectProvider_entries parseDate providerType requestedModel skip now usedAt m :
  (∀ j c, pool m providerType !! j = Some c →
     ∃ c',
       pool (selectProvider parseDate providerType requestedModel skip now usedAt m).1.1
         providerType !! j = Some c' ∧
       usageCount c' =
         usageCount c +
         (if bool_decide
               ((selectProvider parseDate providerType requestedModel skip now usedAt
                   m).1.2 = Some j) && negb skip
          then 1 else 0) ∧
       lastUsed c' =
         (if bool_decide
               ((selectProvider parseDate providerType requestedModel skip now usedAt
                   m).1.2 = Some j) && negb skip
          then Some (toISOString usedAt) else lastUsed c) ∧
       lastErrorTime c' =
         (if bool_decide
               (j ∈ (selectProvider parseDate providerType requestedModel skip now
                       usedAt m).2)
          then Some (toISOString now) else lastErrorTime c) ∧
       isHealthy c' = isHealthy c ∧ isDisabled c' = isDisabled c ∧
       errorCount c' = errorCount c ∧ lastErrorMessage c' = lastErrorMessage c ∧
       lastHealthCheckTime c' = lastHealthCheckTime c ∧
       lastHealthCheckModel c' = lastHealthCheckModel c ∧
       usageInfo c' = usageInfo c ∧ rest c' = rest c) ∧
  length (pool (selectProvider parseDate providerType requestedModel skip now usedAt
                  m).1.1 providerType) = length (pool m providerType) ∧
  (∀ ty, ty ≠ providerType →
     pool (selectProvider parseDate providerType requestedModel skip now usedAt m).1.1 ty
     = pool m ty).
Proof.
  destruct (selectProvider_cases parseDate providerType requestedModel skip now usedAt m)
    as [[_ Heq]|(Hty & Hen & i & ci & _ & Hci & Heq)]; rewrite Heq; simpl.
  { split; [|split; reflexivity]. intros j c Hc. exists c.
    split; [exact Hc|]. rewrite Z.add_0_r. repeat split; reflexivity. }
  clear Heq.
  set (l := pool m providerType) in *.
  set (enabled := enabledProviders l requestedModel) in *.
  pose proof (enabledProviders_NoDup l requestedModel) as Hnd. fold enabled in Hnd.
  pose proof (recoverySweep_length parseDate (healthCheckInterval m) now l enabled)
    as Hlen.
  assert (∀ j c, l !! j = Some c →
            sweptEntry parseDate (healthCheckInterval m) now enabled j c
            = (if bool_decide
                    (j ∈ (recoverySweep parseDate (healthCheckInterval m) now l
                            enabled).2)
               then set_lastErrorTime (Some (toISOString now)) c else c)) as Hsw.
  { intros j c Hc. rewrite (recoverySweep_started_elem _ _ _ _ _ _ _ Hnd Hc).
    reflexivity. }
  set (sw := recoverySweep parseDate (healthCheckInterval m) now l enabled) in *.
  split; [|split].
  - intros j c Hc.
    assert (sw.1 !! j = Some (sweptEntry parseDate (healthCheckInterval m) now enabled
                                j c)) as Hj.
    { unfold sw. rewrite recoverySweep_lookup by exact Hnd. rewrite Hc. reflexivity. }
    rewrite (Hsw j c Hc) in Hj.
    destruct skip; simpl.
    + rewrite andb_false_r. eexists. split.
      { unfold pool. simpl. rewrite lookup_insert_eq. simpl. exact Hj. }
      rewrite Z.add_0_r. destruct (bool_decide (j ∈ sw.2)); repeat split; reflexivity.
    + rewrite andb_true_r. destruct (decide (j = i)) as [->|Hne].
      * rewrite bool_decide_eq_true_2 by reflexivity.
        assert (ci = (if bool_decide (i ∈ sw.2)
                      then set_lastErrorTime (Some (toISOString now)) c else c)) as ->
          by congruence.
        eexists. split.
        { unfold pool. simpl. rewrite lookup_insert_eq. simpl.
          unfold pool. simpl. rewrite lookup_insert_eq. simpl.
          apply list_lookup_insert_eq. eapply lookup_lt_Some, Hj. }
        destruct (bool_decide (i ∈ sw.2)); repeat split; reflexivity.
      * rewrite bool_decide_eq_false_2 by congruence.
        eexists. split.
        { unfold pool. simpl. rewrite lookup_insert_eq. simpl.
          unfold pool. simpl. rewrite lookup_insert_eq. simpl.
          rewrite list_lookup_insert_ne by congruence. exact Hj. }
        rewrite Z.add_0_r. destruct (bool_decide (j ∈ sw.2)); repeat split; reflexivity.
  - destruct skip; simpl; unfold pool; simpl; rewrite lookup_insert_eq; simpl.
    + exact Hlen.
    + unfold pool. simpl. rewrite lookup_insert_eq. simpl.
      rewrite length_insert. exact Hlen.
  - intros ty Hne. destruct skip; simpl; unfold pool; simpl.
    + rewrite lookup_insert_ne by congruence. reflexivity.
    + rewrite lookup_insert_ne by congruence. simpl.
      rewrite lookup_insert_ne by congruence. reflexivity.
Qed.

(** X3: a call of [selectProvider] changes of the entries only this:
    unless the usage count is skipped, the returned entry has [usageCount]
    incremented by one and [lastUsed] set to the time of the call; every
    entry for which a recovery check was started has [lastErrorTime] set to
    the time of the call.  All other fields of all entries, the number of
    entries and all other families stay as they are. *)
Theorem selectProvider_frame parseDate providerType requestedModel skip now usedAt m :
  (∀ j c, pool m providerType !! j = Some c →
     ∃ c',
       pool (selectProvider parseDate providerType requestedModel skip now usedAt m).1.1
         providerType !! j = Some c' ∧
       usageCount c' =
         usageCount c +
         (if bool_decide
               ((selectProvider parseDate providerType requestedModel skip now usedAt
                   m).1.2 = Some j) && negb skip
          then 1 else 0) ∧
       lastUsed c' =
         (if bool_decide
               ((selectProvider parseDate providerType requestedModel skip now usedAt
                   m).1.2 = Some j) && negb skip
          then Some (toISOString usedAt) else lastUsed c) ∧
       lastErrorTime c' =
         (if bool_decide
               (j ∈ (selectProvider parseDate providerType requestedModel skip now
                       usedAt m).2)
          then Some (toISOString now) else lastErrorTime c) ∧
       isHealthy c' = isHealthy c ∧ isDisabled c' = isDisabled c ∧
       errorCount c' = errorCount c ∧ lastErrorMessage c' = lastErrorMessage c ∧
       lastHealthCheckTime c' = lastHealthCheckTime c ∧
       lastHealthCheckModel c' = lastHealthCheckModel c ∧
       usageInfo c' = usageInfo c ∧ rest c' = rest c) ∧
  length (pool (selectProvider parseDate providerType requestedModel skip now usedAt
                  m).1.1 providerType) = length (pool m providerType) ∧
  (∀ ty, ty ≠ providerType →
     pool (selectProvider parseDate providerType requestedModel skip now usedAt m).1.1 ty
     = pool m ty).
Proof. apply selectProvider_entries. Qed.

Lemma string_length_app (s1 s2 : string) :
  String.length (s1 +:+ s2) = (String.length s1 + String.length s2)%nat.
Proof. induction s1 as [|a s1 IH]; simpl; [reflexivity|]. rewrite IH. reflexivity. Qed.

Lemma indexKey_model_ne (providerType model : string) :
  model ≠ "" → indexKey providerType (Some model) ≠ indexKey providerType None.
Proof.
  intros Hm. unfold indexKey. rewrite truthy_str_Some by exact Hm. simpl.
  intros Heq. apply (f_equal String.length) in Heq.
  rewrite !string_length_app in Heq. simpl in Heq. lia.
Qed.

(** X4: the round-robin indices advance independently: a selection
    changes no index but the one stored under its own key, and the key of
    a selection for a model differs from the key of a selection without
    model.  One selection therefore never moves the position of
    selections of the other kind; it also leaves the error threshold, the
    recovery interval and the global configuration alone. *)
Theorem selectProvider_index_independent parseDate providerType requestedModel skip
    now usedAt m :
  (∀ key, key ≠ indexKey providerType requestedModel →
     roundRobinIndex (selectProvider parseDate providerType requestedModel skip now
                        usedAt m).1.1 !! key = roundRobinIndex m !! key) ∧
  (∀ model, model ≠ "" →
     indexKey providerType (Some model) ≠ indexKey providerType None ∧
     roundRobinIndex (selectProvider parseDate providerType (Some model) skip now
                        usedAt m).1.1 !! providerType
       = roundRobinIndex m !! providerType ∧
     roundRobinIndex (selectProvider parseDate providerType None skip now
                        usedAt m).1.1 !! (providerType +:+ ":" +:+ model)
       = roundRobinIndex m !! (providerType +:+ ":" +:+ model)) ∧
  maxErrorCount (selectProvider parseDate providerType requestedModel skip now usedAt
                   m).1.1 = maxErrorCount m ∧
  healthCheckInterval (selectProvider parseDate providerType requestedModel skip now
                         usedAt m).1.1 = healthCheckInterval m ∧
  globalConfig (selectProvider parseDate providerType requestedModel skip now usedAt
                  m).1.1 = globalConfig m.
Proof.
  assert (∀ requestedModel key, key ≠ indexKey providerType requestedModel →
            roundRobinIndex (selectProvider parseDate providerType requestedModel skip
                               now usedAt m).1.1 !! key = roundRobinIndex m !! key)
    as Hkeys.
  { intros model key Hkey.
    destruct (selectProvider_cases parseDate providerType model skip now usedAt m)
      as [[_ Heq]|(_ & _ & i & c & _ & _ & Heq)]; rewrite Heq; simpl; [reflexivity|].
    destruct skip; simpl; apply lookup_insert_ne; congruence. }
  split; [apply Hkeys|]. split.
  - intros model Hm. pose proof (indexKey_model_ne providerType model Hm) as Hne.
    split; [exact Hne|]. split.
    + apply Hkeys. exact (not_eq_sym Hne).
    + apply Hkeys. unfold indexKey in Hne. rewrite truthy_str_Some in Hne by exact Hm.
      exact Hne.
  - destruct (selectProvider_cases parseDate providerType requestedModel skip now
                usedAt m)
      as [[_ Heq]|(_ & _ & i & c & _ & _ & Heq)]; rewrite Heq; simpl;
      [auto|destruct skip; auto].
Qed.

Lemma selectProvider_interval parseDate providerType requestedModel skip now usedAt m :
  healthCheckInterval (selectProvider parseDate providerType requestedModel skip now
                         usedAt m).1.1 = healthCheckInterval m.
Proof.
  destruct (selectProvider_cases parseDate providerType requestedModel skip now usedAt m)
    as [[_ Heq]|(_ & _ & i & c & _ & _ & Heq)]; rewrite Heq; simpl;
    [reflexivity|destruct skip; reflexivity].
Qed.

Lemma selectProvider_started_elem parseDate providerType requestedModel skip now
    usedAt m j :
  j ∈ (selectProvider parseDate providerType requestedModel skip now usedAt m).2 ↔
  providerType ≠ "" ∧
  ∃ c, pool m providerType !! j = Some c ∧ eligible requestedModel c ∧
       recoveryDue parseDate (healthCheckInterval m) now c = true.
Proof.
  destruct (selectProvider_cases parseDate providerType requestedModel skip now usedAt m)
    as [[Hwhy Heq]|(Hty & Hen & i & ci & _ & _ & Heq)]; rewrite Heq; simpl.
  - split; [intros H; apply elem_of_nil in H; destruct H|].
    intros (Hty & c & Hc & Hel & _). destruct Hwhy as [?|Hnil]; [contradiction|].
    exfalso. exact (proj1 (enabledProviders_nil _ _) Hnil j c Hc Hel).
  - pose proof (enabledProviders_NoDup (pool m providerType) requestedModel) as Hnd.
    rewrite recoverySweep_started by exact Hnd.
    rewrite list_elem_of_In, filter_In, <- list_elem_of_In, enabledProviders_elem.
    split.
    + intros [(c & Hc & Hel) Hdue]. split; [exact Hty|]. exists c.
      rewrite Hc in Hdue. auto.
    + intros (_ & c & Hc & Hel & Hdue). split; [eauto|]. rewrite Hc. exact Hdue.
Qed.

(** X5: a selection starts a recovery check exactly for the entries that
    may be selected, are unhealthy and whose [lastErrorTime] parses to a
    time at least [healthCheckInterval] before the call.  Because the
    sweep overwrites their [lastErrorTime] with the time of the call, a
    later selection on the family that comes less than
    [healthCheckInterval] afterwards does not start a check for any of
    them again. *)
Theorem recovery_sweep_debounced parseDate providerType model1 model2 skip1 skip2
    now1 usedAt1 now2 usedAt2 m j :
  parseDate (toISOString now1) = Some (getTime now1) →
  getTime now2 - getTime now1 < healthCheckInterval m →
  j ∈ (selectProvider parseDate providerType model1 skip1 now1 usedAt1 m).2 →
  (∃ c t, pool m providerType !! j = Some c ∧ eligible model1 c ∧
          isHealthy c = false ∧ lastErrorTime c ≫= parseDate = Some t ∧
          healthCheckInterval m ≤ getTime now1 - t) ∧
  j ∉ (selectProvider parseDate providerType model2 skip2 now2 usedAt2
         (selectProvider parseDate providerType model1 skip1 now1 usedAt1 m).1.1).2.
Proof.
  intros Hparse Hsoon Hj.
  pose proof Hj as Hj'. apply selectProvider_started_elem in Hj' as (Hty & c & Hc & Hel & Hdue).
  split.
  - unfold recoveryDue in Hdue.
    destruct (isHealthy c) eqn:Hh; [discriminate|].
    destruct (lastErrorTime c ≫= parseDate) as [t|] eqn:Ht;
      [|rewrite andb_false_r in Hdue; discriminate].
    apply andb_true_iff in Hdue as [_ Hle]. apply Z.leb_le in Hle.
    exists c, t. split; [exact Hc|]. split; [exact Hel|]. split; [exact Hh|].
    split; [exact Ht|exact Hle].
  - destruct (selectProvider_entries parseDate providerType model1 skip1 now1 usedAt1 m)
      as (Hentries & _).
    destruct (Hentries j c Hc) as (c1 & Hc1 & _ & _ & Htime & _).
    rewrite bool_decide_eq_true_2 in Htime by exact Hj.
    intros Hagain. apply selectProvider_started_elem in Hagain as (_ & c2 & Hc2 & _ & Hdue2).
    assert (c2 = c1) as -> by congruence.
    rewrite selectProvider_interval in Hdue2.
    unfold recoveryDue in Hdue2. rewrite Htime in Hdue2. simpl in Hdue2.
    rewrite Hparse in Hdue2.
    apply andb_true_iff in Hdue2 as [_ Hle]. apply Z.leb_le in Hle. lia.
Qed.

Lemma recovery_sweep_debounced_witness :
  (1%nat ∈ (selectProvider parseExample "openai-custom" None false later later
              quickRecoveryPool).2) ∧
  (1%nat ∉ (selectProvider parseExample "openai-custom" None false later later
              (selectProvider parseExample "openai-custom" None false later later
                 quickRecoveryPool).1.1).2).
Proof.
  assert (H1 : 1%nat ∈ (selectProvider parseExample "openai-custom" None false later
                          later quickRecoveryPool).2) by (vm_compute; left).
  split; [exact H1|].
  refine (proj2 (recovery_sweep_debounced parseExample "openai-custom" None None false
                   false later later later later quickRecoveryPool 1%nat _ _ H1)).
  - reflexivity.
  - vm_compute. reflexivity.
Defined.

(** ** Reports by uuid *)

Lemma pool_lookup_family (m : Manager) (providerType : string) (i : nat) (c : Config) :
  pool m providerType !! i = Some c →
  providerStatus m !! providerType = Some (pool m providerType).
Proof.
  unfold pool. destruct (providerStatus m !! providerType); [reflexivity|].
  simpl. discriminate.
Qed.

Lemma designated_setEntry (m : Manager) (providerType : string) (i : nat)
    (c c' : Config) :
  designated m providerType i c → rest c' = rest c →
  designated (setEntry providerType i c' m) providerType i c'.
Proof.
  intros (Hty & Hi & Hu & Hfirst) Hrest.
  assert (uuid c' = uuid c) as Huuid by (unfold uuid; rewrite Hrest; reflexivity).
  split; [exact Hty|]. rewrite pool_setEntry, decide_True by reflexivity.
  split; [apply list_lookup_insert_eq; eapply lookup_lt_Some, Hi|].
  split; [rewrite Huuid; exact Hu|].
  intros j cj Hlt Hj. rewrite list_lookup_insert_ne in Hj by lia.
  rewrite Huuid. exact (Hfirst j cj Hlt Hj).
Qed.

Lemma designated__debouncedSave (m : Manager) (ty providerType : string) (i : nat)
    (c : Config) :
  designated m providerType i c → designated (_debouncedSave ty m) providerType i c.
Proof. intros H. exact H. Qed.

(** One report on the designated entry. *)
Lemma markProviderUnhealthy_designated (m : Manager) (providerType : string) (i : nat)
    (c cfg : Config) (errorMessage : option string) (now : Date) :
  designated m providerType i c → uuid cfg = uuid c →
  ∃ c',
    designated (markProviderUnhealthy providerType (Some cfg) errorMessage now m)
      providerType i c' ∧
    errorCount c' = errorCount c + 1 ∧
    lastErrorTime c' = Some (toISOString now) ∧
    isHealthy c' = isHealthy c && (errorCount c + 1 <? maxErrorCount m) ∧
    lastErrorMessage c' =
      (if truthy_str errorMessage then errorMessage else lastErrorMessage c) ∧
    usageCount c' = usageCount c ∧ isDisabled c' = isDisabled c ∧
    lastUsed c' = lastUsed c ∧ rest c' = rest c ∧
    maxErrorCount (markProviderUnhealthy providerType (Some cfg) errorMessage now m)
      = maxErrorCount m.
Proof.
  intros Hd Hu. pose proof (_findProvider_designated _ _ _ _ Hd) as Hf.
  unfold markProviderUnhealthy. simpl. rewrite Hu, Hf.
  eexists. split.
  { apply designated__debouncedSave, (designated_setEntry m providerType i c);
      [exact Hd|].
    destruct (truthy_str errorMessage); simpl;
      destruct (maxErrorCount m <=? errorCount c + 1); reflexivity. }
  destruct (truthy_str errorMessage); simpl;
    rewrite (Z.ltb_antisym (maxErrorCount m) (errorCount c + 1));
    destruct (maxErrorCount m <=? errorCount c + 1); simpl;
    rewrite ?andb_true_r, ?andb_false_r; repeat split; reflexivity.
Qed.

Lemma markUnhealthyMany_designated (reports : list (option string * Date)) :
  ∀ (m : Manager) (providerType : string) (i : nat) (c cfg : Config),
    designated m providerType i c → uuid cfg = uuid c →
    ∃ c',
      designated (markUnhealthyMany providerType (Some cfg) reports m) providerType i c' ∧
      errorCount c' = errorCount c + Z.of_nat (length reports) ∧
      isHealthy c' =
        isHealthy c &&
        (bool_decide (reports = []) ||
         (errorCount c + Z.of_nat (length reports) <? maxErrorCount m)) ∧
      lastErrorTime c' = from_option (λ r, Some (toISOString r.2)) (lastErrorTime c)
                           (last reports) ∧
      usageCount c' = usageCount c ∧ isDisabled c' = isDisabled c ∧ rest c' = rest c.
Proof.
  induction reports as [|r reports IH]; intros m providerType i c cfg Hd Hu.
  - exists c. simpl. rewrite Z.add_0_r, andb_true_r. split; [exact Hd|].
    repeat split; reflexivity.
  - destruct (markProviderUnhealthy_designated m providerType i c cfg r.1 r.2 Hd Hu)
      as (c1 & Hd1 & He1 & Ht1 & Hh1 & _ & Hu1 & Hdis1 & _ & Hr1 & Hmax1).
    assert (uuid cfg = uuid c1) as Hu'
      by (rewrite Hu; unfold uuid; rewrite Hr1; reflexivity).
    destruct (IH _ providerType i c1 cfg Hd1 Hu')
      as (c' & Hd' & He' & Hh' & Ht' & Hus' & Hdis' & Hr').
    exists c'. split; [exact Hd'|].
    rewrite He', Hh', Ht', Hus', Hdis', Hr', He1, Hh1, Ht1, Hu1, Hdis1, Hr1, Hmax1.
    simpl length. rewrite Nat2Z.inj_succ.
    split; [lia|]. split.
    { rewrite (bool_decide_eq_false_2 (r :: reports = [])) by discriminate. simpl.
      replace (errorCount c + 1 + Z.of_nat (length reports))
        with (errorCount c + Z.succ (Z.of_nat (length reports))) by lia.
      destruct (isHealthy c); simpl; [|reflexivity].
      destruct reports as [|r' reports]; simpl.
      - rewrite andb_true_r. reflexivity.
      - destruct (Z.ltb_spec (errorCount c + 1) (maxErrorCount m)); simpl; [reflexivity|].
        symmetry. apply Z.ltb_ge. lia. }
    split; [|repeat split; reflexivity].
    destruct reports as [|r' reports]; [reflexivity|].
    simpl. destruct (last (r' :: reports)) eqn:Hl; [reflexivity|].
    apply last_None in Hl. discriminate.
Qed.

(** X6: after [n] error reports on an entry, its error count has grown
    by [n] and its [lastErrorTime] is the time of the last report; for
    [n ≥ 1] the entry is healthy afterwards iff it was healthy before and
    the new error count is still below [maxErrorCount].  In particular an
    entry with no errors is unhealthy after [maxErrorCount] reports and not
    before (for a positive threshold). *)
Theorem markUnhealthyMany_threshold (m : Manager) (providerType : string) (i : nat)
    (c cfg : Config) (reports : list (option string * Date)) :
  designated m providerType i c → uuid cfg = uuid c →
  ∃ c',
    pool (markUnhealthyMany providerType (Some cfg) reports m) providerType !! i
      = Some c' ∧
    errorCount c' = errorCount c + Z.of_nat (length reports) ∧
    isHealthy c' =
      isHealthy c &&
      (bool_decide (reports = []) ||
       (errorCount c + Z.of_nat (length reports) <? maxErrorCount m)) ∧
    lastErrorTime c' = from_option (λ r, Some (toISOString r.2)) (lastErrorTime c)
                         (last reports) ∧
    usageCount c' = usageCount c ∧ isDisabled c' = isDisabled c ∧ rest c' = rest c.
Proof.
  intros Hd Hu.
  destruct (markUnhealthyMany_designated reports m providerType i c cfg Hd Hu)
    as (c' & (_ & Hc' & _) & H).
  exists c'. split; [exact Hc'|exact H].
Qed.

Lemma markUnhealthyMany_threshold_witness :
  ∃ c', pool (markUnhealthyMany "openai-custom" (Some (initializeEntry (entryNamed "B")))
                threeTimeouts twoEntryPool) "openai-custom" !! 1%nat = Some c' ∧
        errorCount c' = 3 ∧ isHealthy c' = false ∧
        lastErrorTime c' = Some (toISOString later).
Proof.
  destruct (markUnhealthyMany_threshold twoEntryPool "openai-custom" 1
              (initializeEntry (entryNamed "B")) (initializeEntry (entryNamed "B"))
              threeTimeouts twoEntryPool_B_designated eq_refl)
    as (c' & Hc' & He & Hh & Ht & _).
  exists c'. split; [exact Hc'|]. split; [exact He|]. split; [exact Hh|exact Ht].
Defined.

Lemma _findProvider_None (m : Manager) (providerType : string) (u : option string) :
  _findProvider m providerType u = None ↔
  providerType = "" ∨ truthy_str u = false ∨
  ∀ j c, pool m providerType !! j = Some c → uuid c ≠ u.
Proof.
  unfold _findProvider.
  destruct (String.eqb_spec providerType "") as [Hty|Hty]; simpl.
  { split; auto. }
  destruct (truthy_str u); simpl.
  - rewrite list_find_None, Forall_lookup. split.
    + intros H. right. right. exact H.
    + intros [?|[?|H]]; [contradiction|discriminate|exact H].
  - split; auto.
Qed.

(** X7: an operation that addresses an entry by uuid (markUnhealthy,
    markHealthy, resetCounters, disable, enable, and the failure branch of
    a recovery check) does nothing at all (no field, no index, no pending
    save changes) when the family name is empty, the configuration passed
    is missing or has no uuid, or no entry of the family has that uuid. *)
Theorem unknown_entry_is_noop (m : Manager) (providerType : string)
    (providerConfig : option Config) :
  providerType = "" ∨ truthy_str (providerConfig ≫= uuid) = false ∨
  (∀ j c, pool m providerType !! j = Some c → uuid c ≠ providerConfig ≫= uuid) →
  (∀ errorMessage now,
     markProviderUnhealthy providerType providerConfig errorMessage now m = m) ∧
  (∀ reset model now usedAt,
     markProviderHealthy providerType providerConfig reset model now usedAt m = m) ∧
  resetProviderCounters providerType providerConfig m = m ∧
  disableProvider providerType providerConfig m = m ∧
  enableProvider providerType providerConfig m = m ∧
  (∀ cfg healthResult t1 t2,
     providerConfig = Some cfg → Result.success healthResult = false →
     recoverCompletion providerType cfg (inr (Some healthResult)) t1 t2 m = m).
Proof.
  intros Hwhy. apply _findProvider_None in Hwhy.
  unfold markProviderUnhealthy, markProviderHealthy, resetProviderCounters,
    disableProvider, enableProvider. rewrite Hwhy.
  repeat split; try reflexivity.
  intros cfg healthResult t1 t2 -> Hfail. simpl in Hwhy.
  unfold recoverCompletion. rewrite Hfail, Hwhy. reflexivity.
Qed.

Lemma unknown_entry_is_noop_witness :
  markProviderUnhealthy "openai-custom" (Some (initializeEntry (entryNamed "Z")))
    (Some "timeout") noon twoEntryPool = twoEntryPool ∧
  disableProvider "openai-custom" None twoEntryPool = twoEntryPool.
Proof.
  split.
  - refine (proj1 (unknown_entry_is_noop twoEntryPool "openai-custom"
                     (Some (initializeEntry (entryNamed "Z"))) _) _ _).
    right. right. intros j c Hj.
    destruct j as [|[|j]]; vm_compute in Hj; [| |discriminate];
      injection Hj as <-; vm_compute; discriminate.
  - refine (proj1 (proj2 (proj2 (proj2 (unknown_entry_is_noop twoEntryPool
                                            "openai-custom" None _))))).
    right. left. reflexivity.
Defined.

(** ** Disabling and enabling *)

Lemma disableProvider_designated (m : Manager) (providerType : string) (i : nat)
    (c cfg : Config) :
  designated m providerType i c → uuid cfg = uuid c →
  disableProvider providerType (Some cfg) m
    = _debouncedSave providerType (setEntry providerType i (set_isDisabled true c) m) ∧
  designated (disableProvider providerType (Some cfg) m) providerType i
    (set_isDisabled true c).
Proof.
  intros Hd Hu. pose proof (_findProvider_designated _ _ _ _ Hd) as Hf.
  unfold disableProvider. simpl. rewrite Hu, Hf. split; [reflexivity|].
  apply designated__debouncedSave, (designated_setEntry m providerType i c);
    [exact Hd|reflexivity].
Qed.

(** X8: once an entry has been disabled, no selection on its family
    returns it, whatever model is requested and whatever its health;
    disabling again changes nothing more, and enabling an entry that was
    enabled before it was disabled gives back the entries as they were. *)
Theorem disabled_entry_not_selected (m : Manager) (providerType : string) (i : nat)
    (c cfg : Config) :
  designated m providerType i c → uuid cfg = uuid c →
  (∀ parseDate requestedModel skip now usedAt,
     (selectProvider parseDate providerType requestedModel skip now usedAt
        (disableProvider providerType (Some cfg) m)).1.2 ≠ Some i) ∧
  pool (disableProvider providerType (Some cfg)
          (disableProvider providerType (Some cfg) m)) providerType
    = pool (disableProvider providerType (Some cfg) m) providerType ∧
  (isDisabled c = false →
   pool (enableProvider providerType (Some cfg)
           (disableProvider providerType (Some cfg) m)) providerType
     = pool m providerType).
Proof.
  intros Hd Hu.
  destruct (disableProvider_designated m providerType i c cfg Hd Hu) as [Heq Hd1].
  pose proof (_findProvider_designated _ _ _ _ Hd1) as Hf1.
  assert (uuid cfg = uuid (set_isDisabled true c)) as Hu1 by exact Hu.
  destruct Hd as (_ & Hi & _). destruct Hd1 as (_ & Hi1 & _).
  split; [|split].
  - intros parseDate requestedModel skip now usedAt Hsel.
    apply selectProvider_Some_eligible in Hsel as (c' & Hc' & [Hdis _] & _).
    rewrite Hi1 in Hc'. injection Hc' as <-. discriminate.
  - unfold disableProvider at 1. simpl. rewrite Hu1, Hf1.
    rewrite pool__debouncedSave, pool_setEntry, decide_True by reflexivity.
    apply list_insert_id. exact Hi1.
  - intros Hen. unfold enableProvider. simpl. rewrite Hu1, Hf1.
    rewrite pool__debouncedSave, pool_setEntry, decide_True by reflexivity.
    rewrite Heq, pool__debouncedSave, pool_setEntry, decide_True by reflexivity.
    rewrite list_insert_insert_eq. apply list_insert_id. rewrite Hi. f_equal.
    destruct c. simpl in *. subst. reflexivity.
Qed.

Lemma disabled_entry_not_selected_witness :
  (selectProvider parseExample "openai-custom" None false noon later
     (disableProvider "openai-custom" (Some (initializeEntry (entryNamed "B")))
        twoEntryPool)).1.2 ≠ Some 1%nat ∧
  pool (enableProvider "openai-custom" (Some (initializeEntry (entryNamed "B")))
          (disableProvider "openai-custom" (Some (initializeEntry (entryNamed "B")))
             twoEntryPool)) "openai-custom"
    = pool twoEntryPool "openai-custom".
Proof.
  destruct (disabled_entry_not_selected twoEntryPool "openai-custom" 1
              (initializeEntry (entryNamed "B")) (initializeEntry (entryNamed "B"))
              twoEntryPool_B_designated eq_refl) as (H1 & _ & H3).
  split; [apply H1|apply H3; reflexivity].
Defined.

(** ** The operations as sequences of elementary updates *)

Lemma touches_setEntry (m : Manager) (providerType : string) (i : nat) (c c' : Config) :
  pool m providerType !! i = Some c → rest c' = rest c →
  touches m (setEntry providerType i c' m).
Proof.
  intros Hi Hrest. unfold setEntry.
  apply (touches_pool m providerType (pool m providerType)).
  - exact (pool_lookup_family _ _ _ _ Hi).
  - rewrite list_fmap_insert, Hrest. apply list_insert_id.
    rewrite list_lookup_fmap, Hi. reflexivity.
Qed.

Lemma touches_setEntry_save (m : Manager) (providerType : string) (i : nat)
    (c c' : Config) :
  pool m providerType !! i = Some c → rest c' = rest c →
  touches m (_debouncedSave providerType (setEntry providerType i c' m)).
Proof.
  intros Hi Hrest. eapply touches_trans; [exact (touches_setEntry _ _ _ _ _ Hi Hrest)|].
  apply touches_save. simpl. rewrite lookup_insert_eq. eauto.
Qed.

Lemma touches_markProviderUnhealthy providerType providerConfig errorMessage now m :
  touches m (markProviderUnhealthy providerType providerConfig errorMessage now m).
Proof.
  unfold markProviderUnhealthy.
  destruct (_findProvider m providerType _) as [[i c]|] eqn:Hf; [|apply touches_refl].
  apply _findProvider_Some in Hf as [Hi _].
  apply (touches_setEntry_save m providerType i c); [exact Hi|].
  split_ifs; reflexivity.
Qed.

Lemma touches_markProviderHealthy providerType providerConfig reset model now usedAt m :
  touches m (markProviderHealthy providerType providerConfig reset model now usedAt m).
Proof.
  unfold markProviderHealthy.
  destruct (_findProvider m providerType _) as [[i c]|] eqn:Hf; [|apply touches_refl].
  apply _findProvider_Some in Hf as [Hi _].
  apply (touches_setEntry_save m providerType i c); [exact Hi|].
  split_ifs; reflexivity.
Qed.

Lemma touches_resetProviderCounters providerType providerConfig m :
  touches m (resetProviderCounters providerType providerConfig m).
Proof.
  unfold resetProviderCounters.
  destruct (_findProvider m providerType _) as [[i c]|] eqn:Hf; [|apply touches_refl].
  apply _findProvider_Some in Hf as [Hi _].
  apply (touches_setEntry_save m providerType i c); [exact Hi|reflexivity].
Qed.

Lemma touches_disableProvider providerType providerConfig m :
  touches m (disableProvider providerType providerConfig m).
Proof.
  unfold disableProvider.
  destruct (_findProvider m providerType _) as [[i c]|] eqn:Hf; [|apply touches_refl].
  apply _findProvider_Some in Hf as [Hi _].
  apply (touches_setEntry_save m providerType i c); [exact Hi|reflexivity].
Qed.

Lemma touches_enableProvider providerType providerConfig m :
  touches m (enableProvider providerType providerConfig m).
Proof.
  unfold enableProvider.
  destruct (_findProvider m providerType _) as [[i c]|] eqn:Hf; [|apply touches_refl].
  apply _findProvider_Some in Hf as [Hi _].
  apply (touches_setEntry_save m providerType i c); [exact Hi|reflexivity].
Qed.

Lemma touches_cacheUsageInfo providerType u info now m :
  touches m (cacheUsageInfo providerType u info now m).
Proof.
  unfold cacheUsageInfo.
  destruct (_findProvider m providerType _) as [[i c]|] eqn:Hf; [|apply touches_refl].
  apply _findProvider_Some in Hf as [Hi _].
  apply (touches_setEntry m providerType i c); [exact Hi|reflexivity].
Qed.

Lemma touches_healthCheckCompletion providerType i outcome t1 t2 m :
  touches m (healthCheckCompletion providerType i outcome t1 t2 m).
Proof.
  unfold healthCheckCompletion.
  destruct (pool m providerType !! i) as [c|]; [|apply touches_refl].
  destruct outcome as [error|[healthResult|]].
  - apply touches_markProviderUnhealthy.
  - destruct (Result.success healthResult); [apply touches_markProviderHealthy|].
    eapply touches_trans; [apply touches_markProviderUnhealthy|].
    destruct (pool _ providerType !! i) as [c'|] eqn:Hc'; [|apply touches_refl].
    apply (touches_setEntry _ providerType i c'); [exact Hc'|].
    split_ifs; reflexivity.
  - apply touches_resetProviderCounters.
Qed.

Lemma touches_recoverCompletion providerType providerConfig outcome t1 t2 m :
  touches m (recoverCompletion providerType providerConfig outcome t1 t2 m).
Proof.
  unfold recoverCompletion.
  destruct outcome as [error|[healthResult|]]; try apply touches_refl.
  destruct (Result.success healthResult); [apply touches_markProviderHealthy|].
  destruct (_findProvider m providerType _) as [[i c]|] eqn:Hf; [|apply touches_refl].
  apply _findProvider_Some in Hf as [Hi _].
  apply (touches_setEntry_save m providerType i c); [exact Hi|].
  split_ifs; reflexivity.
Qed.

Lemma sweepOne_rest parseDate interval now acc i :
  rest <$> (sweepOne parseDate interval now acc i).1 = rest <$> acc.1.
Proof.
  unfold sweepOne. destruct (acc.1 !! i) as [c|] eqn:Hc; [|reflexivity].
  destruct (recoveryDue parseDate interval now c); [|reflexivity].
  simpl. rewrite list_fmap_insert. apply list_insert_id.
  rewrite list_lookup_fmap, Hc. reflexivity.
Qed.

Lemma recoverySweep_rest parseDate interval now l enabled :
  rest <$> (recoverySweep parseDate interval now l enabled).1 = rest <$> l.
Proof.
  unfold recoverySweep.
  change (rest <$> l) with (rest <$> (l, @nil nat).1).
  generalize (l, @nil nat). induction enabled as [|i enabled IH]; intros acc;
    [reflexivity|].
  simpl. rewrite IH. apply sweepOne_rest.
Qed.

Lemma touches_selectProvider parseDate providerType requestedModel skip now usedAt m :
  touches m (selectProvider parseDate providerType requestedModel skip now usedAt m).1.1.
Proof.
  destruct (selectProvider_cases parseDate providerType requestedModel skip now usedAt m)
    as [[_ Heq]|(Hty & Hen & i & c & Hi & Hc & Heq)]; rewrite Heq; simpl;
    [apply touches_refl|].
  assert (providerStatus m !! providerType = Some (pool m providerType)) as Hfam.
  { destruct (enabledProviders (pool m providerType) requestedModel) as [|e es] eqn:He;
      [contradiction|].
    assert (e ∈ enabledProviders (pool m providerType) requestedModel) as Hin
      by (rewrite He; left).
    apply enabledProviders_elem in Hin as (ce & Hce & _).
    exact (pool_lookup_family _ _ _ _ Hce). }
  set (sw := recoverySweep parseDate (healthCheckInterval m) now (pool m providerType)
               (enabledProviders (pool m providerType) requestedModel)) in *.
  assert (touches m
            (set_roundRobinIndex
               (<[indexKey providerType requestedModel :=
                    ((default 0%nat
                        (roundRobinIndex m !! indexKey providerType requestedModel) + 1)
                       mod length (candidatesAt parseDate providerType requestedModel
                                     now m))%nat]> (roundRobinIndex m))
               (set_providerStatus (<[providerType := sw.1]> (providerStatus m)) m)))
    as H1.
  { eapply touches_trans; [|apply touches_index].
    apply (touches_pool m providerType (pool m providerType)); [exact Hfam|].
    apply recoverySweep_rest. }
  destruct skip; [exact H1|].
  eapply touches_trans; [exact H1|].
  apply (touches_setEntry_save _ providerType i c); [|reflexivity].
  unfold pool. simpl. rewrite lookup_insert_eq. exact Hc.
Qed.

Lemma touches_step parseDate m m' : step parseDate m m' → touches m m'.
Proof.
  intros Hstep. destruct Hstep.
  - apply touches_selectProvider.
  - apply touches_markProviderUnhealthy.
  - apply touches_markProviderHealthy.
  - apply touches_resetProviderCounters.
  - apply touches_disableProvider.
  - apply touches_enableProvider.
  - apply touches_cacheUsageInfo.
  - apply touches_healthCheckCompletion.
  - apply touches_recoverCompletion.
  - unfold _flushPendingSaves.
    pose proof (touches_flush m) as Hf.
    destruct (flushBegin m) as [types m1]. simpl in Hf |- *.
    destruct types; exact Hf.
Qed.

Lemma touches_rtc parseDate m m' : rtc (step parseDate) m m' → touches m m'.
Proof.
  induction 1 as [|m1 m2 m3 Hstep _ IH]; [apply touches_refl|].
  eapply touches_trans; [exact (touches_step _ _ _ Hstep)|exact IH].
Qed.

(** ** Invariants of the elementary updates *)

Lemma sameConfiguration_touches m m' : touches m m' → sameConfiguration m m'.
Proof.
  induction 1 as [m|m1 m2 m3 _ IH1 _ IH2|m ty l l' Hl Hrest|m ty _|m v|m].
  - repeat split.
  - destruct IH1 as (H1 & H2 & H3 & H4), IH2 as (H1' & H2' & H3' & H4').
    repeat split; congruence.
  - repeat split. simpl. rewrite fmap_insert, Hrest.
    apply insert_id. rewrite lookup_fmap, Hl. reflexivity.
  - repeat split.
  - repeat split.
  - unfold flushBegin. destruct (pendingSaves m); repeat split.
Qed.

Lemma SaveInv_touches m m' : touches m m' → SaveInv m → SaveInv m'.
Proof.
  induction 1 as [m|m1 m2 m3 _ IH1 _ IH2|m ty l l' Hl Hrest|m ty Hty|m v|m];
    intros (Hnd & Hknown & Htimer).
  - repeat split; assumption.
  - apply IH2, IH1. repeat split; assumption.
  - split; [exact Hnd|]. split; [|exact Htimer].
    intros ty' Hin. simpl. destruct (decide (ty = ty')) as [->|Hne].
    + rewrite lookup_insert_eq. eauto.
    + rewrite lookup_insert_ne by exact Hne. apply Hknown, Hin.
  - unfold SaveInv. simpl. destruct (decide (ty ∈ pendingSaves m)) as [Hin|Hnin].
    + repeat split; assumption.
    + split; [|split; [|reflexivity]].
      * apply NoDup_app. split; [exact Hnd|]. split; [|apply NoDup_singleton].
        intros x Hx Hx'. apply list_elem_of_singleton in Hx' as ->. contradiction.
      * intros ty' Hin. apply elem_of_app in Hin as [Hin|Hin]; [apply Hknown, Hin|].
        apply list_elem_of_singleton in Hin as ->. exact Hty.
  - repeat split; assumption.
  - unfold flushBegin. destruct (pendingSaves m) as [|t ts] eqn:Hp.
    + unfold SaveInv. simpl. rewrite Hp. exact (conj Hnd (conj Hknown Htimer)).
    + unfold SaveInv. simpl. split; [apply NoDup_nil_2|].
      split; [intros ty Hin; inversion Hin|congruence].
Qed.

Lemma SaveInv_initializeProviderStatus doc options :
  SaveInv (initializeProviderStatus doc options).
Proof.
  unfold SaveInv. simpl. split; [apply NoDup_nil_2|].
  split; [intros ty Hin; inversion Hin|congruence].
Qed.

Lemma sameConfiguration_lookup m m' providerType :
  sameConfiguration m m' →
  length (pool m' providerType) = length (pool m providerType) ∧
  (is_Some (providerStatus m' !! providerType) ↔
   is_Some (providerStatus m !! providerType)) ∧
  (∀ j c', pool m' providerType !! j = Some c' →
     ∃ c, pool m providerType !! j = Some c ∧ rest c' = rest c).
Proof.
  intros (Hps & _).
  assert (fmap (M := list) rest <$> providerStatus m' !! providerType =
          fmap (M := list) rest <$> providerStatus m !! providerType) as Hl
    by (rewrite <- !lookup_fmap, Hps; reflexivity).
  unfold pool.
  destruct (providerStatus m' !! providerType) as [l'|],
           (providerStatus m !! providerType) as [l|]; simpl in Hl |- *;
    try discriminate.
  - injection Hl as Hl. split; [|split; [split; eauto|]].
    + rewrite <- (length_fmap rest l'), Hl. apply length_fmap.
    + intros j c' Hj.
      assert ((rest <$> l) !! j = Some (rest c')) as Hr
        by (rewrite <- Hl, list_lookup_fmap, Hj; reflexivity).
      rewrite list_lookup_fmap in Hr.
      destruct (l !! j) as [c|]; [|discriminate].
      injection Hr as Hr. eauto.
  - split; [reflexivity|]. split; [split; intros [? [=]]|].
    intros j c' Hj. rewrite lookup_nil in Hj. discriminate.
Qed.

(** X9: in every state reached from a freshly constructed manager, a
    family is scheduled for saving at most once, only families of the pool
    are scheduled, and the timer is armed while one is scheduled; so a
    flush that writes stores the current entries of every scheduled family
    and never meets an unknown family. *)
Theorem pending_saves_known (parseDate : string → option Z) (doc : Document)
    (options : Options) (m : Manager) :
  rtc (step parseDate) (initializeProviderStatus doc options) m →
  NoDup (pendingSaves m) ∧
  (pendingSaves m ≠ [] → saveTimer m = true) ∧
  (∀ providerType, providerType ∈ pendingSaves m →
     ∃ l, providerStatus m !! providerType = Some l ∧
          ∀ read d, (_flushPendingSaves read m).2 = Some d →
                    d !! providerType = Some (map toDocEntry l)).
Proof.
  intros Hreach.
  destruct (SaveInv_touches _ _ (touches_rtc _ _ _ Hreach)
              (SaveInv_initializeProviderStatus doc options))
    as (Hnd & Hknown & Htimer).
  split; [exact Hnd|]. split; [exact Htimer|].
  intros ty Hin. destruct (Hknown ty Hin) as [l Hl]. exists l. split; [exact Hl|].
  intros read d Hd.
  assert (pendingSaves m ≠ []) as Hp by (intros He; rewrite He in Hin; inversion Hin).
  rewrite (_flushPendingSaves_pending _ m Hp) in Hd. simpl in Hd.
  unfold flushWrite in Hd.
  destruct read as [doc0|code]; [|destruct (decide (code = Some "ENOENT")); [|discriminate]];
    injection Hd as <-; rewrite foldl_savePool_lookup; simpl;
    rewrite decide_True by exact Hin; rewrite Hl; reflexivity.
Qed.

Lemma pending_saves_known_witness :
  NoDup (pendingSaves
           (markProviderUnhealthy "openai-custom" (Some (initializeEntry (entryNamed "B")))
              (Some "timeout") noon
              (initializeProviderStatus twoEntryDoc noOptions))) ∧
  pendingSaves
    (markProviderUnhealthy "openai-custom" (Some (initializeEntry (entryNamed "B")))
       (Some "timeout") noon
       (initializeProviderStatus twoEntryDoc noOptions)) = ["openai-custom"].
Proof.
  split; [|vm_compute; reflexivity].
  apply (pending_saves_known parseExample twoEntryDoc noOptions).
  apply rtc_once. apply step_markUnhealthy.
Defined.

(** X10: no operation adds, removes or reorders entries or families, and
    none changes a key of an entry other than the ten managed fields (so
    uuids, credentials and model settings stay as loaded) or the manager's
    settings. *)
Theorem configuration_is_stable (parseDate : string → option Z) (m m' : Manager) :
  rtc (step parseDate) m m' →
  maxErrorCount m' = maxErrorCount m ∧
  healthCheckInterval m' = healthCheckInterval m ∧
  globalConfig m' = globalConfig m ∧
  ∀ providerType,
    (is_Some (providerStatus m' !! providerType) ↔
     is_Some (providerStatus m !! providerType)) ∧
    length (pool m' providerType) = length (pool m providerType) ∧
    ∀ j c', pool m' providerType !! j = Some c' →
      ∃ c, pool m providerType !! j = Some c ∧ rest c' = rest c ∧
           uuid c' = uuid c ∧ checkModelName c' = checkModelName c ∧
           checkHealth c' = checkHealth c ∧
           notSupportedModels c' = notSupportedModels c.
Proof.
  intros Hreach.
  pose proof (sameConfiguration_touches _ _ (touches_rtc _ _ _ Hreach)) as Hsame.
  destruct Hsame as (Hps & H1 & H2 & H3).
  split; [exact H1|]. split; [exact H2|]. split; [exact H3|].
  intros ty.
  destruct (sameConfiguration_lookup m m' ty) as (Hlen & Hsome & Hrest);
    [repeat split; assumption|].
  split; [exact Hsome|]. split; [exact Hlen|].
  intros j c' Hj. destruct (Hrest j c' Hj) as (c & Hc & Hr).
  exists c. split; [exact Hc|]. split; [exact Hr|].
  unfold uuid, checkModelName, checkHealth, notSupportedModels. rewrite Hr.
  repeat split.
Qed.

Lemma configuration_is_stable_witness :
  length (pool (selectProvider parseExample "openai-custom" None false noon later
                  poolWithUnhealthyB).1.1 "openai-custom") =
  length (pool poolWithUnhealthyB "openai-custom").
Proof.
  apply (configuration_is_stable parseExample).
  apply rtc_once. apply step_select.
Defined.

(** ** Restart *)





(** ** The calls of a probe *)

Section ProbeCalls.
Context `{Externals}.

Lemma call_trace {A} (c : Call) (f : World → A * World) (s : St) :
  trace (call c f s).2 = trace s ++ [c].
Proof. unfold call. destruct (f (world s)). reflexivity. Qed.

Lemma tryRequests_trace (serviceAdapter : Adapter World RawUsage) (modelName : string)
    (requests : list Request) (lastError : option Error) (s : St) :
  ∃ n, (n ≤ length requests)%nat ∧
    trace (tryRequests serviceAdapter modelName requests lastError s).2 =
      trace s ++ (GenerateContent modelName <$> take n requests) ∧
    Result.modelName (tryRequests serviceAdapter modelName requests lastError s).1 =
      Some modelName ∧
    (if Result.success (tryRequests serviceAdapter modelName requests lastError s).1
     then (1 ≤ n)%nat else n = length requests).
Proof.
  revert lastError s. induction requests as [|r requests IH]; intros lastError s.
  - exists 0%nat. simpl. rewrite app_nil_r. repeat split; reflexivity.
  - simpl. unfold mbind, probe_bind.
    pose proof (call_trace (GenerateContent modelName r)
                  (generateContent serviceAdapter modelName r) s) as Hc.
    destruct (call _ _ s) as [[error|[]] s1]; simpl in Hc.
    + destruct (IH (Some error) s1) as (n & Hn & Htr & Hm & Hs).
      exists (S n). split; [simpl; lia|]. split; [|split; [exact Hm|]].
      * rewrite Htr, Hc, <- app_assoc. reflexivity.
      * destruct (Result.success _); [lia|simpl; lia].
    + exists 1%nat. simpl. split; [lia|]. split; [|split; [reflexivity|lia]].
      exact Hc.
Qed.

Lemma refreshBeforeUsage_trace (serviceAdapter : Adapter World RawUsage) (s : St) :
  ∃ cs, cs ∈ [[]; [ForceRefreshToken]; [RefreshToken]] ∧
        trace (refreshBeforeUsage serviceAdapter s).2 = trace s ++ cs.
Proof.
  unfold refreshBeforeUsage, mbind, probe_bind, mret, probe_ret, call.
  destruct (forceRefreshToken serviceAdapter) as [f|].
  - exists [ForceRefreshToken]. split; [set_solver|].
    destruct (f (world s)). reflexivity.
  - destruct (refreshToken serviceAdapter) as [f|].
    + exists [RefreshToken]. split; [set_solver|].
      destruct (f (world s)). reflexivity.
    + exists []. split; [set_solver|]. simpl. rewrite app_nil_r. reflexivity.
Qed.

Lemma _checkProviderHealthByUsage_trace (providerType : string)
    (serviceAdapter : Adapter World RawUsage) (providerConfig : Config) (now : Date)
    (s : St) :
  ∃ cs, cs ∈ usageCalls ∧
    trace (_checkProviderHealthByUsage providerType serviceAdapter providerConfig
             now s).2 = trace s ++ cs ∧
    ∀ r, (_checkProviderHealthByUsage providerType serviceAdapter providerConfig
            now s).1 = Some r →
         Result.modelName r = None ∧ GetUsageLimits ∈ cs.
Proof.
  remember (_checkProviderHealthByUsage providerType serviceAdapter providerConfig
              now s) as out eqn:Hout.
  revert Hout. unfold _checkProviderHealthByUsage.
  destruct (getUsageLimits serviceAdapter) as [getUsage|].
  2:{ intros ->. exists []. split; [set_solver|]. simpl. rewrite app_nil_r.
      split; [reflexivity|discriminate]. }
  unfold mbind at 1, probe_bind.
  destruct (refreshBeforeUsage_trace serviceAdapter s) as (cs & Hcs & Hr).
  destruct (refreshBeforeUsage serviceAdapter s) as [[] s1]. simpl in Hr.
  unfold mbind at 1, probe_bind.
  pose proof (call_trace GetUsageLimits getUsage s1) as Hc.
  destruct (call GetUsageLimits getUsage s1) as [rawUsageData s2]. simpl in Hc.
  assert (cs ++ [GetUsageLimits] ∈ usageCalls ∧ GetUsageLimits ∈ cs ++ [GetUsageLimits])
    as [Hshape Hget].
  { split; [|apply elem_of_app; right; left]. unfold usageCalls.
    rewrite !elem_of_cons in Hcs.
    destruct Hcs as [->|[->|[->|Hcs]]]; [set_solver..|inversion Hcs]. }
  assert (trace s2 = trace s ++ (cs ++ [GetUsageLimits])) as Htr
    by (rewrite Hc, Hr, <- app_assoc; reflexivity).
  intros Hout. exists (cs ++ [GetUsageLimits]). split; [exact Hshape|].
  destruct rawUsageData as [error|rawUsageData];
    [subst out; simpl; split; [exact Htr|discriminate]|].
  destruct (negb (String.eqb providerType MODEL_PROVIDER.KIRO_API));
    [subst out; simpl; split; [exact Htr|discriminate]|].
  destruct (formatKiroUsage rawUsageData) as [error|[formattedUsage|]];
    subst out; simpl; (split; [exact Htr|]); try discriminate.
  - intros r [= <-]. split; [reflexivity|exact Hget].
  - intros r [= <-]. split; [reflexivity|exact Hget].
Qed.

Lemma _checkProviderHealth_calls (providerType : string) (providerConfig : Config)
    (forceCheck : bool) (now : Date) (s : St) :
  negb (checkHealth providerConfig) && negb forceCheck = false →
  ∃ usage n,
    trace (_checkProviderHealth providerType providerConfig forceCheck now s).2 =
      trace s ++ [ClearServiceInstance providerType (uuid providerConfig);
                  GetServiceAdapter providerType]
              ++ usage ++ take n (probeRequests providerType providerConfig) ∧
    usage ∈ usageCalls ∧
    (providerType ∉ USAGE_BASED_HEALTH_CHECK_PROVIDERS → usage = []) ∧
    match (_checkProviderHealth providerType providerConfig forceCheck now s).1 with
    | inl _ => usage = [] ∧ n = 0%nat
    | inr None => False
    | inr (Some r) =>
        match Result.modelName r with
        | None => n = 0%nat
        | Some modelName =>
            checkModel providerType providerConfig = Some modelName ∧
            if Result.success r then (1 ≤ n)%nat
            else n = length (probeRequests providerType providerConfig)
        end
    end.
Proof.
  intros Hgate.
  remember (_checkProviderHealth providerType providerConfig forceCheck now s)
    as out eqn:Hout.
  revert Hout. unfold _checkProviderHealth. rewrite Hgate.
  unfold mbind at 1, probe_bind, getManager.
  unfold mbind at 1, probe_bind.
  match goal with
  | |- context [call ?c ?f s] =>
      pose proof (call_trace c f s) as H0; destruct (call c f s) as [[] s0]
  end.
  simpl in H0. unfold mbind at 1, probe_bind.
  match goal with
  | |- context [call ?c ?f s0] =>
      pose proof (call_trace c f s0) as H1;
      destruct (call c f s0) as [[error|serviceAdapter] s1]
  end; simpl in H1.
  { intros ->. exists [], 0%nat. simpl. rewrite H1, H0, <- app_assoc.
    split; [reflexivity|]. split; [set_solver|]. repeat split; reflexivity. }
  assert (trace s1 = trace s ++ [ClearServiceInstance providerType (uuid providerConfig);
                                GetServiceAdapter providerType]) as Hs1
    by (rewrite H1, H0, <- app_assoc; reflexivity).
  unfold mbind at 1, probe_bind.
  assert (∃ usage, usage ∈ usageCalls ∧
            (providerType ∉ USAGE_BASED_HEALTH_CHECK_PROVIDERS → usage = []) ∧
            trace ((if bool_decide (providerType ∈ USAGE_BASED_HEALTH_CHECK_PROVIDERS)
                    then _checkProviderHealthByUsage providerType serviceAdapter
                           providerConfig now
                    else mret None) s1).2 = trace s1 ++ usage ∧
            ∀ r, ((if bool_decide (providerType ∈ USAGE_BASED_HEALTH_CHECK_PROVIDERS)
                   then _checkProviderHealthByUsage providerType serviceAdapter
                          providerConfig now
                   else mret None) s1).1 = Some r → Result.modelName r = None)
    as (usage & Hshape & Hnot & Hu & Hres).
  { destruct (bool_decide (providerType ∈ USAGE_BASED_HEALTH_CHECK_PROVIDERS)) eqn:Hb.
    - destruct (_checkProviderHealthByUsage_trace providerType serviceAdapter
                  providerConfig now s1) as (cs & Hcs & Htr & Hr).
      exists cs. split; [exact Hcs|]. split.
      + intros Hn. apply bool_decide_eq_true in Hb. contradiction.
      + split; [exact Htr|]. intros r Hrr. apply (Hr r Hrr).
    - exists []. split; [set_solver|]. split; [reflexivity|].
      simpl. rewrite app_nil_r. split; [reflexivity|discriminate]. }
  destruct ((if bool_decide (providerType ∈ USAGE_BASED_HEALTH_CHECK_PROVIDERS)
             then _checkProviderHealthByUsage providerType serviceAdapter
                    providerConfig now
             else mret None) s1) as [[r|] s2]; simpl in Hu, Hres.
  { intros ->. exists usage, 0%nat. simpl. rewrite take_0, app_nil_r, Hu, Hs1, <- app_assoc.
    split; [reflexivity|]. split; [exact Hshape|]. split; [exact Hnot|].
    rewrite (Hres r eq_refl). reflexivity. }
  unfold mbind, probe_bind, chatSendProbe, probeRequests.
  destruct (checkModel providerType providerConfig) as [modelName|].
  - destruct (tryRequests_trace serviceAdapter modelName
                (_buildHealthCheckRequests providerType modelName) None s2)
      as (n & Hn & Htr & Hm & Hs).
    destruct (tryRequests _ _ _ _ s2) as [r s3]. simpl in Htr, Hm, Hs.
    intros ->. exists usage, n. simpl.
    rewrite Htr, Hu, Hs1, <- !app_assoc, fmap_take.
    split; [reflexivity|]. split; [exact Hshape|]. split; [exact Hnot|].
    rewrite Hm. split; [reflexivity|]. rewrite length_fmap. exact Hs.
  - intros ->. exists usage, 0%nat. simpl. rewrite app_nil_r, Hu, Hs1, <- app_assoc.
    split; [reflexivity|]. split; [exact Hshape|]. split; [exact Hnot|]. reflexivity.
Qed.

End ProbeCalls.

(** X12: a probe that is not gated off first drops the cached adapter of
    the entry and acquires a fresh one, then makes at most the calls of the
    usage query (only for a family with usage-based checks), then sends a
    prefix of the entry's health-check requests with the entry's check
    model; it sends nothing when acquiring the adapter throws or when the
    usage query gave the verdict, stops at the first request that succeeds
    and reports failure only after all of them failed.  A probe that is
    gated off makes no call and returns null. *)
Theorem probe_call_protocol `{Externals} (providerType : string)
    (providerConfig : Config) (forceCheck : bool) (now : Date) (s : St) :
  if negb (checkHealth providerConfig) && negb forceCheck
  then _checkProviderHealth providerType providerConfig forceCheck now s = (inr None, s)
  else
    ∃ usage n,
      trace (_checkProviderHealth providerType providerConfig forceCheck now s).2 =
        trace s ++ [ClearServiceInstance providerType (uuid providerConfig);
                    GetServiceAdapter providerType]
                ++ usage ++ take n (probeRequests providerType providerConfig) ∧
      usage ∈ usageCalls ∧
      (providerType ∉ USAGE_BASED_HEALTH_CHECK_PROVIDERS → usage = []) ∧
      match (_checkProviderHealth providerType providerConfig forceCheck now s).1 with
      | inl _ => usage = [] ∧ n = 0%nat
      | inr None => False
      | inr (Some r) =>
          match Result.modelName r with
          | None => n = 0%nat
          | Some modelName =>
              checkModel providerType providerConfig = Some modelName ∧
              if Result.success r then (1 ≤ n)%nat
              else n = length (probeRequests providerType providerConfig)
          end
      end.
Proof.
  destruct (negb (checkHealth providerConfig) && negb forceCheck) eqn:Hgate.
  - unfold _checkProviderHealth. rewrite Hgate. reflexivity.
  - apply _checkProviderHealth_calls, Hgate.
Qed.

(** ** The periodic check without a probe *)

Lemma resetProviderCounters_designated (m : Manager) (providerType : string) (i : nat)
    (c : Config) :
  designated m providerType i c →
  pool (resetProviderCounters providerType (Some c) m) providerType !! i =
    Some (set_usageCount 0 (set_errorCount 0 c)) ∧
  providerType ∈ pendingSaves (resetProviderCounters providerType (Some c) m).
Proof.
  intros Hd. pose proof (designated_lt _ _ _ _ Hd) as Hlt.
  apply _findProvider_designated in Hd.
  unfold resetProviderCounters. simpl. rewrite Hd. split.
  - rewrite pool__debouncedSave, pool_setEntry, decide_True by reflexivity.
    apply list_lookup_insert_eq, Hlt.
  - simpl. destruct (decide (providerType ∈ pendingSaves m)) as [Hin|_]; [exact Hin|].
    apply elem_of_app. right. left.
Qed.

(** X13: the periodic check passes over an unhealthy entry whose last
    error is more recent than the check interval without a call or a
    change.  For an entry whose [checkHealth] is off it makes no call
    either, but it sets the entry's error count and usage count to 0 and
    schedules a save, and it leaves the health flag as it is: such an entry
    is never restored by the periodic check. *)
Theorem health_check_without_probe `{Externals} (parseDate : string → option Z)
    (providerType : string) (i : nat) (c : Config) (now tProbe t1 t2 : Date) (s : St) :
  pool (mgr s) providerType !! i = Some c →
  (isHealthy c = false →
   ∀ lastError t,
     lastErrorTime c = Some lastError → lastError ≠ "" →
     parseDate lastError = Some t →
     getTime now - t < healthCheckInterval (mgr s) →
     healthCheckEntry parseDate providerType i now tProbe t1 t2 s = (tt, s)) ∧
  (lastErrorTooRecent parseDate (healthCheckInterval (mgr s)) now c = false →
   checkHealth c = false →
   healthCheckEntry parseDate providerType i now tProbe t1 t2 s =
     (tt, {| mgr := resetProviderCounters providerType (Some c) (mgr s);
             world := world s; trace := trace s |}) ∧
   (designated (mgr s) providerType i c →
    ∃ c',
      pool (resetProviderCounters providerType (Some c) (mgr s)) providerType !! i
        = Some c' ∧
      errorCount c' = 0 ∧ usageCount c' = 0 ∧
      isHealthy c' = isHealthy c ∧ lastErrorTime c' = lastErrorTime c ∧
      lastErrorMessage c' = lastErrorMessage c ∧
      lastHealthCheckTime c' = lastHealthCheckTime c ∧
      providerType ∈ pendingSaves (resetProviderCounters providerType (Some c) (mgr s)))).
Proof.
  intros Hc. split.
  - intros Hh lastError t Hle Hne Ht Hlt.
    unfold healthCheckEntry, mbind, probe_bind, getManager. rewrite Hc.
    unfold lastErrorTooRecent. rewrite Hh, Hle. simpl. rewrite Ht.
    destruct (String.eqb_spec lastError ""); [contradiction|]. simpl.
    rewrite (proj2 (Z.ltb_lt _ _) Hlt). reflexivity.
  - intros Hrecent Hcheck. split.
    + unfold healthCheckEntry, mbind, probe_bind, getManager. rewrite Hc, Hrecent.
      unfold _checkProviderHealth. rewrite Hcheck. simpl.
      unfold modifyManager, healthCheckCompletion. simpl. rewrite Hc. reflexivity.
    + intros Hd. destruct (resetProviderCounters_designated _ _ _ _ Hd) as [Hl Hp].
      eexists. split; [exact Hl|]. simpl. repeat split. exact Hp.
Qed.

Lemma health_check_without_probe_witness :
  @healthCheckEntry scriptedExternals parseExample "openai-custom" 1 later later
    later later idleState = (tt, idleState) ∧
  ∃ c',
    pool (mgr (@healthCheckEntry scriptedExternals parseExample "openai-custom" 1
                 afternoon afternoon afternoon afternoon idleState).2)
      "openai-custom" !! 1%nat = Some c' ∧
    usageCount c' = 0 ∧ isHealthy c' = false.
Proof.
  destruct (@health_check_without_probe scriptedExternals parseExample "openai-custom"
              1 unhealthyB later later later later idleState eq_refl) as [Hskip _].
  destruct (@health_check_without_probe scriptedExternals parseExample "openai-custom"
              1 unhealthyB afternoon afternoon afternoon afternoon idleState eq_refl)
    as [_ Hreset].
  split.
  - apply (Hskip eq_refl (toISOString noon) (getTime noon) eq_refl);
      [discriminate|reflexivity|vm_compute; reflexivity].
  - destruct (Hreset eq_refl eq_refl) as [Heq Hd]. rewrite Heq.
    destruct (Hd poolWithUnhealthyB_designated) as (c' & Hl & _ & Hu & Hh & _).
    exists c'. split; [exact Hl|]. split; [exact Hu|]. rewrite Hh. reflexivity.
Defined.

(** ** The verdict of the usage query *)

Lemma cacheUsageInfo_designated (m : Manager) (providerType : string) (i : nat)
    (c : Config) (info : UsageInfo) (now : Date) :
  designated m providerType i c →
  pool (cacheUsageInfo providerType (uuid c) info now m) providerType !! i =
    Some (set_lastHealthCheckTime (Some (toISOString now)) (set_usageInfo (Some info) c)).
Proof.
  intros Hd. pose proof (designated_lt _ _ _ _ Hd) as Hlt.
  apply _findProvider_designated in Hd.
  unfold cacheUsageInfo. rewrite Hd.
  rewrite pool_setEntry, decide_True by reflexivity.
  apply list_lookup_insert_eq, Hlt.
Qed.

Lemma cacheUsageInfo_pendingSaves (m : Manager) (providerType : string)
    (u : option string) (info : UsageInfo) (now : Date) :
  pendingSaves (cacheUsageInfo providerType u info now m) = pendingSaves m ∧
  saveTimer (cacheUsageInfo providerType u info now m) = saveTimer m.
Proof.
  unfold cacheUsageInfo. destruct (_findProvider m providerType u) as [[i c]|];
    split; reflexivity.
Qed.

Lemma _checkProviderHealthByUsage_verdict `{Externals}
    (serviceAdapter : Adapter World RawUsage) (providerConfig : Config) (now : Date)
    (s1 : St) (getUsage : World → (Error + RawUsage) * World)
    (rawUsageData : RawUsage) (w2 : World) (parsed : option Usage.Formatted) :
  getUsageLimits serviceAdapter = Some getUsage →
  getUsage (world (refreshBeforeUsage serviceAdapter s1).2) = (inr rawUsageData, w2) →
  formatKiroUsage rawUsageData = inr parsed →
  _checkProviderHealthByUsage "claude-kiro-oauth" serviceAdapter providerConfig now s1 =
  match parsed with
  | None =>
      (Some {| Result.success := false; Result.modelName := None;
               Result.errorMessage := Some "Failed to parse usage data";
               Result.usageInfo := None |},
       called GetUsageLimits w2 (refreshBeforeUsage serviceAdapter s1).2)
  | Some formattedUsage =>
      (Some {| Result.success := Analysis.success (_analyzeUsageHealth numberText formattedUsage);
               Result.modelName := None;
               Result.errorMessage :=
                 if Analysis.success (_analyzeUsageHealth numberText formattedUsage) then None
                 else Analysis.errorMessage (_analyzeUsageHealth numberText formattedUsage);
               Result.usageInfo :=
                 Some (Analysis.usageInfo (_analyzeUsageHealth numberText formattedUsage)) |},
       {| mgr := cacheUsageInfo "claude-kiro-oauth" (uuid providerConfig)
                   (Analysis.usageInfo (_analyzeUsageHealth numberText formattedUsage)) now
                   (mgr (refreshBeforeUsage serviceAdapter s1).2);
          world := w2;
          trace := trace (refreshBeforeUsage serviceAdapter s1).2
                     ++ [GetUsageLimits] |})
  end.
Proof.
  intros Husage Hquery Hformat.
  unfold _checkProviderHealthByUsage. rewrite Husage.
  unfold mbind, probe_bind, call, called.
  destruct (refreshBeforeUsage serviceAdapter s1) as [[] s2].
  cbn [fst snd] in Hquery |- *. rewrite Hquery.
  change (negb (String.eqb "claude-kiro-oauth" MODEL_PROVIDER.KIRO_API)) with false.
  cbv iota. rewrite Hformat.
  destruct parsed as [formattedUsage|]; reflexivity.
Qed.

(** X14: when the quota query of a Kiro entry returns, its verdict is the
    result of the probe and no message is sent.  If the usage data cannot
    be formatted the probe fails with a fixed message and the pool is
    unchanged; otherwise the verdict is that of the usage analysis, and the
    usage snapshot and the time of the check are stored on the entry
    whatever the verdict, without scheduling a save and without changing
    the health flag or the error count. *)
Theorem usage_verdict_is_final `{Externals} (providerConfig : Config)
    (forceCheck : bool) (now : Date) (s : St)
    (serviceAdapter : Adapter World RawUsage)
    (getUsage : World → (Error + RawUsage) * World) (w1 w2 : World)
    (rawUsageData : RawUsage) (parsed : option Usage.Formatted) :
  checkHealth providerConfig = true ∨ forceCheck = true →
  getServiceAdapter
    {| providerConfig := providerConfig;
       tempModelProvider := "claude-kiro-oauth";
       proxy := proxySettings (globalConfig (mgr s)) |}
    (clearServiceInstance "claude-kiro-oauth" (uuid providerConfig) (world s))
    = (inr serviceAdapter, w1) →
  getUsageLimits serviceAdapter = Some getUsage →
  getUsage (world (refreshBeforeUsage serviceAdapter
                     (acquired "claude-kiro-oauth" (uuid providerConfig) w1 s)).2)
    = (inr rawUsageData, w2) →
  formatKiroUsage rawUsageData = inr parsed →
  world (_checkProviderHealth "claude-kiro-oauth" providerConfig forceCheck now s).2
    = w2 ∧
  trace (_checkProviderHealth "claude-kiro-oauth" providerConfig forceCheck now s).2
    = trace (refreshBeforeUsage serviceAdapter
               (acquired "claude-kiro-oauth" (uuid providerConfig) w1 s)).2
      ++ [GetUsageLimits] ∧
  pendingSaves
    (mgr (_checkProviderHealth "claude-kiro-oauth" providerConfig forceCheck now s).2)
    = pendingSaves (mgr s) ∧
  match parsed with
  | None =>
      (_checkProviderHealth "claude-kiro-oauth" providerConfig forceCheck now s).1
        = inr (Some {| Result.success := false; Result.modelName := None;
                       Result.errorMessage := Some "Failed to parse usage data";
                       Result.usageInfo := None |}) ∧
      mgr (_checkProviderHealth "claude-kiro-oauth" providerConfig forceCheck now s).2
        = mgr s
  | Some formattedUsage =>
      (_checkProviderHealth "claude-kiro-oauth" providerConfig forceCheck now s).1
        = inr (Some
            {| Result.success := Analysis.success (_analyzeUsageHealth numberText formattedUsage);
               Result.modelName := None;
               Result.errorMessage :=
                 if Analysis.success (_analyzeUsageHealth numberText formattedUsage) then None
                 else Analysis.errorMessage (_analyzeUsageHealth numberText formattedUsage);
               Result.usageInfo :=
                 Some (Analysis.usageInfo (_analyzeUsageHealth numberText formattedUsage)) |}) ∧
      mgr (_checkProviderHealth "claude-kiro-oauth" providerConfig forceCheck now s).2
        = cacheUsageInfo "claude-kiro-oauth" (uuid providerConfig)
            (Analysis.usageInfo (_analyzeUsageHealth numberText formattedUsage)) now (mgr s) ∧
      ∀ i, designated (mgr s) "claude-kiro-oauth" i providerConfig →
        ∃ c',
          pool (mgr (_checkProviderHealth "claude-kiro-oauth" providerConfig
                       forceCheck now s).2) "claude-kiro-oauth" !! i = Some c' ∧
          usageInfo c' = Some (Analysis.usageInfo (_analyzeUsageHealth numberText formattedUsage)) ∧
          lastHealthCheckTime c' = Some (toISOString now) ∧
          isHealthy c' = isHealthy providerConfig ∧
          errorCount c' = errorCount providerConfig ∧
          usageCount c' = usageCount providerConfig
  end.
Proof.
  intros Hgate Hadapter Husage Hquery Hformat.
  set (s1 := acquired "claude-kiro-oauth" (uuid providerConfig) w1 s) in *.
  pose proof (refreshBeforeUsage_mgr serviceAdapter s1) as Hrm.
  assert (_checkProviderHealth "claude-kiro-oauth" providerConfig forceCheck now s =
          let s2 := called GetUsageLimits w2 (refreshBeforeUsage serviceAdapter s1).2 in
          match parsed with
          | None =>
              (inr (Some {| Result.success := false; Result.modelName := None;
                            Result.errorMessage := Some "Failed to parse usage data";
                            Result.usageInfo := None |}), s2)
          | Some formattedUsage =>
              (inr (Some
                 {| Result.success :=
                      Analysis.success (_analyzeUsageHealth numberText formattedUsage);
                    Result.modelName := None;
                    Result.errorMessage :=
                      if Analysis.success (_analyzeUsageHealth numberText formattedUsage) then None
                      else Analysis.errorMessage (_analyzeUsageHealth numberText formattedUsage);
                    Result.usageInfo :=
                      Some (Analysis.usageInfo (_analyzeUsageHealth numberText formattedUsage)) |}),
               {| mgr := cacheUsageInfo "claude-kiro-oauth" (uuid providerConfig)
                           (Analysis.usageInfo (_analyzeUsageHealth numberText formattedUsage))
                           now (mgr s2);
                  world := world s2; trace := trace s2 |})
          end) as Hout.
  { unfold _checkProviderHealth.
    replace (negb (checkHealth providerConfig) && negb forceCheck) with false.
    2:{ destruct Hgate as [-> | ->]; [reflexivity|].
        destruct (checkHealth providerConfig); reflexivity. }
    unfold mbind at 1 2 3, probe_bind, getManager, call. simpl.
    rewrite Hadapter. simpl.
    unfold mbind at 1, probe_bind.
    match goal with
    | |- context [_checkProviderHealthByUsage _ _ _ _ ?st] =>
        replace st with s1
          by (unfold s1, acquired; rewrite <- app_assoc; reflexivity)
    end.
    rewrite (_checkProviderHealthByUsage_verdict serviceAdapter providerConfig now s1
               getUsage rawUsageData w2 parsed Husage Hquery Hformat).
    destruct parsed as [formattedUsage|]; reflexivity. }
  rewrite Hout. clear Hout. simpl.
  destruct parsed as [formattedUsage|]; simpl; rewrite ?Hrm.
  - split; [reflexivity|]. split; [reflexivity|].
    split; [apply cacheUsageInfo_pendingSaves|].
    split; [reflexivity|]. split; [reflexivity|].
    intros i Hd. eexists. split; [apply cacheUsageInfo_designated, Hd|].
    repeat split.
  - repeat split; reflexivity.
Qed.

Lemma usage_verdict_is_final_witness :
  (@_checkProviderHealth quotaExternals "claude-kiro-oauth" kiroEntry false noon
     quotaState).1
    = inr (Some {| Result.success := false; Result.modelName := None;
                   Result.errorMessage := Some "配额已用完 (100/100)";
                   Result.usageInfo :=
                     Some (Analysis.usageInfo (_analyzeUsageHealth (@numberText quotaExternals) exhaustedUsage)) |}) ∧
  trace (@_checkProviderHealth quotaExternals "claude-kiro-oauth" kiroEntry false noon
           quotaState).2
    = [ClearServiceInstance "claude-kiro-oauth" (Some "K");
       GetServiceAdapter "claude-kiro-oauth"; RefreshToken; GetUsageLimits].
Proof.
  destruct (@usage_verdict_is_final quotaExternals kiroEntry false noon quotaState
              quotaAdapter (λ w, (inr exhaustedUsage, S w)) 0%nat 2%nat
              exhaustedUsage (Some exhaustedUsage)
              (or_introl eq_refl) eq_refl eq_refl eq_refl eq_refl)
    as (_ & Htrace & _ & Hres & _).
  split; [rewrite Hres; vm_compute; reflexivity|exact Htrace].
Defined.

(** ** Recovery probes *)

Section ProbeEntry.
Context `{Externals}.

Lemma _checkProviderHealth_mgr (providerType : string) (providerConfig : Config)
    (forceCheck : bool) (now : Date) (s : St) :
  mgr (_checkProviderHealth providerType providerConfig forceCheck now s).2 = mgr s ∨
  ∃ info,
    mgr (_checkProviderHealth providerType providerConfig forceCheck now s).2
      = cacheUsageInfo providerType (uuid providerConfig) info now (mgr s) ∧
    ∀ error,
      (_checkProviderHealth providerType providerConfig forceCheck now s).1 ≠ inl error.
Proof.
  remember (_checkProviderHealth providerType providerConfig forceCheck now s)
    as out eqn:Hout.
  revert Hout. unfold _checkProviderHealth.
  destruct (negb (checkHealth providerConfig) && negb forceCheck);
    [intros ->; left; reflexivity|].
  unfold mbind at 1, probe_bind, getManager.
  unfold mbind at 1, probe_bind.
  match goal with
  | |- context [call ?c ?f s] =>
      pose proof (call_mgr c f s) as H0; destruct (call c f s) as [[] s0]
  end.
  simpl in H0. unfold mbind at 1, probe_bind.
  match goal with
  | |- context [call ?c ?f s0] =>
      pose proof (call_mgr c f s0) as H1;
      destruct (call c f s0) as [[error|serviceAdapter] s1]
  end; simpl in H1.
  { intros ->. left. simpl. congruence. }
  unfold mbind at 1, probe_bind.
  assert (mgr ((if bool_decide (providerType ∈ USAGE_BASED_HEALTH_CHECK_PROVIDERS)
                then _checkProviderHealthByUsage providerType serviceAdapter
                       providerConfig now
                else mret None) s1).2 = mgr s ∨
          ∃ info,
            mgr ((if bool_decide (providerType ∈ USAGE_BASED_HEALTH_CHECK_PROVIDERS)
                  then _checkProviderHealthByUsage providerType serviceAdapter
                         providerConfig now
                  else mret None) s1).2
            = cacheUsageInfo providerType (uuid providerConfig) info now (mgr s)) as Hu.
  { destruct (bool_decide (providerType ∈ USAGE_BASED_HEALTH_CHECK_PROVIDERS)).
    - destruct (_checkProviderHealthByUsage_mgr providerType serviceAdapter
                  providerConfig now s1) as [-> | [info ->]].
      + left. congruence.
      + right. exists info. rewrite H1, H0. reflexivity.
    - left. simpl. congruence. }
  destruct ((if bool_decide (providerType ∈ USAGE_BASED_HEALTH_CHECK_PROVIDERS)
             then _checkProviderHealthByUsage providerType serviceAdapter
                    providerConfig now
             else mret None) s1) as [[r|] s2]; simpl in Hu.
  { intros ->. simpl. destruct Hu as [Hu|[info Hu]]; [left; exact Hu|].
    right. exists info. split; [exact Hu|discriminate]. }
  unfold mbind, probe_bind, chatSendProbe.
  destruct (checkModel providerType providerConfig) as [modelName|].
  - pose proof (tryRequests_mgr serviceAdapter modelName
                  (_buildHealthCheckRequests providerType modelName) None s2) as Hb.
    destruct (tryRequests _ _ _ _ s2) as [r s3]. simpl in Hb. intros ->. simpl.
    rewrite Hb. destruct Hu as [Hu|[info Hu]]; [left; exact Hu|].
    right. exists info. split; [exact Hu|discriminate].
  - intros ->. simpl. destruct Hu as [Hu|[info Hu]]; [left; exact Hu|].
    right. exists info. split; [exact Hu|discriminate].
Qed.

End ProbeEntry.

Lemma designated_cacheUsageInfo (m : Manager) (providerType : string) (i : nat)
    (c : Config) (info : UsageInfo) (now : Date) :
  designated m providerType i c →
  designated (cacheUsageInfo providerType (uuid c) info now m) providerType i
    (set_lastHealthCheckTime (Some (toISOString now)) (set_usageInfo (Some info) c)).
Proof.
  intros Hd. unfold cacheUsageInfo. rewrite (_findProvider_designated _ _ _ _ Hd).
  apply (designated_setEntry m providerType i c); [exact Hd|reflexivity].
Qed.

Lemma _checkProviderHealth_designated `{Externals} (providerType : string) (i : nat)
    (c : Config) (forceCheck : bool) (now : Date) (s : St) :
  designated (mgr s) providerType i c →
  ∃ c1,
    designated (mgr (_checkProviderHealth providerType c forceCheck now s).2)
      providerType i c1 ∧
    uuid c1 = uuid c ∧ isHealthy c1 = isHealthy c ∧ isDisabled c1 = isDisabled c ∧
    errorCount c1 = errorCount c ∧ usageCount c1 = usageCount c ∧
    lastUsed c1 = lastUsed c ∧ lastErrorTime c1 = lastErrorTime c ∧
    lastErrorMessage c1 = lastErrorMessage c ∧
    lastHealthCheckModel c1 = lastHealthCheckModel c ∧ rest c1 = rest c ∧
    pendingSaves (mgr (_checkProviderHealth providerType c forceCheck now s).2)
      = pendingSaves (mgr s).
Proof.
  intros Hd.
  destruct (_checkProviderHealth_mgr providerType c forceCheck now s)
    as [-> | [info [-> _]]].
  - exists c. split; [exact Hd|]. repeat split.
  - eexists. split; [apply designated_cacheUsageInfo, Hd|].
    repeat split. apply cacheUsageInfo_pendingSaves.
Qed.

(** X15: the probe that [_tryRecoverProvider] runs is never gated off, so
    it never returns null.  When acquiring the adapter throws nothing
    changes.  When the probe succeeds the entry becomes healthy with its
    error fields cleared, and the recovery counts as a use: the usage count
    grows by one and [lastUsed] is set.  When the probe fails the error
    count, the time of the last error, the health flag and the usage count
    stay as they were, and only the message and the time of the check are
    recorded. *)
Theorem recovery_probe_outcome `{Externals} (providerType : string) (i : nat)
    (c : Config) (tProbe t1 t2 : Date) (s : St) :
  designated (mgr s) providerType i c →
  (_checkProviderHealth providerType c true tProbe s).1 ≠ inr None ∧
  ∃ c',
    pool (mgr (_tryRecoverProvider providerType c tProbe t1 t2 s).2) providerType !! i
      = Some c' ∧
    isDisabled c' = isDisabled c ∧ rest c' = rest c ∧
    match (_checkProviderHealth providerType c true tProbe s).1 with
    | inl _ | inr None => c' = c
    | inr (Some healthResult) =>
        lastHealthCheckTime c' = Some (toISOString t1) ∧
        if Result.success healthResult
        then isHealthy c' = true ∧ errorCount c' = 0 ∧ lastErrorTime c' = None ∧
             lastErrorMessage c' = None ∧ usageCount c' = usageCount c + 1 ∧
             lastUsed c' = Some (toISOString t2)
        else isHealthy c' = isHealthy c ∧ errorCount c' = errorCount c ∧
             lastErrorTime c' = lastErrorTime c ∧ usageCount c' = usageCount c ∧
             lastUsed c' = lastUsed c ∧
             lastErrorMessage c' = Result.errorMessage healthResult
    end.
Proof.
  intros Hd. split.
  { destruct (_checkProviderHealth_calls providerType c true tProbe s)
      as (usage & n & _ & _ & _ & Hres).
    - rewrite andb_false_r. reflexivity.
    - intros Hnull. rewrite Hnull in Hres. exact Hres. }
  unfold _tryRecoverProvider, mbind, probe_bind, modifyManager.
  destruct (_checkProviderHealth_designated providerType i c true tProbe s Hd)
    as (c1 & Hd1 & Hu & Hh & Hdis & He & Huc & Hlu & Hlt & Hlm & Hlhm & Hrest & _).
  pose proof (_checkProviderHealth_mgr providerType c true tProbe s) as Hmgr.
  destruct (_checkProviderHealth_calls providerType c true tProbe s)
    as (usage & n & _ & _ & _ & Hres); [rewrite andb_false_r; reflexivity|].
  destruct (_checkProviderHealth providerType c true tProbe s) as [outcome s1].
  simpl in Hd1, Hmgr, Hres |- *.
  pose proof (designated_lt _ _ _ _ Hd1) as Hlen.
  pose proof (_findProvider_designated _ _ _ _ Hd1) as Hfind. rewrite Hu in Hfind.
  destruct outcome as [error|[healthResult|]]; [|clear Hres|contradiction].
  - destruct Hres as [-> _]. simpl.
    destruct Hd as (_ & Hc & _), Hd1 as (_ & Hc1 & _).
    assert (mgr s1 = mgr s) as Hsame.
    { destruct Hmgr as [Hm|[info [_ Hne]]]; [exact Hm|].
      contradiction (Hne error). reflexivity. }
    exists c. rewrite Hsame. split; [exact Hc|]. repeat split.
  - unfold recoverCompletion. simpl.
    destruct (Result.success healthResult).
    + unfold markProviderHealthy. simpl. rewrite Hfind.
      eexists. split.
      * rewrite pool__debouncedSave, pool_setEntry, decide_True by reflexivity.
        apply list_lookup_insert_eq, Hlen.
      * destruct (truthy_str (Result.modelName healthResult)); simpl;
          rewrite Hdis, Hrest, Huc; repeat split; reflexivity.
    + rewrite Hfind. eexists. split.
      * rewrite pool__debouncedSave, pool_setEntry, decide_True by reflexivity.
        apply list_lookup_insert_eq, Hlen.
      * destruct (truthy_str (Result.modelName healthResult)); simpl;
          rewrite Hdis, Hrest, Hh, He, Hlt, Huc, Hlu; repeat split; reflexivity.
Qed.

Lemma recovery_probe_outcome_witness :
  ∃ c',
    pool (mgr (@_tryRecoverProvider scriptedExternals "openai-custom" unhealthyB
                 later later afternoon idleState).2) "openai-custom" !! 1%nat
      = Some c' ∧
    isHealthy c' = true ∧ usageCount c' = usageCount unhealthyB + 1 ∧
    lastUsed c' = Some (toISOString afternoon).
Proof.
  destruct (@recovery_probe_outcome scriptedExternals "openai-custom" 1 unhealthyB
              later later afternoon idleState poolWithUnhealthyB_designated)
    as (_ & c' & Hl & _ & _ & Hm).
  exists c'. split; [exact Hl|].
  change ((@_checkProviderHealth scriptedExternals "openai-custom" unhealthyB true
             later idleState).1)
    with (@inr Error _ (Some (probeSucceeded "gpt-3.5-turbo"))) in Hm.
  simpl in Hm. destruct Hm as (_ & Hh & _ & _ & _ & Hu & Hlu).
  split; [exact Hh|]. split; [exact Hu|exact Hlu].
Defined.

(** ** The health-check requests *)

(** X16: for every family and model the list of health-check requests has
    one or two elements, each carrying exactly one payload (contents
    without a model, or the message as messages or input with the model);
    only the Kiro family has two requests and only its requests limit the
    tokens, only the responses family sends [input], and the requests of a
    Gemini family do not depend on the model.  So the chat-send probe of an
    entry that has a check model always has a request to send. *)
Theorem health_check_requests_shape (providerType modelName : string) :
  (1 ≤ length (_buildHealthCheckRequests providerType modelName) ≤ 2)%nat ∧
  Forall (wellFormedRequest modelName)
    (_buildHealthCheckRequests providerType modelName) ∧
  (length (_buildHealthCheckRequests providerType modelName) = 2%nat ↔
   String.prefix "gemini" providerType = false ∧
   String.prefix "claude-kiro" providerType = true) ∧
  (∀ r, r ∈ _buildHealthCheckRequests providerType modelName →
     (max_tokens r = None ∨
      max_tokens r = Some 1 ∧ String.prefix "claude-kiro" providerType = true) ∧
     (input r ≠ None → providerType = MODEL_PROVIDER.OPENAI_CUSTOM_RESPONSES)) ∧
  (String.prefix "gemini" providerType = true →
   ∀ otherModel,
     _buildHealthCheckRequests providerType otherModel =
     _buildHealthCheckRequests providerType modelName) ∧
  (∀ providerConfig,
     checkModel providerType providerConfig = Some modelName →
     probeRequests providerType providerConfig ≠ [] ∧
     length (probeRequests providerType providerConfig) =
       length (_buildHealthCheckRequests providerType modelName)).
Proof.
  assert (∀ providerConfig,
     checkModel providerType providerConfig = Some modelName →
     probeRequests providerType providerConfig ≠ [] ∧
     length (probeRequests providerType providerConfig) =
       length (_buildHealthCheckRequests providerType modelName)) as Hprobe.
  { intros providerConfig Hm. unfold probeRequests. rewrite Hm, length_fmap.
    split; [|reflexivity]. unfold _buildHealthCheckRequests.
    destruct (String.prefix "gemini" providerType); [discriminate|].
    destruct (String.prefix "claude-kiro" providerType); [discriminate|].
    destruct (String.eqb providerType _); discriminate. }
  revert Hprobe. unfold _buildHealthCheckRequests.
  destruct (String.prefix "gemini" providerType) eqn:Hg;
    [|destruct (String.prefix "claude-kiro" providerType) eqn:Hk;
      [|destruct (String.eqb_spec providerType MODEL_PROVIDER.OPENAI_CUSTOM_RESPONSES)
          as [Hr|Hr]]];
    intros Hprobe; simpl.
  - split; [lia|]. split; [repeat constructor|].
    split; [split; [discriminate|intros [[=] _]]|].
    split; [|split; [reflexivity|exact Hprobe]].
    intros r Hin. apply list_elem_of_singleton in Hin as ->. simpl.
    split; [left; reflexivity|congruence].
  - split; [lia|]. split; [repeat constructor|].
    split; [split; [split; reflexivity|reflexivity]|].
    split; [|split; [discriminate|exact Hprobe]].
    intros r Hin. apply elem_of_cons in Hin as [->|Hin];
      [|apply list_elem_of_singleton in Hin as ->]; simpl;
      (split; [right; split; reflexivity|congruence]).
  - split; [lia|]. split; [repeat constructor|].
    split; [split; [discriminate|intros [_ [=]]]|].
    split; [|split; [discriminate|exact Hprobe]].
    intros r' Hin. apply list_elem_of_singleton in Hin as ->. simpl.
    split; [left; reflexivity|intros _; exact Hr].
  - split; [lia|]. split; [repeat constructor|].
    split; [split; [discriminate|intros [_ [=]]]|].
    split; [|split; [discriminate|exact Hprobe]].
    intros r' Hin. apply list_elem_of_singleton in Hin as ->. simpl.
    split; [left; reflexivity|congruence].
Qed.

(** ** Retryable network errors *)

Lemma prefix_app (sub s : string) :
  String.prefix sub s = true ↔ ∃ post, s = sub +:+ post.
Proof.
  revert s. induction sub as [|a sub IH]; intros s; simpl.
  - split; [intros _; exists s; reflexivity|intros _; destruct s; reflexivity].
  - destruct s as [|b s]; [split; [discriminate|intros [post [=]]]|].
    simpl. destruct (Ascii.ascii_dec a b) as [->|Hne].
    + rewrite IH. split; intros [post Hp]; exists post.
      * simpl. rewrite Hp. reflexivity.
      * simpl in Hp. injection Hp as Hp. exact Hp.
    + split; [discriminate|]. intros [post [= Hab _]]. congruence.
Qed.

Lemma String_includes_app (s sub : string) :
  String_includes s sub = true ↔ ∃ pre post, s = pre +:+ sub +:+ post.
Proof.
  induction s as [|a s IH]; cbn [String_includes].
  - rewrite orb_false_r, prefix_app. split.
    + intros [post Hp]. exists "", post. exact Hp.
    + intros ([|b pre] & post & Hp); [exists post; exact Hp|discriminate].
  - rewrite orb_true_iff, IH, prefix_app. split.
    + intros [[post Hp]|(pre & post & Hp)].
      * exists "", post. exact Hp.
      * exists (String a pre), post. simpl. rewrite Hp. reflexivity.
    + intros ([|b pre] & post & Hp).
      * left. exists post. exact Hp.
      * right. exists pre, post. simpl in Hp. injection Hp as _ Hp. exact Hp.
Qed.

(** X17: an error is a retryable network error exactly when it is not
    null and, for one of the ten listed identifiers, its code is the
    identifier or its message contains the identifier somewhere; the
    comparison is case-sensitive and an error without code and message is
    not retryable. *)
Theorem isRetryableNetworkError_iff (error : option Net.Error) :
  isRetryableNetworkError error = true ↔
  ∃ e errId,
    error = Some e ∧ errId ∈ RETRYABLE_NETWORK_ERRORS ∧
    (Net.code e = Some errId ∨
     ∃ pre post, Net.message e = Some (pre +:+ errId +:+ post)).
Proof.
  assert (Forall (λ errId, errId ≠ "") RETRYABLE_NETWORK_ERRORS) as Hne
    by (repeat constructor; discriminate).
  rewrite Forall_forall in Hne.
  destruct error as [e|]; unfold isRetryableNetworkError.
  2:{ split; [discriminate|]. intros (e & errId & [=] & _). }
  rewrite existsb_exists. split.
  - intros (errId & Hin & Hm). apply list_elem_of_In in Hin.
    exists e, errId. split; [reflexivity|]. split; [exact Hin|].
    apply orb_true_iff in Hm as [Hm|Hm].
    + left. apply String.eqb_eq in Hm.
      unfold or_null in Hm. destruct (Net.code e) as [c|]; simpl in Hm.
      * destruct (String.eqb_spec c ""); simpl in Hm; [|congruence].
        subst errId. contradiction (Hne "" Hin). reflexivity.
      * subst errId. contradiction (Hne "" Hin). reflexivity.
    + right. apply String_includes_app in Hm as (pre & post & Hm).
      exists pre, post. unfold or_null in Hm.
      destruct (Net.message e) as [msg|]; simpl in Hm.
      * destruct (String.eqb_spec msg ""); simpl in Hm; [|congruence].
        destruct pre; [|discriminate]. simpl in Hm.
        destruct errId; [|discriminate]. contradiction (Hne "" Hin). reflexivity.
      * destruct pre; [|discriminate]. simpl in Hm.
        destruct errId; [|discriminate]. contradiction (Hne "" Hin). reflexivity.
  - intros (e' & errId & [= <-] & Hin & Hm).
    exists errId. split; [apply list_elem_of_In, Hin|].
    apply orb_true_iff. destruct Hm as [Hc|(pre & post & Hmsg)].
    + left. rewrite Hc. unfold or_null. simpl.
      destruct (String.eqb_spec errId "") as [->|_]; simpl.
      * contradiction (Hne "" Hin). reflexivity.
      * apply String.eqb_refl.
    + right. rewrite Hmsg. unfold or_null. simpl.
      destruct (String.eqb_spec (pre +:+ errId +:+ post) "") as [He|_]; simpl.
      * destruct pre; [|discriminate]. destruct errId; [|discriminate].
        contradiction (Hne "" Hin). reflexivity.
      * apply String_includes_app. eauto.
Qed.

(** ** The pool generated from tokens *)

Lemma default_or_null_nonempty (fallback : string) (o : option string) :
  fallback ≠ "" → default fallback (or_null o) ≠ "".
Proof.
  intros Hf. unfold or_null. destruct o as [s|]; simpl; [|exact Hf].
  destruct (String.eqb_spec s ""); simpl; assumption.
Qed.

Lemma generatePoolEntry_rest (credFilePath : string) (token : Token.t) (index : nat)
    (now : Z) :
  Doc.rest (generatePoolEntry credFilePath token index now) !! "uuid" =
    Some (JStr (default ("kiro-" +:+ pretty now +:+ "-" +:+ pretty index)
                  (or_null (Token.id token)))) ∧
  Doc.rest (generatePoolEntry credFilePath token index now) !! "checkModelName" =
    Some (JStr "claude-haiku-4-5") ∧
  Doc.rest (generatePoolEntry credFilePath token index now) !! "checkHealth" =
    Some (JBool true) ∧
  Doc.rest (generatePoolEntry credFilePath token index now)
    !! "KIRO_OAUTH_CREDS_FILE_PATH" = Some (JStr credFilePath) ∧
  Doc.rest (generatePoolEntry credFilePath token index now) !! "notSupportedModels" =
    None.
Proof.
  unfold generatePoolEntry. cbn [Doc.rest].
  repeat split;
    repeat (first [ rewrite lookup_insert_eq; reflexivity
                  | rewrite lookup_insert_ne by discriminate
                  | rewrite lookup_singleton_eq; reflexivity
                  | rewrite lookup_singleton_ne by discriminate; reflexivity ]).
Qed.

Lemma generatePoolEntry_fresh (credFilePath : string) (token : Token.t) (index : nat)
    (now : Z) :
  freshKiroEntry (initializeEntry (generatePoolEntry credFilePath token index now)).
Proof.
  destruct (generatePoolEntry_rest credFilePath token index now)
    as (Hu & Hm & Hc & _ & _).
  unfold freshKiroEntry, checkHealth, checkModelName, uuid.
  change (rest (initializeEntry (generatePoolEntry credFilePath token index now)))
    with (Doc.rest (generatePoolEntry credFilePath token index now)).
  rewrite Hu, Hm, Hc.
  repeat (split; [reflexivity|]).
  apply truthy_str_Some, default_or_null_nonempty. discriminate.
Qed.

Lemma poolEntriesFrom_Forall (P : Doc.Entry → Prop)
    (pathJoin : string → string → string) (outputDir : string) (clock : nat → Z)
    (tokens : list Token.t) (i : nat) :
  (∀ credFilePath token index now,
     P (generatePoolEntry credFilePath token index now)) →
  Forall P (poolEntriesFrom pathJoin outputDir clock i tokens).
Proof.
  intros HP. revert i. induction tokens as [|token tokens IH]; intros i; simpl;
    [constructor|].
  destruct (negb (truthy_str (Token.refreshToken token))); [apply IH|].
  constructor; [apply HP|apply IH].
Qed.

Lemma poolEntriesFrom_length (pathJoin : string → string → string)
    (outputDir : string) (clock : nat → Z) (tokens : list Token.t) (i : nat) :
  length (poolEntriesFrom pathJoin outputDir clock i tokens) =
  length (List.filter (λ token, truthy_str (Token.refreshToken token)) tokens).
Proof.
  revert i. induction tokens as [|token tokens IH]; intros i; simpl; [reflexivity|].
  destruct (truthy_str (Token.refreshToken token)); simpl; rewrite IH; reflexivity.
Qed.

Lemma poolEntriesFrom_elem (pathJoin : string → string → string)
    (outputDir : string) (clock : nat → Z) (tokens : list Token.t) (k : nat)
    (e : Doc.Entry) :
  e ∈ poolEntriesFrom pathJoin outputDir clock k tokens ↔
  ∃ i token,
    tokens !! i = Some token ∧ truthy_str (Token.refreshToken token) = true ∧
    e = generatePoolEntry
          (pathJoin outputDir
             (generateSafeFilename (Token.email token) (k + i) +:+ ".json"))
          token (k + i)%nat (clock (k + i)%nat).
Proof.
  revert k. induction tokens as [|token tokens IH]; intros k; cbn [poolEntriesFrom].
  - split; [intros Hin; inversion Hin|intros (i & token & Hi & _)].
    rewrite lookup_nil in Hi. discriminate.
  - assert ((∃ i t,
               tokens !! i = Some t ∧ truthy_str (Token.refreshToken t) = true ∧
               e = generatePoolEntry
                     (pathJoin outputDir
                        (generateSafeFilename (Token.email t) (S k + i) +:+ ".json"))
                     t (S k + i)%nat (clock (S k + i)%nat)) ↔
            (∃ i t,
               (token :: tokens) !! S i = Some t ∧
               truthy_str (Token.refreshToken t) = true ∧
               e = generatePoolEntry
                     (pathJoin outputDir
                        (generateSafeFilename (Token.email t) (k + S i) +:+ ".json"))
                     t (k + S i)%nat (clock (k + S i)%nat))) as Hshift.
    { split; intros (i & t & Hi & Ht & He); exists i, t;
        (split; [exact Hi|]); (split; [exact Ht|]);
        [replace (k + S i)%nat with (S k + i)%nat by lia
        |replace (S k + i)%nat with (k + S i)%nat by lia]; exact He. }
    destruct (truthy_str (Token.refreshToken token)) eqn:Hr; cbn [negb].
    + rewrite elem_of_cons, IH, Hshift. split.
      * intros [->|(i & t & Hi & Ht & He)].
        -- exists 0%nat, token. rewrite Nat.add_0_r. split; [reflexivity|].
           split; [exact Hr|reflexivity].
        -- exists (S i), t. split; [exact Hi|]. split; [exact Ht|exact He].
      * intros ([|i] & t & Hi & Ht & He).
        -- left. injection Hi as <-. rewrite Nat.add_0_r in He. exact He.
        -- right. exists i, t. split; [exact Hi|]. split; [exact Ht|exact He].
    + rewrite IH, Hshift. split.
      * intros (i & t & Hi & Ht & He). exists (S i), t.
        split; [exact Hi|]. split; [exact Ht|exact He].
      * intros ([|i] & t & Hi & Ht & He).
        -- injection Hi as <-. congruence.
        -- exists i, t. split; [exact Hi|]. split; [exact Ht|exact He].
Qed.

(** X18: the document that the generating script writes has the Kiro
    family only; its entries are the pool entries of the tokens that have
    a refresh token, each made with the token's position in the input and
    pointing to the credentials file named after the token.  A manager
    constructed from it has every entry healthy, enabled and unused, with
    health checks on for the Kiro check model and a non-empty uuid (the
    token's id, or [kiro-<time>-<position>] without one), so every entry
    can be addressed by uuid; the document satisfies the health invariant.
    A generated entry has the nine other managed fields and lacks only the
    usage snapshot: writing it back adds [usageInfo: null] and changes
    nothing else. *)
Theorem generated_pool_is_fresh (pathJoin : string → string → string)
    (outputDir : string) (clock : nat → Z) (tokens : list Token.t)
    (options : Options) :
  (∀ providerType, providerType ≠ "claude-kiro-oauth" →
     poolsContent pathJoin outputDir clock tokens !! providerType = None) ∧
  (∃ entries,
     poolsContent pathJoin outputDir clock tokens !! "claude-kiro-oauth"
       = Some entries ∧
     length entries =
       length (List.filter (λ token, truthy_str (Token.refreshToken token)) tokens) ∧
     ∀ e, e ∈ entries ↔
       ∃ i token,
         tokens !! i = Some token ∧ truthy_str (Token.refreshToken token) = true ∧
         e = generatePoolEntry
               (pathJoin outputDir
                  (generateSafeFilename (Token.email token) i +:+ ".json"))
               token i (clock i)) ∧
  length (pool (initializeProviderStatus
                  (poolsContent pathJoin outputDir clock tokens) options)
            "claude-kiro-oauth") =
    length (List.filter (λ token, truthy_str (Token.refreshToken token)) tokens) ∧
  Forall freshKiroEntry
    (pool (initializeProviderStatus
             (poolsContent pathJoin outputDir clock tokens) options)
       "claude-kiro-oauth") ∧
  DocHealthInv (poolsContent pathJoin outputDir clock tokens) ∧
  (∀ credFilePath token index now,
     uuid (initializeEntry (generatePoolEntry credFilePath token index now)) =
       Some (default ("kiro-" +:+ pretty now +:+ "-" +:+ pretty index)
               (or_null (Token.id token))) ∧
     (token.(Token.id) ≠ None → token.(Token.id) ≠ Some "" →
      uuid (initializeEntry (generatePoolEntry credFilePath token index now)) =
        token.(Token.id)) ∧
     rest (initializeEntry (generatePoolEntry credFilePath token index now))
       !! "KIRO_OAUTH_CREDS_FILE_PATH" = Some (JStr credFilePath)) ∧
  (∀ credFilePath token index now,
     Doc.usageInfo (generatePoolEntry credFilePath token index now) = None ∧
     ¬ complete (generatePoolEntry credFilePath token index now) ∧
     normalize (generatePoolEntry credFilePath token index now) =
       withUsageInfoNull (generatePoolEntry credFilePath token index now)).
Proof.
  assert (pool (initializeProviderStatus
                  (poolsContent pathJoin outputDir clock tokens) options)
            "claude-kiro-oauth" =
          map initializeEntry (poolEntriesFrom pathJoin outputDir clock 0 tokens))
    as Hpool.
  { unfold pool, poolsContent. simpl. rewrite lookup_fmap, lookup_singleton_eq.
    reflexivity. }
  split; [|split; [|split; [|split; [|split; [|split]]]]].
  - intros ty Hty. unfold poolsContent. apply lookup_singleton_ne. congruence.
  - exists (poolEntriesFrom pathJoin outputDir clock 0 tokens).
    split; [apply lookup_singleton_eq|]. split; [apply poolEntriesFrom_length|].
    intros e. apply (poolEntriesFrom_elem pathJoin outputDir clock tokens 0).
  - rewrite Hpool, length_map. apply poolEntriesFrom_length.
  - rewrite Hpool. apply Forall_map.
    apply (poolEntriesFrom_Forall (λ e, freshKiroEntry (initializeEntry e))).
    apply generatePoolEntry_fresh.
  - intros ty l Hl. unfold poolsContent in Hl.
    apply lookup_singleton_Some in Hl as [_ <-].
    apply poolEntriesFrom_Forall. intros ? ? ? ? [=].
  - intros credFilePath token index now.
    destruct (generatePoolEntry_rest credFilePath token index now)
      as (Hu & _ & _ & Hpath & _).
    unfold uuid.
    change (rest (initializeEntry (generatePoolEntry credFilePath token index now)))
      with (Doc.rest (generatePoolEntry credFilePath token index now)).
    rewrite Hu. split; [reflexivity|]. split; [|exact Hpath].
    intros Hsome Hne. unfold or_null. destruct (Token.id token) as [s|]; [|congruence].
    simpl. destruct (String.eqb_spec s ""); [congruence|reflexivity].
  - intros credFilePath token index now.
    split; [reflexivity|]. split; [|reflexivity].
    intros (_ & _ & _ & _ & _ & _ & _ & _ & _ & [? [=]]).
Qed.

(** ** File names of credentials *)

Lemma replaceSpecial_safe (s : string) :
  allChars (λ a, isAlphaNum a || Ascii.eqb a hyphen) (replaceSpecial s) = true ∧
  String.length (replaceSpecial s) = String.length s.
Proof.
  induction s as [|a s [IH1 IH2]]; [split; reflexivity|].
  simpl. rewrite IH1, IH2, andb_true_r. split; [|reflexivity].
  destruct (isAlphaNum a) eqn:Ha; [rewrite Ha; reflexivity|].
  reflexivity.
Qed.

Lemma beforeAt_app (localPart domain : string) :
  allChars (λ a, negb (Ascii.eqb a atSign)) localPart = true →
  beforeAt (localPart +:+ String atSign domain) = localPart.
Proof.
  induction localPart as [|a localPart IH]; simpl.
  - reflexivity.
  - intros Hall. apply andb_true_iff in Hall as [Ha Hall].
    apply negb_true_iff in Ha. rewrite Ha, IH by exact Hall. reflexivity.
Qed.

Lemma replaceSpecial_get (s : string) (i : nat) :
  String.get i (replaceSpecial s) =
  (λ a, if isAlphaNum a then a else hyphen) <$> String.get i s.
Proof.
  revert i. induction s as [|a s IH]; intros i; [reflexivity|].
  destruct i as [|i]; [reflexivity|]. cbn [replaceSpecial String.get]. apply IH.
Qed.

Lemma replaceSpecial_alphaNum (s : string) :
  allChars isAlphaNum s = true → replaceSpecial s = s.
Proof.
  induction s as [|a s IH]; [reflexivity|].
  cbn [allChars replaceSpecial]. intros Hall.
  apply andb_true_iff in Hall as [Ha Hall]. rewrite Ha, IH by exact Hall. reflexivity.
Qed.

Lemma beforeAt_no_at (s : string) :
  allChars (λ a, negb (Ascii.eqb a atSign)) s = true → beforeAt s = s.
Proof.
  induction s as [|a s IH]; [reflexivity|].
  cbn [allChars beforeAt]. intros Hall.
  apply andb_true_iff in Hall as [Ha Hall]. apply negb_true_iff in Ha.
  rewrite Ha, IH by exact Hall. reflexivity.
Qed.

Lemma isAlphaNum_spec (a : Ascii.ascii) :
  isAlphaNum a = true ↔
  (48 ≤ Ascii.nat_of_ascii a ≤ 57 ∨ 65 ≤ Ascii.nat_of_ascii a ≤ 90 ∨
   97 ≤ Ascii.nat_of_ascii a ≤ 122)%nat.
Proof.
  unfold isAlphaNum. rewrite !orb_true_iff, !andb_true_iff, !Nat.leb_le. tauto.
Qed.

(** X19: for a non-empty address the file name is [kiro-] followed by the
    local part, the text before the first [@] (all of it without [@]), in
    which every letter and digit is kept in its place and every other
    character is replaced by a hyphen; a local part of letters and digits
    is kept as it is.  The position of the token and the domain play no
    part, and two addresses whose local parts differ only in special
    characters get the same file name.  Without an address the name is
    [kiro-] followed by the position counted from one. *)
Theorem generateSafeFilename_safe :
  (∀ email index,
     truthy_str email = true →
     ∃ username,
       generateSafeFilename email index = "kiro-" +:+ username ∧
       String.length username = String.length (beforeAt (default "" email)) ∧
       (∀ i, String.get i username =
             (λ a, if isAlphaNum a then a else hyphen)
               <$> String.get i (beforeAt (default "" email))) ∧
       allChars (λ a, isAlphaNum a || Ascii.eqb a hyphen) username = true) ∧
  (∀ a, isAlphaNum a = true ↔
        (48 ≤ Ascii.nat_of_ascii a ≤ 57 ∨ 65 ≤ Ascii.nat_of_ascii a ≤ 90 ∨
         97 ≤ Ascii.nat_of_ascii a ≤ 122)%nat) ∧
  (∀ localPart domain,
     allChars (λ a, negb (Ascii.eqb a atSign)) localPart = true →
     beforeAt (localPart +:+ String atSign domain) = localPart ∧
     beforeAt localPart = localPart) ∧
  (∀ localPart domain index,
     allChars isAlphaNum localPart = true →
     generateSafeFilename (Some (localPart +:+ String atSign domain)) index =
       "kiro-" +:+ localPart) ∧
  (∀ local1 local2 domain1 domain2 index1 index2,
     allChars (λ a, negb (Ascii.eqb a atSign)) local1 = true →
     allChars (λ a, negb (Ascii.eqb a atSign)) local2 = true →
     replaceSpecial local1 = replaceSpecial local2 →
     generateSafeFilename (Some (local1 +:+ String atSign domain1)) index1 =
     generateSafeFilename (Some (local2 +:+ String atSign domain2)) index2) ∧
  (∀ email index,
     truthy_str email = false →
     generateSafeFilename email index = "kiro-" +:+ pretty (index + 1)%nat) ∧
  generateSafeFilename (Some "john.doe+x@example.com") 0 = "kiro-john-doe-x".
Proof.
  assert (∀ l d, truthy_str (Some (l +:+ String atSign d)) = true) as Ht.
  { intros l d. simpl. destruct l; reflexivity. }
  split; [|split; [exact isAlphaNum_spec|split; [|split; [|split; [|split]]]]].
  - intros email index Hemail. unfold generateSafeFilename. rewrite Hemail. simpl.
    eexists. split; [reflexivity|].
    split; [apply replaceSpecial_safe|]. split; [apply replaceSpecial_get|].
    apply replaceSpecial_safe.
  - intros localPart domain Hno. split; [apply beforeAt_app, Hno|].
    apply beforeAt_no_at, Hno.
  - intros localPart domain index Hall. unfold generateSafeFilename.
    rewrite Ht. simpl negb. cbv iota. unfold default, id.
    rewrite beforeAt_app, replaceSpecial_alphaNum; [reflexivity|exact Hall|].
    clear -Hall. induction localPart as [|a l IH]; [reflexivity|].
    cbn [allChars] in Hall |- *. apply andb_true_iff in Hall as [Ha Hall].
    rewrite (IH Hall), andb_true_r. apply negb_true_iff.
    destruct (Ascii.eqb_spec a atSign) as [->|]; [discriminate Ha|reflexivity].
  - intros local1 local2 domain1 domain2 index1 index2 H1 H2 Heq.
    unfold generateSafeFilename.
    rewrite !Ht. simpl negb. cbv iota. unfold default, id.
    rewrite !beforeAt_app by assumption. rewrite Heq. reflexivity.
  - intros email index Hemail. unfold generateSafeFilename. rewrite Hemail. reflexivity.
  - vm_compute. reflexivity.
Qed.

(** ** Cleaning the Kiro pool *)

Lemma selectProvider_empty_pool parseDate providerType requestedModel skip now usedAt m :
  pool m providerType = [] →
  selectProvider parseDate providerType requestedModel skip now usedAt m = (m, None, []).
Proof.
  intros Hempty.
  destruct (selectProvider_cases parseDate providerType requestedModel skip now usedAt m)
    as [[_ Heq]|(_ & Hen & _)]; [exact Heq|].
  contradiction Hen. rewrite Hempty. unfold enabledProviders. simpl.
  destruct (truthy_str requestedModel); reflexivity.
Qed.

(** X20: the cleaning script reports the number of Kiro entries and
    writes the file only when there is at least one.  Afterwards the file
    has the other families as before and no Kiro entry, a second run
    writes nothing, and a manager constructed from the file returns null
    for every selection from the Kiro family while its other families are
    as they would have been. *)
Theorem cleanPools_clears_kiro (parseDate : string → option Z) (pools : Document)
    (options : Options) (requestedModel : option string) (skip : bool)
    (now usedAt : Date) :
  (cleanPools pools).2 = length (default [] (pools !! "claude-kiro-oauth")) ∧
  ((cleanPools pools).1 = None ↔ default [] (pools !! "claude-kiro-oauth") = []) ∧
  (∀ providerType, providerType ≠ "claude-kiro-oauth" →
     afterCleaning pools !! providerType = pools !! providerType) ∧
  default [] (afterCleaning pools !! "claude-kiro-oauth") = [] ∧
  cleanPools (afterCleaning pools) = (None, 0%nat) ∧
  selectProvider parseDate "claude-kiro-oauth" requestedModel skip now usedAt
    (initializeProviderStatus (afterCleaning pools) options) =
    (initializeProviderStatus (afterCleaning pools) options, None, []) ∧
  (∀ providerType, providerType ≠ "claude-kiro-oauth" →
     pool (initializeProviderStatus (afterCleaning pools) options) providerType =
     pool (initializeProviderStatus pools options) providerType).
Proof.
  assert (default [] (afterCleaning pools !! "claude-kiro-oauth") = []) as Hkiro.
  { unfold afterCleaning, cleanPools.
    destruct (pools !! "claude-kiro-oauth") as [[|e l]|] eqn:Hl; simpl.
    - rewrite Hl. reflexivity.
    - rewrite lookup_insert_eq. reflexivity.
    - rewrite Hl. reflexivity. }
  assert (∀ providerType, providerType ≠ "claude-kiro-oauth" →
            afterCleaning pools !! providerType = pools !! providerType) as Hother.
  { intros ty Hty. unfold afterCleaning, cleanPools.
    destruct (pools !! "claude-kiro-oauth") as [[|e l]|]; simpl; try reflexivity.
    apply lookup_insert_ne. congruence. }
  split; [|split; [|split; [exact Hother|split; [exact Hkiro|split; [|split]]]]].
  - unfold cleanPools. destruct (pools !! "claude-kiro-oauth") as [[|e l]|]; reflexivity.
  - unfold cleanPools. destruct (pools !! "claude-kiro-oauth") as [[|e l]|]; simpl;
      split; congruence.
  - unfold cleanPools at 1.
    destruct (afterCleaning pools !! "claude-kiro-oauth") as [[|e l]|];
      simpl in Hkiro |- *; [reflexivity|discriminate|reflexivity].
  - apply selectProvider_empty_pool. unfold pool. simpl. rewrite lookup_fmap.
    destruct (afterCleaning pools !! "claude-kiro-oauth") as [l|]; simpl in Hkiro |- *;
      [rewrite Hkiro|]; reflexivity.
  - intros ty Hty. unfold pool. simpl. rewrite !lookup_fmap, Hother by exact Hty.
    reflexivity.
Qed.

(** ** The outcome of a periodic check *)

Lemma pool_saved_entry (m : Manager) (providerType : string) (i : nat) (c c' : Config) :
  pool m providerType !! i = Some c →
  pool (_debouncedSave providerType (setEntry providerType i c' m)) providerType !! i
    = Some c'.
Proof.
  intros Hc. rewrite pool__debouncedSave, pool_setEntry, decide_True by reflexivity.
  apply list_lookup_insert_eq. eapply lookup_lt_Some, Hc.
Qed.

(** X21: what the periodic check records on the entry it probed.  A throw
    and a failed probe both count one error at the time of the report and
    make the entry unhealthy once the error count reaches the maximum; a
    failed probe also records the time of the check and its model.  A
    successful probe makes the entry healthy, clears the error fields and
    sets the usage count back to 0.  In every case the disabled flag and
    the unmanaged keys are untouched. *)
Theorem health_check_outcome (m : Manager) (providerType : string) (i : nat)
    (c : Config) (outcome : Error + Result.t) (t1 t2 : Date) :
  designated m providerType i c →
  ∃ c',
    pool (healthCheckCompletion providerType i
            (match outcome with inl e => inl e | inr r => inr (Some r) end) t1 t2 m)
      providerType !! i = Some c' ∧
    isDisabled c' = isDisabled c ∧ rest c' = rest c ∧ lastUsed c' = lastUsed c ∧
    match outcome with
    | inl error =>
        errorCount c' = errorCount c + 1 ∧
        lastErrorTime c' = Some (toISOString t1) ∧
        isHealthy c' =
          (if maxErrorCount m <=? errorCount c + 1 then false else isHealthy c) ∧
        lastErrorMessage c' =
          (if truthy_str (message error) then message error else lastErrorMessage c) ∧
        usageCount c' = usageCount c ∧
        lastHealthCheckTime c' = lastHealthCheckTime c
    | inr healthResult =>
        lastHealthCheckModel c' =
          (if truthy_str (Result.modelName healthResult)
           then Result.modelName healthResult else lastHealthCheckModel c) ∧
        if Result.success healthResult
        then isHealthy c' = true ∧ errorCount c' = 0 ∧ usageCount c' = 0 ∧
             lastErrorTime c' = None ∧ lastErrorMessage c' = None ∧
             lastHealthCheckTime c' = Some (toISOString t1)
        else errorCount c' = errorCount c + 1 ∧
             lastErrorTime c' = Some (toISOString t1) ∧
             isHealthy c' =
               (if maxErrorCount m <=? errorCount c + 1 then false else isHealthy c) ∧
             lastErrorMessage c' =
               (if truthy_str (Result.errorMessage healthResult)
                then Result.errorMessage healthResult else lastErrorMessage c) ∧
             usageCount c' = usageCount c ∧
             lastHealthCheckTime c' = Some (toISOString t2)
    end.
Proof.
  intros Hd. pose proof (_findProvider_designated _ _ _ _ Hd) as Hf.
  destruct Hd as (_ & Hc & _).
  unfold healthCheckCompletion. rewrite Hc.
  destruct outcome as [error|healthResult].
  - unfold markProviderUnhealthy. simpl. rewrite Hf.
    eexists. split; [apply (pool_saved_entry m providerType i c), Hc|].
    destruct (truthy_str (message error)); simpl;
      destruct (maxErrorCount m <=? errorCount c + 1); simpl; repeat split.
  - destruct (Result.success healthResult).
    + unfold markProviderHealthy. simpl. rewrite Hf.
      eexists. split; [apply (pool_saved_entry m providerType i c), Hc|].
      destruct (truthy_str (Result.modelName healthResult)); simpl; repeat split.
    + unfold markProviderUnhealthy. simpl. rewrite Hf.
      rewrite (pool_saved_entry m providerType i c) by exact Hc.
      eexists. split.
      * rewrite pool_setEntry, decide_True by reflexivity.
        apply list_lookup_insert_eq.
        rewrite pool__debouncedSave, pool_setEntry, decide_True by reflexivity.
        rewrite length_insert. eapply lookup_lt_Some, Hc.
      * destruct (truthy_str (Result.modelName healthResult)); simpl;
          destruct (truthy_str (Result.errorMessage healthResult)); simpl;
          destruct (maxErrorCount m <=? errorCount c + 1); simpl; repeat split.
Qed.

Lemma health_check_outcome_witness :
  ∃ c',
    pool (healthCheckCompletion "openai-custom" 1
            (inr (Some (probeSucceeded "gpt-3.5-turbo"))) later afternoon
            poolWithUnhealthyB) "openai-custom" !! 1%nat = Some c' ∧
    isHealthy c' = true ∧ usageCount c' = 0 ∧
    lastHealthCheckModel c' = Some "gpt-3.5-turbo".
Proof.
  destruct (health_check_outcome poolWithUnhealthyB "openai-custom" 1 unhealthyB
              (inr (probeSucceeded "gpt-3.5-turbo")) later afternoon
              poolWithUnhealthyB_designated)
    as (c' & Hl & _ & _ & _ & Hm & Hh & _ & Hu & _).
  exists c'. split; [exact Hl|]. split; [exact Hh|]. split; [exact Hu|exact Hm].
Defined.

(** ** Entries with a repeated uuid *)

Lemma pool_saved_other (m : Manager) (providerType : string) (i j : nat) (c' : Config) :
  i ≠ j →
  pool (_debouncedSave providerType (setEntry providerType j c' m)) providerType !! i
    = pool m providerType !! i.
Proof.
  intros Hne. rewrite pool__debouncedSave, pool_setEntry, decide_True by reflexivity.
  apply list_lookup_insert_ne. congruence.
Qed.

(** X22: the operations that address an entry by uuid act on the first
    entry of the family with that uuid.  An entry whose uuid repeats that
    of an earlier entry is therefore never changed by them: an error, a
    recovery, a reset or a change of the disabled flag reported with its
    configuration is recorded on the earlier entry, and a periodic check of
    it that throws or succeeds leaves it as it was. *)
Theorem repeated_uuid_is_shadowed (m : Manager) (providerType : string) (i j : nat)
    (c c0 : Config) :
  designated m providerType j c0 →
  i ≠ j →
  pool m providerType !! i = Some c →
  uuid c = uuid c0 →
  (∀ errorMessage now,
     pool (markProviderUnhealthy providerType (Some c) errorMessage now m)
       providerType !! i = Some c ∧
     ∃ c0', pool (markProviderUnhealthy providerType (Some c) errorMessage now m)
              providerType !! j = Some c0' ∧
            errorCount c0' = errorCount c0 + 1) ∧
  (∀ reset model now usedAt,
     pool (markProviderHealthy providerType (Some c) reset model now usedAt m)
       providerType !! i = Some c ∧
     ∃ c0', pool (markProviderHealthy providerType (Some c) reset model now usedAt m)
              providerType !! j = Some c0' ∧
            isHealthy c0' = true) ∧
  pool (resetProviderCounters providerType (Some c) m) providerType !! i = Some c ∧
  pool (disableProvider providerType (Some c) m) providerType !! i = Some c ∧
  pool (disableProvider providerType (Some c) m) providerType !! j
    = Some (set_isDisabled true c0) ∧
  pool (enableProvider providerType (Some c) m) providerType !! i = Some c ∧
  (∀ error t1 t2,
     pool (healthCheckCompletion providerType i (inl error) t1 t2 m) providerType !! i
       = Some c) ∧
  (∀ healthResult t1 t2,
     Result.success healthResult = true →
     pool (healthCheckCompletion providerType i (inr (Some healthResult)) t1 t2 m)
       providerType !! i = Some c).
Proof.
  intros Hd Hne Hc Hu. pose proof (_findProvider_designated _ _ _ _ Hd) as Hf.
  rewrite <- Hu in Hf. destruct Hd as (_ & Hc0 & _).
  assert (∀ errorMessage now,
     pool (markProviderUnhealthy providerType (Some c) errorMessage now m)
       providerType !! i = Some c) as Hunhealthy.
  { intros errorMessage now. unfold markProviderUnhealthy. simpl. rewrite Hf.
    rewrite pool_saved_other by exact Hne. exact Hc. }
  assert (∀ reset model now usedAt,
     pool (markProviderHealthy providerType (Some c) reset model now usedAt m)
       providerType !! i = Some c) as Hhealthy.
  { intros reset model now usedAt. unfold markProviderHealthy. simpl. rewrite Hf.
    rewrite pool_saved_other by exact Hne. exact Hc. }
  split; [|split; [|split; [|split; [|split; [|split; [|split]]]]]].
  - intros errorMessage now. split; [apply Hunhealthy|].
    unfold markProviderUnhealthy. simpl. rewrite Hf.
    eexists. split; [apply (pool_saved_entry m providerType j c0), Hc0|].
    destruct (truthy_str errorMessage); simpl;
      destruct (maxErrorCount m <=? errorCount c0 + 1); reflexivity.
  - intros reset model now usedAt. split; [apply Hhealthy|].
    unfold markProviderHealthy. simpl. rewrite Hf.
    eexists. split; [apply (pool_saved_entry m providerType j c0), Hc0|].
    destruct (truthy_str model); destruct reset; reflexivity.
  - unfold resetProviderCounters. simpl. rewrite Hf.
    rewrite pool_saved_other by exact Hne. exact Hc.
  - unfold disableProvider. simpl. rewrite Hf.
    rewrite pool_saved_other by exact Hne. exact Hc.
  - unfold disableProvider. simpl. rewrite Hf.
    apply (pool_saved_entry m providerType j c0), Hc0.
  - unfold enableProvider. simpl. rewrite Hf.
    rewrite pool_saved_other by exact Hne. exact Hc.
  - intros error t1 t2. unfold healthCheckCompletion. rewrite Hc. apply Hunhealthy.
  - intros healthResult t1 t2 Hs. unfold healthCheckCompletion. rewrite Hc, Hs.
    apply Hhealthy.
Qed.

Lemma repeated_uuid_is_shadowed_witness :
  pool (disableProvider "openai-custom" (Some (initializeEntry (entryNamed "A")))
          duplicatePool) "openai-custom" !! 1%nat
    = Some (initializeEntry (entryNamed "A")) ∧
  pool (disableProvider "openai-custom" (Some (initializeEntry (entryNamed "A")))
          duplicatePool) "openai-custom" !! 0%nat
    = Some (set_isDisabled true (initializeEntry (entryNamed "A"))).
Proof.
  assert (designated duplicatePool "openai-custom" 0 (initializeEntry (entryNamed "A")))
    as Hd.
  { split; [discriminate|]. split; [reflexivity|]. split; [reflexivity|].
    intros j c' Hj. lia. }
  destruct (repeated_uuid_is_shadowed duplicatePool "openai-custom" 1 0
              (initializeEntry (entryNamed "A")) (initializeEntry (entryNamed "A"))
              Hd (Nat.neq_succ_0 0) eq_refl eq_refl)
    as (_ & _ & _ & H4 & H5 & _).
  split; [exact H4|exact H5].
Defined.

(** ** What the usage analysis depends on *)

(** X23: the analysis depends on the breakdown only through the list of
    contributing buckets in the order of the report: two usage reports
    with the same list and the same reset, subscription and user data get
    the same analysis.  A bonus or a free trial that is not ACTIVE
    contributes nothing, wherever it stands.  The order of the buckets
    does matter, the totals being binary64 sums: the same three items get
    a healthy verdict with the large one first and an unhealthy one with
    it last. *)
Theorem _analyzeUsageHealth_contributing_only :
  (∀ numberText u u',
     subBuckets u' = subBuckets u →
     Usage.nextDateReset u' = Usage.nextDateReset u →
     Usage.daysUntilReset u' = Usage.daysUntilReset u →
     Usage.subscription u' = Usage.subscription u →
     Usage.user u' = Usage.user u →
     _analyzeUsageHealth numberText u' = _analyzeUsageHealth numberText u) ∧
  (∀ b bonus before after,
     isActive bonus = false →
     default [] (Usage.bonuses b) = before ++ after →
     contributing (withBonuses (before ++ bonus :: after) b) = contributing b) ∧
  (∀ b freeTrial,
     isActive freeTrial = false →
     contributing (withFreeTrial (Some freeTrial) b) =
     contributing (withFreeTrial None b)) ∧
  (∀ numberText,
     subBuckets largeLastUsage ≡ₚ subBuckets largeFirstUsage ∧
     Analysis.success (_analyzeUsageHealth numberText largeFirstUsage) = true ∧
     Analysis.success (_analyzeUsageHealth numberText largeLastUsage) = false).
Proof.
  split; [|split; [|split]].
  - intros numberText u u' Hs H1 H2 H3 H4. unfold _analyzeUsageHealth.
    rewrite !foldl_addBreakdown. fold (subBuckets u) (subBuckets u').
    rewrite Hs, H1, H2, H3, H4. reflexivity.
  - intros b bonus before after Hb Hbs. unfold contributing.
    cbn [Usage.baseUsage Usage.baseLimit Usage.freeTrial Usage.bonuses withBonuses].
    rewrite Hbs.
    change (default [] (Some (before ++ bonus :: after)))
      with (before ++ bonus :: after).
    rewrite !List.filter_app. cbn [List.filter]. rewrite Hb. reflexivity.
  - intros b freeTrial Hft. unfold contributing.
    cbn [Usage.baseUsage Usage.baseLimit Usage.freeTrial Usage.bonuses withFreeTrial].
    rewrite Hft. reflexivity.
  - intros numberText. split; [|split; vm_compute; reflexivity].
    change (subBuckets largeLastUsage)
      with ([(binary64 1, binary64 0); (binary64 1, binary64 0)]
              ++ [(binary64 (2 ^ 53), binary64 (2 ^ 53 + 2))]).
    change (subBuckets largeFirstUsage)
      with ([(binary64 (2 ^ 53), binary64 (2 ^ 53 + 2))]
              ++ [(binary64 1, binary64 0); (binary64 1, binary64 0)]).
    apply Permutation_app_comm.
Qed.
